(** * ollama-api-proxy: the protocol translation engine of [src/index.js]

    A shallow embedding of the request validators, the embedding
    orchestrator, the two responders and the error classifier, followed
    by the properties the specification states about them.

    Conventions of the embedding.
    - A JavaScript string is a [string]; a character stands for one
      UTF-16 code unit below 256, so [String.length] is [.length].
    - A JavaScript number is kept as the text [Number::toString] prints
      for it: the program only tests numbers for truthiness, converts
      them to text and passes them on.
    - [throw new Error(m)] is [Throw m]; a [TypeError] raised by the
      runtime is a [Throw] of its message.
    - A request handler is a computation on a world that records the
      upstream calls issued and the events sent to the client; the
      upstream services and the clock are parameters of the process.
    - An entry of the model registry has a provider and a model that are
      strings, as [models.json] and the built-in registry have them.
    - Writing to the response does not fail, and a handle made at
      start-up makes a model object of every model name.
    - [console.*] calls have no effect on the results and are left out. *)

From Stdlib Require Import String Ascii List Bool Arith NArith Lia.
From Stdlib Require Import DecimalString.
From stdpp Require Import base strings list gmap.
Import ListNotations.

Set Warnings "-register-all,-abstract-large-number".

Local Open Scope string_scope.
Local Open Scope list_scope.

(* ===================================================================== *)
(** ** Exceptions *)
(* ===================================================================== *)

Inductive Outcome (A : Type) : Type :=
| Ok (a : A)
| Throw (message : string).
Arguments Ok {A} a.
Arguments Throw {A} message.

Definition bindO {A B} (m : Outcome A) (k : A -> Outcome B) : Outcome B :=
  match m with
  | Ok a => k a
  | Throw e => Throw e
  end.

Notation "'let?' x ':=' m 'in' k" := (bindO m (fun x => k))
  (at level 10, x pattern, m at level 100, k at level 200).

Definition is_ok {A} (m : Outcome A) : bool :=
  match m with Ok _ => true | Throw _ => false end.

(* ===================================================================== *)
(** ** JavaScript values *)
(* ===================================================================== *)

Module Js.

(** What [JSON.parse] produces, plus [undefined] (the result of reading
  an absent property) and [VFun] (a built-in method found on a
  prototype, of which the program only observes that it is truthy,
  not a string and not an array). *)
Inductive value : Type :=
| VUndefined
| VNull
| VBool (b : bool)
| VNum (text : string)
| VStr (s : string)
| VArr (elems : list value)
| VObj (props : list (string * value))
| VFun.

(** ToBoolean. *)
Definition truthy (v : value) : bool :=
match v with
| VUndefined | VNull => false
| VBool b => b
| VNum t => negb (String.eqb t "0" || String.eqb t "NaN")
| VStr s => negb (String.eqb s "")
| VArr _ | VObj _ | VFun => true
end.

Definition is_string (v : value) : bool :=
match v with VStr _ => true | _ => false end.

Definition is_array (v : value) : bool :=
match v with VArr _ => true | _ => false end.

Definition is_undefined (v : value) : bool :=
match v with VUndefined => true | _ => false end.

(** [v === 'lit'] for a string literal. *)
Definition strict_eq_str (v : value) (lit : string) : bool :=
match v with VStr s => String.eqb s lit | _ => false end.

(** Own properties of an object: the first binding of a name counts. *)
Fixpoint own (props : list (string * value)) (k : string) : option value :=
match props with
| [] => None
| (k', v) :: rest => if String.eqb k' k then Some v else own rest k
end.

(** The names every object inherits from [Object.prototype]. *)
Definition object_prototype_keys : list string :=
[ "constructor"; "__proto__"; "hasOwnProperty"; "isPrototypeOf";
  "propertyIsEnumerable"; "toLocaleString"; "toString"; "valueOf";
  "__defineGetter__"; "__defineSetter__"; "__lookupGetter__";
  "__lookupSetter__" ].

Definition on_object_prototype (k : string) : bool :=
existsb (String.eqb k) object_prototype_keys.

(** Property read [v.k]. Reading from [undefined] or [null] is a
  TypeError. Of the names the program reads, the only one found on the
  prototype of a primitive or of an array is [Array.prototype.values];
  the length and the elements of an array are read from its list. *)
Definition get (v : value) (k : string) : Outcome value :=
match v with
| VUndefined =>
    Throw ("Cannot read properties of undefined (reading '" +:+ k +:+ "')")
| VNull =>
    Throw ("Cannot read properties of null (reading '" +:+ k +:+ "')")
| VObj props =>
    match own props k with
    | Some x => Ok x
    | None => Ok (if on_object_prototype k then VFun else VUndefined)
    end
| VArr _ =>
    Ok (if String.eqb k "values" || on_object_prototype k
        then VFun else VUndefined)
| _ => Ok (if on_object_prototype k then VFun else VUndefined)
end.

Section Join.

(** [Array.prototype.join] with commas, [print] being the conversion of
    an element: [null] and [undefined] print as nothing. *)
Variable print : value -> Outcome string.

Fixpoint join (elems : list value) (first : bool) : Outcome string :=
  match elems with
  | [] => Ok ""
  | x :: rest =>
      let? sx := match x with
                 | VUndefined | VNull => Ok ""
                 | _ => print x
                 end in
      let? sr := join rest false in
      Ok ((if first then "" else ",") +:+ sx +:+ sr)
  end.

End Join.

(** ToString, as used by template literals and by property keys. An
    object parsed from JSON prints as [[object Object]] unless it has an
    own [toString] entry, which is not callable and makes the conversion
    a TypeError. An array prints as its elements joined. *)
Fixpoint to_string (v : value) : Outcome string :=
  match v with
  | VUndefined => Ok "undefined"
  | VNull => Ok "null"
  | VBool b => Ok (if b then "true" else "false")
  | VNum t => Ok t
  | VStr s => Ok s
  | VArr elems => join to_string elems true
  | VObj props =>
      match own props "toString" with
      | None => Ok "[object Object]"
      | Some _ => Throw "Cannot convert object to primitive value"
      end
  | VFun => Ok "function () { [native code] }"
  end.

(** [a || b] on values. *)
Definition or_else (a b : value) : value := if truthy a then a else b.

End Js.
Import Js.

(* ===================================================================== *)
(** ** Strings *)
(* ===================================================================== *)

(** White space and line terminators below 256, as [String.prototype.trim]
    removes them: TAB, LF, VT, FF, CR, SP and NBSP. *)
Definition is_space (c : ascii) : bool :=
  let n := N_of_ascii c in
  ((9 <=? n)%N && (n <=? 13)%N) || (n =? 32)%N || (n =? 160)%N.

Fixpoint trimStart (s : string) : string :=
  match s with
  | EmptyString => EmptyString
  | String c rest => if is_space c then trimStart rest else s
  end.

Fixpoint trimEnd (s : string) : string :=
  match s with
  | EmptyString => EmptyString
  | String c rest =>
      let rest' := trimEnd rest in
      if is_space c && String.eqb rest' "" then EmptyString
      else String c rest'
  end.

Definition trim (s : string) : string := trimEnd (trimStart s).

(** [s.includes(sub)]. *)
Fixpoint includes (s sub : string) : bool :=
  String.prefix sub s ||
  match s with
  | EmptyString => false
  | String _ rest => includes rest sub
  end.

(** Decimal text of an index, a count or a status code. *)
Definition decimal (n : nat) : string :=
  NilEmpty.string_of_uint (Nat.to_uint n).

(* ===================================================================== *)
(** ** The process: configuration, upstream services, response sink *)
(* ===================================================================== *)

Module ModelConfig.
(** An entry of [models.json] as [loadModels] keeps it. *)
Record t : Type :=
  { provider : string; model : string; type : option string }.
End ModelConfig.

(** [providers]: a handle per API key found at start-up (lines 23-37). *)
Record Providers : Type :=
  { openai : bool; google : bool; openrouter : bool }.

(** Truthiness of [providers[name]]. *)
Definition has_provider (P : Providers) (name : string) : bool :=
  (String.eqb name "openai" && openai P)
  || (String.eqb name "google" && google P)
  || (String.eqb name "openrouter" && openrouter P)
  || on_object_prototype name.

(** [registry[key]] on [chatModels] or [embeddingModels]: an entry of its
    own, something inherited from [Object.prototype], or [undefined]. *)
Inductive Entry : Type :=
| Own (config : ModelConfig.t)
| Inherited
| Absent.

Definition registry_get (registry : gmap string ModelConfig.t) (key : string)
  : Entry :=
  match registry !! key with
  | Some config => Own config
  | None => if on_object_prototype key then Inherited else Absent
  end.

(** A prepared chat message, as handed to the AI SDK. *)
Module Message.
Record t : Type := { role : string; content : string }.
End Message.

(** The argument of [generateText] and [streamText]; [model] is the handle
    [providers[provider](model)], kept as the two names it is made from. *)
Module GenArgs.
Record t : Type :=
  { model : string * string;
    messages : list Message.t;
    temperature : value;
    maxTokens : value;
    topP : value }.
End GenArgs.

(** What the embedding endpoint answers to one [fetch]. *)
Inductive FetchOutcome : Type :=
| NetworkError (message : string)
| Response (status : nat) (text : Outcome string) (json : Outcome value).

(** What [streamText] hands back: the deltas of [textStream], the failure
    that ends the iteration if there is one, and [reasoning]. *)
Module StreamResult.
Record t : Type :=
  { textStream : list string;
    failure : option string;
    reasoning : value }.
End StreamResult.

Inductive UpstreamCall : Type :=
| EmbedContent (model text : string)
| GenerateText (args : GenArgs.t)
| StreamText (args : GenArgs.t).

(** What reaches the client: [response.writeHead], [response.write] of one
    NDJSON line, [response.end]. The JSON text is kept as the value that
    [JSON.stringify] is applied to. *)
Inductive SinkEvent : Type :=
| WriteHead (status : nat) (contentType : string)
| Write (chunk : value)
| EndWith (body : option value).

(** Everything a request handler reads but does not change. The upstream
    services answer by the number of calls made before, so that the same
    input may get different answers. *)
Record Env : Type :=
  { providers : Providers;
    chatModels : gmap string ModelConfig.t;
    embeddingModels : gmap string ModelConfig.t;
    GEMINI_API_KEY : option string;
    clock : nat -> string;
    fetch : nat -> string -> string -> FetchOutcome;
    generateText : nat -> GenArgs.t -> Outcome value;
    streamText : nat -> GenArgs.t -> Outcome StreamResult.t }.

(** What a request handler changes: the clock advances, upstream calls
    are issued, events reach the client. *)
Record World : Type :=
  { ticks : nat;
    calls : list UpstreamCall;
    sink : list SinkEvent }.

Definition initial : World := {| ticks := 0; calls := []; sink := [] |}.

(** A computation that may throw and acts on the world. *)
Definition M (A : Type) : Type := World -> Outcome A * World.

Definition ret {A} (a : A) : M A := fun w => (Ok a, w).

Definition throw {A} (message : string) : M A := fun w => (Throw message, w).

Definition bind {A B} (m : M A) (k : A -> M B) : M B :=
  fun w =>
    match m w with
    | (Ok a, w') => k a w'
    | (Throw e, w') => (Throw e, w')
    end.

Definition lift {A} (o : Outcome A) : M A := fun w => (o, w).

(** [try { body } catch (error) { handler }]. *)
Definition try_catch {A} (body : M A) (handler : string -> M A) : M A :=
  fun w =>
    match body w with
    | (Ok a, w') => (Ok a, w')
    | (Throw e, w') => handler e w'
    end.

Notation "x <- m ;; k" := (bind m (fun x => k))
  (at level 100, m at next level, right associativity).
Notation "m ;;; k" := (bind m (fun _ => k))
  (at level 100, right associativity).

(** [new Date().toISOString()]. *)
Definition now (E : Env) : M string :=
  fun w =>
    (Ok (clock E (ticks w)),
     {| ticks := S (ticks w); calls := calls w; sink := sink w |}).

Definition emit (e : SinkEvent) : M unit :=
  fun w =>
    (Ok tt, {| ticks := ticks w; calls := calls w; sink := sink w ++ [e] |}).

Definition record_call (c : UpstreamCall) : M nat :=
  fun w =>
    (Ok (length (calls w)),
     {| ticks := ticks w; calls := calls w ++ [c]; sink := sink w |}).

Definition is_write_head (e : SinkEvent) : bool :=
  match e with WriteHead _ _ => true | _ => false end.

(** [response.headersSent]. *)
Definition headersSent : M bool :=
  fun w => (Ok (existsb is_write_head (sink w)), w).

(** [sendJSON(response, data, status)]. *)
Definition sendJSON (data : value) (status : nat) : M unit :=
  emit (WriteHead status "application/json") ;;; emit (EndWith (Some data)).

(* ===================================================================== *)
(** ** Embedding requests (lines 166-448) *)
(* ===================================================================== *)

Definition dquote : string := String "034"%char EmptyString.

Definition maxTexts : nat := 100.
Definition maxTextLength : nat := 10000.

(** [config.type === kind], an absent [type] being [undefined]. *)
Definition kind_is (type : option string) (kind : string) : bool :=
  match type with
  | Some t => String.eqb t kind
  | None => false
  end.

Definition validateEmbeddingModel (E : Env) (name : value)
  : Outcome ModelConfig.t :=
  let? key := to_string name in
  match registry_get (embeddingModels E) key with
  | Absent => Throw ("Embedding model " +:+ key +:+ " not supported")
  | Inherited => Throw "Provider undefined not available"
  | Own config =>
      if negb (has_provider (providers E) (ModelConfig.provider config))
      then Throw ("Provider " +:+ ModelConfig.provider config
                  +:+ " not available")
      else if negb (kind_is (ModelConfig.type config) "embedding")
      then Throw ("Model " +:+ key +:+ " is not an embedding model")
      else Ok config
  end.

Module EmbeddingRequest.
(** The object [validateEmbeddingRequest] returns. *)
Record t : Type :=
  { modelConfig : ModelConfig.t;
    inputTexts : list string;
    isSingleText : bool }.
End EmbeddingRequest.

(** The callback of [body.input.map] (lines 206-215), from [index] on. *)
Fixpoint map_input (index : nat) (elems : list value) : Outcome (list string) :=
  match elems with
  | [] => Ok []
  | VStr text :: rest =>
      let trimmed := trim text in
      if String.eqb trimmed ""
      then Throw ("Input at index " +:+ decimal index +:+ " cannot be empty")
      else let? others := map_input (S index) rest in Ok (trimmed :: others)
  | _ :: _ =>
      Throw ("Input at index " +:+ decimal index +:+ " must be a string")
  end.

(** The loop of lines 237-241, from [i] on. *)
Fixpoint check_lengths (i : nat) (texts : list string) : Outcome unit :=
  match texts with
  | [] => Ok tt
  | text :: rest =>
      if (maxTextLength <? String.length text)%nat
      then Throw ("Input text at index " +:+ decimal i
                  +:+ " is too long. Maximum length: "
                  +:+ decimal maxTextLength +:+ " characters")
      else check_lengths (S i) rest
  end.

(** Lines 191-227: the input texts of a request, [prompt] being what
    [body.prompt] reads. *)
Definition input_texts (body prompt : value) : Outcome (list string) :=
  if truthy prompt then
    match prompt with
    | VStr s =>
        if String.eqb (trim s) ""
        then Throw "Prompt must be a non-empty string"
        else Ok [trim s]
    | _ => Throw "Prompt must be a non-empty string"
    end
  else
    let? input := get body "input" in
    if truthy input then
      match input with
      | VArr elems =>
          if (length elems =? 0)%nat
          then Throw "Input array cannot be empty"
          else map_input 0 elems
      | VStr s =>
          if String.eqb (trim s) ""
          then Throw "Input cannot be empty"
          else Ok [trim s]
      | _ => Throw "Input must be a string or array of strings"
      end
    else
      Throw ("Missing required field: either " +:+ dquote +:+ "prompt"
             +:+ dquote +:+ " or " +:+ dquote +:+ "input" +:+ dquote
             +:+ " must be provided").

Definition validateEmbeddingRequest (E : Env) (body : value)
  : Outcome EmbeddingRequest.t :=
  let? name := get body "model" in
  if negb (truthy name) then Throw "Missing required field: model" else
  let? modelConfig := validateEmbeddingModel E name in
  let? prompt := get body "prompt" in
  let? inputTexts := input_texts body prompt in
  if (maxTexts <? length inputTexts)%nat
  then Throw ("Too many input texts. Maximum allowed: " +:+ decimal maxTexts)
  else
    let? _ := check_lengths 0 inputTexts in
    Ok {| EmbeddingRequest.modelConfig := modelConfig;
          EmbeddingRequest.inputTexts := inputTexts;
          EmbeddingRequest.isSingleText :=
            (length inputTexts =? 1)%nat && negb (is_undefined prompt) |}.

(** Lines 254-282 of [handleEmbeddingError]: status and message chosen
    from the text of the failure. *)
Definition categorize (message : string) : nat * string :=
  if includes message "not supported"
     || includes message "not an embedding model"
     || includes message "Missing required field"
     || includes message "must be"
     || includes message "cannot be empty"
     || includes message "Too many"
     || includes message "too long"
  then (400, message)
  else if includes message "not available"
          || includes message "API key"
          || includes message "authentication"
          || includes message "unauthorized"
  then (401, message)
  else if includes message "rate limit"
          || includes message "quota"
          || includes message "too many requests"
  then (429, "Rate limit exceeded. Please try again later.")
  else if includes message "service unavailable"
          || includes message "timeout"
  then (503, "Service temporarily unavailable. Please try again later.")
  else (500, "Internal server error").

Definition error_body (message : string) : value :=
  VObj [("error", VStr message)].

Definition handleEmbeddingError (error : string) : M unit :=
  let '(status, message) := categorize error in
  sent <- headersSent ;;
  if negb sent then sendJSON (error_body message) status else ret tt.

Module EmbeddingResult.
(** The object [generateEmbeddings] returns. *)
Record t : Type :=
  { embeddings : list value;
    model : string;
    dimensions : nat }.
End EmbeddingResult.

Definition env_set (v : option string) : bool :=
  match v with
  | Some s => negb (String.eqb s "")
  | None => false
  end.

(** [response.ok]. *)
Definition ok_status (status : nat) : bool :=
  (200 <=? status)%nat && (status <=? 299)%nat.

(** Lines 326-347: what the loop of [generateEmbeddings] makes of the
    answer to the [fetch] for the text at index [i]. *)
Definition vector_of_answer (i : nat) (answer : FetchOutcome) : Outcome value :=
  match answer with
  | NetworkError message => Throw message
  | Response status body json =>
      if negb (ok_status status) then
        let? errorData := body in
        if (status =? 401)%nat then
          Throw "Google API authentication failed. Please check your GEMINI_API_KEY."
        else if (status =? 429)%nat then
          Throw "Google API rate limit exceeded. Please try again later."
        else if (status =? 400)%nat then
          Throw ("Invalid request to Google API: " +:+ errorData)
        else
          Throw ("Google API error (" +:+ decimal status +:+ "): "
                 +:+ errorData)
      else
        let? result := json in
        let? embedding := get result "embedding" in
        let? values := if truthy embedding then get embedding "values"
                       else Ok VUndefined in
        if negb (truthy embedding) || negb (truthy values)
           || negb (is_array values)
        then Throw ("Invalid embedding response for text " +:+ decimal (i + 1)
                    +:+ ": missing or invalid embedding array")
        else Ok values
  end.

(** The body of the loop of [generateEmbeddings] (lines 306-349) for the
    text at index [i]: one [fetch], and the vector it yields. *)
Definition embed_one (E : Env) (modelConfig : ModelConfig.t)
    (i : nat) (text : string) : M value :=
  n <- record_call (EmbedContent (ModelConfig.model modelConfig) text) ;;
  lift (vector_of_answer i (fetch E n (ModelConfig.model modelConfig) text)).

(** The loop of lines 305-355, from index [i] on, [embeddings] holding the
    vectors pushed so far. *)
Fixpoint embed_loop (E : Env) (modelConfig : ModelConfig.t)
    (i : nat) (texts : list string) (embeddings : list value)
  : M (list value) :=
  match texts with
  | [] => ret embeddings
  | text :: rest =>
      values <- try_catch (embed_one E modelConfig i text)
                          (fun error => throw error) ;;
      embed_loop E modelConfig (S i) rest (embeddings ++ [values])
  end.

Definition array_length (v : value) : nat :=
  match v with VArr elems => length elems | _ => 0 end.

Definition generateEmbeddings (E : Env) (modelConfig : ModelConfig.t)
    (inputTexts : list string) : M EmbeddingResult.t :=
  try_catch
    (if String.eqb (ModelConfig.provider modelConfig) "google"
        && negb (env_set (GEMINI_API_KEY E))
     then throw "Google API key (GEMINI_API_KEY) is required for Google embedding models"
     else if negb (String.eqb (ModelConfig.provider modelConfig) "google")
     then throw ("Only Google embedding models are currently supported, got: "
                 +:+ ModelConfig.provider modelConfig)
     else
       embeddings <- embed_loop E modelConfig 0 inputTexts [] ;;
       ret {| EmbeddingResult.embeddings := embeddings;
              EmbeddingResult.model := ModelConfig.model modelConfig;
              EmbeddingResult.dimensions :=
                match embeddings with
                | [] => 0
                | first :: _ => array_length first
                end |})
    (fun error => throw error).

Definition formatEmbeddingResponse (E : Env)
    (embeddingResult : EmbeddingResult.t) (modelName : value)
    (isSingleText : bool) : M value :=
  timestamp <- now E ;;
  if isSingleText then
    ret (VObj [ ("embedding",
                 nth 0 (EmbeddingResult.embeddings embeddingResult) VUndefined);
                ("model", modelName);
                ("created_at", VStr timestamp) ])
  else
    let formattedEmbeddings :=
      map (fun embedding => VObj [("embedding", embedding)])
          (EmbeddingResult.embeddings embeddingResult) in
    ret (VObj [ ("embeddings", VArr formattedEmbeddings);
                ("model", modelName);
                ("created_at", VStr timestamp) ]).

(** The loop of lines 425-433, from index [i] on. *)
Fixpoint check_embeddings (i : nat) (objs : list value) : Outcome unit :=
  match objs with
  | [] => Ok tt
  | embeddingObj :: rest =>
      let? embedding := get embeddingObj "embedding" in
      if negb (truthy embedding) || negb (is_array embedding)
      then Throw ("Embedding at index " +:+ decimal i
                  +:+ " is invalid or missing")
      else if (array_length embedding =? 0)%nat
      then Throw ("Embedding at index " +:+ decimal i +:+ " is empty")
      else check_embeddings (S i) rest
  end.

Definition validateEmbeddingResponse (response : value) (expectedCount : nat)
  : Outcome bool :=
  if negb (truthy response) then Throw "Empty embedding response" else
  let? embedding := get response "embedding" in
  let? _ :=
    if truthy embedding then
      if negb (is_array embedding)
      then Throw "Single embedding must be an array"
      else if (array_length embedding =? 0)%nat
      then Throw "Embedding array cannot be empty"
      else if negb (expectedCount =? 1)%nat
      then Throw ("Expected " +:+ decimal expectedCount
                  +:+ " embeddings but got single embedding")
      else Ok tt
    else
      let? embeddings := get response "embeddings" in
      if truthy embeddings then
        match embeddings with
        | VArr objs =>
            if negb (length objs =? expectedCount)%nat
            then Throw ("Expected " +:+ decimal expectedCount
                        +:+ " embeddings but got " +:+ decimal (length objs))
            else check_embeddings 0 objs
        | _ => Throw "Embeddings must be an array"
        end
      else
        Throw ("Response must contain either " +:+ dquote +:+ "embedding"
               +:+ dquote +:+ " or " +:+ dquote +:+ "embeddings" +:+ dquote
               +:+ " field") in
  let? name := get response "model" in
  if negb (truthy name) || negb (is_string name)
  then Throw "Response must contain valid model name" else
  let? created_at := get response "created_at" in
  if negb (truthy created_at) || negb (is_string created_at)
  then Throw "Response must contain valid created_at timestamp" else
  Ok true.

(** The handler of [POST /api/embeddings] (lines 738-767), from the parsed
    request body on. *)
Definition post_api_embeddings (E : Env) (body : value) : M unit :=
  try_catch
    (request <- lift (validateEmbeddingRequest E body) ;;
     embeddingResult <-
       generateEmbeddings E (EmbeddingRequest.modelConfig request)
                          (EmbeddingRequest.inputTexts request) ;;
     name <- lift (get body "model") ;;
     formattedResponse <-
       formatEmbeddingResponse E embeddingResult name
                               (EmbeddingRequest.isSingleText request) ;;
     _ <- lift (validateEmbeddingResponse formattedResponse
                  (length (EmbeddingRequest.inputTexts request))) ;;
     sendJSON formattedResponse 200)
    (fun error => handleEmbeddingError error).

(* ===================================================================== *)
(** ** Chat and generate requests (lines 155-164, 450-678, 722-737) *)
(* ===================================================================== *)

Definition validateChatModel (E : Env) (name : value) : Outcome ModelConfig.t :=
  let? key := to_string name in
  match registry_get (chatModels E) key with
  | Absent => Throw ("Chat model " +:+ key +:+ " not supported")
  | Inherited => Throw "Provider undefined not available"
  | Own config =>
      if negb (has_provider (providers E) (ModelConfig.provider config))
      then Throw ("Provider " +:+ ModelConfig.provider config
                  +:+ " not available")
      else Ok config
  end.

(** Truthiness of [msg.content && msg.content.trim()]. *)
Definition has_content (msg : value) : Outcome bool :=
  let? content := get msg "content" in
  if truthy content then
    match content with
    | VStr s => Ok (negb (String.eqb (trim s) ""))
    | _ => Throw "msg.content.trim is not a function"
    end
  else Ok false.

Fixpoint filter_messages (msgs : list value) : Outcome (list value) :=
  match msgs with
  | [] => Ok []
  | msg :: rest =>
      let? keep := has_content msg in
      let? others := filter_messages rest in
      Ok (if keep then msg :: others else others)
  end.

(** The callback of [.map] in [prepareMessages]. *)
Definition prepared (msg : value) : Outcome Message.t :=
  let? role := get msg "role" in
  let? content := get msg "content" in
  let? text := to_string content in
  Ok {| Message.role :=
          if strict_eq_str role "assistant" then "assistant" else "user";
        Message.content := trim text |}.

Fixpoint map_messages (msgs : list value) : Outcome (list Message.t) :=
  match msgs with
  | [] => Ok []
  | msg :: rest =>
      let? first := prepared msg in
      let? others := map_messages rest in
      Ok (first :: others)
  end.

Definition prepareMessages (messages : value) : Outcome (list Message.t) :=
  match messages with
  | VArr msgs => let? kept := filter_messages msgs in map_messages kept
  | VUndefined =>
      Throw "Cannot read properties of undefined (reading 'filter')"
  | VNull => Throw "Cannot read properties of null (reading 'filter')"
  | _ => Throw "messages.filter is not a function"
  end.

(** A parameter or a destructured property with a default value. *)
Definition default_to (d v : value) : value :=
  if is_undefined v then d else v.

(** [obj.k = v] on an object that has no property [k] yet. *)
Definition with_prop (obj : value) (k : string) (v : value) : value :=
  match obj with
  | VObj props => VObj (props ++ [(k, v)])
  | _ => obj
  end.

(** The model object [providers[provider](model)], named by the provider
    and the model it is made of. *)
Definition model_handle (modelConfig : ModelConfig.t) : string * string :=
  (ModelConfig.provider modelConfig, ModelConfig.model modelConfig).

(** [providers[name]] is a handle made at start-up (lines 23-37). *)
Definition own_handle (P : Providers) (name : string) : bool :=
  (String.eqb name "openai" && openai P)
  || (String.eqb name "google" && google P)
  || (String.eqb name "openrouter" && openrouter P).

(** [provider(model)] where [provider] is a member that [providers]
    inherits from [Object.prototype], called without a receiver and with
    a string: [Object], [toString] and [isPrototypeOf] return a value,
    [__proto__] is no function, the others convert the missing receiver
    to an object and fail. *)
Definition inherited_call (name : string) : Outcome unit :=
  if String.eqb name "constructor" || String.eqb name "toString"
     || String.eqb name "isPrototypeOf"
  then Ok tt
  else if String.eqb name "__proto__"
  then Throw "provider is not a function"
  else if String.eqb name "toLocaleString"
  then Throw "Object.prototype.toLocaleString called on null or undefined"
  else Throw "Cannot convert undefined or null to object".

(** Lines 461-462 and 512-513: [providers[modelConfig.provider]] called
    with [modelConfig.model]. *)
Definition provider_handle (P : Providers) (modelConfig : ModelConfig.t)
  : Outcome (string * string) :=
  let name := ModelConfig.provider modelConfig in
  if own_handle P name then Ok (model_handle modelConfig)
  else if on_object_prototype name then
    let? _ := inherited_call name in Ok (model_handle modelConfig)
  else Throw "provider is not a function".

(** The argument object of lines 470-476 and of lines 532-538: the model
    handle, the prepared messages and the three options read from
    [options], [limit] being what the caller makes of
    [options.num_predict]. *)
Definition call_args (model : string * string)
    (validMessages : list Message.t) (options : value)
    (limit : value -> value) : Outcome GenArgs.t :=
  let? temperature := get options "temperature" in
  let? num_predict := get options "num_predict" in
  let? top_p := get options "top_p" in
  Ok {| GenArgs.model := model;
        GenArgs.messages := validMessages;
        GenArgs.temperature := temperature;
        GenArgs.maxTokens := limit num_predict;
        GenArgs.topP := top_p |}.

Module GenerateResult.
(** The object [generateResponse] returns. *)
Record t : Type := { text : value; reasoning : value; messages : value }.
End GenerateResult.

(** [result.messages.filter(msg => msg.role === 'assistant')]. *)
Fixpoint filter_assistant (msgs : list value) : Outcome (list value) :=
  match msgs with
  | [] => Ok []
  | msg :: rest =>
      let? role := get msg "role" in
      let? others := filter_assistant rest in
      Ok (if strict_eq_str role "assistant" then msg :: others else others)
  end.

(** Lines 478-507: the reply taken from what [generateText] returned. *)
Definition assemble_result (result : value) : Outcome GenerateResult.t :=
  let? text := get result "text" in
  let? reasoning0 := get result "reasoning" in
  let reasoning := or_else reasoning0 VNull in
  let? resultMessages := get result "messages" in
  match resultMessages with
  | VArr msgs =>
      let? assistants := filter_assistant msgs in
      let assistantMessage := List.last assistants VUndefined in
      if truthy assistantMessage then
        let? content := get assistantMessage "content" in
        let? alt := get assistantMessage "text" in
        let? own_reasoning := get assistantMessage "reasoning" in
        Ok {| GenerateResult.text :=
                or_else (or_else content (or_else alt text)) (VStr "");
              GenerateResult.reasoning :=
                if truthy own_reasoning then own_reasoning else reasoning;
              GenerateResult.messages := resultMessages |}
      else
        Ok {| GenerateResult.text := or_else text (VStr "");
              GenerateResult.reasoning := reasoning;
              GenerateResult.messages := resultMessages |}
  | _ =>
      Ok {| GenerateResult.text := or_else text (VStr "");
            GenerateResult.reasoning := reasoning;
            GenerateResult.messages := VNull |}
  end.

Definition generateResponse (E : Env) (modelConfig : ModelConfig.t)
    (messages options : value) : M GenerateResult.t :=
  let options := default_to (VObj []) options in
  model <- lift (provider_handle (providers E) modelConfig) ;;
  validMessages <- lift (prepareMessages messages) ;;
  if (length validMessages =? 0)%nat then throw "No valid messages found" else
  args <- lift (call_args model validMessages options
                          (fun num_predict =>
                             or_else num_predict (VNum "32768"))) ;;
  n <- record_call (GenerateText args) ;;
  result <- lift (generateText E n args) ;;
  lift (assemble_result result).

(** An NDJSON object of a stream before its content is set. *)
Definition chunk_head (modelName created_at : string) (done : bool) : value :=
  VObj [ ("model", VStr modelName);
         ("created_at", VStr created_at);
         ("done", VBool done) ].

Definition assistant_message (content : string) : value :=
  VObj [("role", VStr "assistant"); ("content", VStr content)].

(** Lines 551-558 and 572-579: the content of a chunk, under the key of
    the endpoint. *)
Definition with_content (chunk : value) (responseKey content : string) : value :=
  if String.eqb responseKey "message"
  then with_prop chunk "message" (assistant_message content)
  else if String.eqb responseKey "response"
  then with_prop chunk "response" (VStr content)
  else chunk.

(** The loop of lines 543-562. *)
Fixpoint stream_deltas (E : Env) (modelName responseKey : string)
    (deltas : list string) : M unit :=
  match deltas with
  | [] => ret tt
  | delta :: rest =>
      created_at <- now E ;;
      emit (Write (with_content (chunk_head modelName created_at false)
                                responseKey delta)) ;;;
      stream_deltas E modelName responseKey rest
  end.

(** Lines 565-588: the closing chunk of a stream that ran to its end. *)
Definition final_chunk (modelName created_at responseKey : string)
    (reasoning : value) : value :=
  if truthy reasoning then
    if String.eqb responseKey "message"
    then with_prop (chunk_head modelName created_at true) "message"
           (with_prop (assistant_message "") "reasoning" reasoning)
    else with_prop
           (with_content (chunk_head modelName created_at true) responseKey "")
           "reasoning" reasoning
  else with_content (chunk_head modelName created_at true) responseKey "".

Definition error_chunk (modelName created_at error : string) : value :=
  with_prop (chunk_head modelName created_at true) "error" (VStr error).

Definition streamResponse (E : Env) (modelConfig : ModelConfig.t)
    (messages options : value) (responseKey : string) : M unit :=
  let options := default_to (VObj []) options in
  model <- lift (provider_handle (providers E) modelConfig) ;;
  validMessages <- lift (prepareMessages messages) ;;
  if (length validMessages =? 0)%nat then throw "No valid messages found" else
  emit (WriteHead 200 "application/x-ndjson") ;;;
  try_catch
    (args <- lift (call_args model validMessages options
                             (fun num_predict => num_predict)) ;;
     n <- record_call (StreamText args) ;;
     result <- lift (streamText E n args) ;;
     let modelName := ModelConfig.model modelConfig in
     stream_deltas E modelName responseKey (StreamResult.textStream result) ;;;
     match StreamResult.failure result with
     | Some message => throw message
     | None =>
         created_at <- now E ;;
         emit (Write (final_chunk modelName created_at responseKey
                                  (StreamResult.reasoning result))) ;;;
         emit (EndWith None)
     end)
    (fun error =>
       created_at <- now E ;;
       emit (Write (error_chunk (ModelConfig.model modelConfig)
                                created_at error)) ;;;
       emit (EndWith None)).

(** [const { model, options = {}, stream = false } = body]. *)
Definition destructure (body : value) : Outcome (value * value * value) :=
  match body with
  | VNull =>
      Throw "Cannot destructure property 'model' of 'body' as it is null."
  | VUndefined =>
      Throw "Cannot destructure property 'model' of 'body' as it is undefined."
  | _ =>
      let? name := get body "model" in
      let? options := get body "options" in
      let? stream := get body "stream" in
      Ok (name, default_to (VObj []) options, default_to (VBool false) stream)
  end.

(** The [try] block of [handleModelGenerationRequest] (lines 611-659). *)
Definition generation_attempt (E : Env)
    (messageExtractor : value -> Outcome value) (responseKey : string)
    (body : value) : M unit :=
  fields <- lift (destructure body) ;;
  let '(name, options, stream) := fields in
  modelConfig <- lift (validateChatModel E name) ;;
  extracted <- lift (messageExtractor body) ;;
  let messages := or_else extracted (VArr []) in
  if truthy stream then
    streamResponse E modelConfig messages options responseKey
  else
    result <- generateResponse E modelConfig messages options ;;
    created_at <- now E ;;
    let responseData :=
      VObj [ ("model", name);
             ("created_at", VStr created_at);
             ("done", VBool true) ] in
    let reasoning := GenerateResult.reasoning result in
    let responseData :=
      if String.eqb responseKey "message" then
        with_prop responseData "message"
          (let message :=
             VObj [ ("role", VStr "assistant");
                    ("content", GenerateResult.text result) ] in
           if truthy reasoning
           then with_prop message "reasoning" reasoning else message)
      else
        let responseData :=
          if String.eqb responseKey "response"
          then with_prop responseData "response" (GenerateResult.text result)
          else responseData in
        if truthy reasoning
        then with_prop responseData "reasoning" reasoning
        else responseData in
    let responseData :=
      if truthy (GenerateResult.messages result)
      then with_prop responseData "messages" (GenerateResult.messages result)
      else responseData in
    sendJSON responseData 200.

(** The [catch] block of [handleModelGenerationRequest] (lines 660-677). *)
Definition generation_failed (E : Env) (error : string) : M unit :=
  sent <- headersSent ;;
  if negb sent then sendJSON (error_body error) 500
  else
    created_at <- now E ;;
    emit (Write (error_chunk "unknown" created_at error)) ;;;
    emit (EndWith None).

Definition handleModelGenerationRequest (E : Env)
    (messageExtractor : value -> Outcome value) (responseKey : string)
    (body : value) : M unit :=
  try_catch (generation_attempt E messageExtractor responseKey body)
            (generation_failed E).

(** [routes['POST /api/chat']] and [routes['POST /api/generate']], from
    the parsed request body on. *)
Definition post_api_chat (E : Env) (body : value) : M unit :=
  handleModelGenerationRequest E (fun body => get body "messages")
                               "message" body.

Definition post_api_generate (E : Env) (body : value) : M unit :=
  handleModelGenerationRequest E
    (fun body =>
       let? prompt := get body "prompt" in
       Ok (VArr [VObj [("role", VStr "user"); ("content", prompt)]]))
    "response" body.


(* ===================================================================== *)
(** ** Notions used in the statements *)
(* ===================================================================== *)

(** A string that does not begin with white space. *)
Definition starts_solid (s : string) : bool :=
  match s with
  | EmptyString => true
  | String c _ => negb (is_space c)
  end.

(** Computations that send nothing to the client. *)
Definition silent {A} (m : M A) : Prop :=
  forall w, sink (snd (m w)) = sink w.

(** The upstream service answers a [fetch] with a 2xx status and a JSON
    body [{embedding: {values: vector}}]. *)
Definition answers_with (answer : FetchOutcome) (vector : list value) : Prop :=
  exists status body result embedding,
    answer = Response status body (Ok result)
    /\ ok_status status = true
    /\ get result "embedding" = Ok embedding
    /\ truthy embedding = true
    /\ get embedding "values" = Ok (VArr vector).

(** The world after further upstream calls. *)
Definition after_calls (w : World) (cs : list UpstreamCall) : World :=
  {| ticks := ticks w; calls := calls w ++ cs; sink := sink w |}.

(** The world after further events have reached the client. *)
Definition after_events (w : World) (es : list SinkEvent) : World :=
  {| ticks := ticks w; calls := calls w; sink := sink w ++ es |}.

Definition blank (s : string) : Prop := trim s = "".

(** A string made of white space only. *)
Definition white (s : string) : Prop :=
  Forall (fun c => is_space c = true) (list_ascii_of_string s).

(** A string that does not end with white space. *)
Fixpoint ends_solid (s : string) : bool :=
  match s with
  | EmptyString => true
  | String c EmptyString => negb (is_space c)
  | String _ rest => ends_solid rest
  end.

(** [text] is [raw] without the white space [raw] begins and ends
    with. *)
Definition stripped (raw text : string) : Prop :=
  exists lead trail,
    raw = lead +:+ text +:+ trail
    /\ white lead /\ white trail
    /\ starts_solid text = true /\ ends_solid text = true.

(** An entry of [input] that is no string, or a string of white space
    only. *)
Definition unusable_entry (entry : value) : Prop :=
  match entry with
  | VStr s => white s
  | _ => True
  end.

Definition fits (s : string) : Prop := String.length s <= maxTextLength.

(** The three ways a request supplies its texts, [prompt] being what
    [body.prompt] reads and [raw] the texts as the client wrote them. *)
Inductive supplied (body prompt : value) : list string -> Prop :=
| by_prompt (s : string) :
    prompt = VStr s -> supplied body prompt [s]
| by_input_array (raw : list string) :
    truthy prompt = false ->
    get body "input" = Ok (VArr (map VStr raw)) ->
    supplied body prompt raw
| by_input_string (s : string) :
    truthy prompt = false ->
    get body "input" = Ok (VStr s) ->
    supplied body prompt [s].


(** No response header has been written yet. *)
Definition fresh (w : World) : Prop :=
  existsb is_write_head (sink w) = false.

(** The vectors an embedding envelope carries: the array under
    [embedding], or else those of the entries of [embeddings]. *)
Definition envelope_vectors (response : value) : list value :=
  match get response "embedding" with
  | Ok (VArr vector) => [VArr vector]
  | _ =>
      match get response "embeddings" with
      | Ok (VArr objs) =>
          flat_map (fun obj => match get obj "embedding" with
                               | Ok v => [v]
                               | Throw _ => []
                               end) objs
      | _ => []
      end
  end.

(** The envelope the specification allows to be sent for [count] input
    texts: as many vectors, none of them empty, and [model] and
    [created_at] present as strings. *)
Definition well_formed_envelope (response : value) (count : nat) : Prop :=
  length (envelope_vectors response) = count
  /\ Forall (fun v => exists vector, v = VArr vector /\ vector <> [])
            (envelope_vectors response)
  /\ (exists name, get response "model" = Ok (VStr name) /\ name <> "")
  /\ (exists time, get response "created_at" = Ok (VStr time) /\ time <> "").

(** A process to run the handlers in: the registry of the README, one
    embedding model configured for a provider other than Google, and
    upstream services with fixed behaviours. *)
Module Demo.

Definition qwen_embedding : ModelConfig.t :=
  {| ModelConfig.provider := "google";
     ModelConfig.model := "text-embedding-004";
     ModelConfig.type := Some "embedding" |}.

Definition openai_embedding : ModelConfig.t :=
  {| ModelConfig.provider := "openai";
     ModelConfig.model := "text-embedding-3-small";
     ModelConfig.type := Some "embedding" |}.

Definition gpt_4o_mini : ModelConfig.t :=
  {| ModelConfig.provider := "openai";
     ModelConfig.model := "gpt-4o-mini";
     ModelConfig.type := Some "chat" |}.

Definition vector_for (n : nat) : list value := [VNum (decimal n); VNum "0.5"].

Definition embedding_body (vector : list value) : value :=
  VObj [("embedding", VObj [("values", VArr vector)])].

(** Every call is answered with a vector that names the call. *)
Definition fetch_ok (n : nat) (upstreamModel text : string) : FetchOutcome :=
  Response 200 (Ok "") (Ok (embedding_body (vector_for n))).

(** The call number [k] is answered with an internal server error. *)
Definition fetch_failing_at (k n : nat) (upstreamModel text : string)
  : FetchOutcome :=
  if (n =? k)%nat then Response 500 (Ok "backend down") (Throw "no body")
  else fetch_ok n upstreamModel text.

(** The call number [k] is answered 200 with the vector [vector]. *)
Definition fetch_vector_at (k : nat) (vector : list value)
    (n : nat) (upstreamModel text : string) : FetchOutcome :=
  if (n =? k)%nat then Response 200 (Ok "") (Ok (embedding_body vector))
  else fetch_ok n upstreamModel text.

Definition generate_hi (n : nat) (args : GenArgs.t) : Outcome value :=
  Ok (VObj [("text", VStr "hi")]).

Definition stream_of (deltas : list string) (failure : option string)
    (n : nat) (args : GenArgs.t) : Outcome StreamResult.t :=
  Ok {| StreamResult.textStream := deltas;
        StreamResult.failure := failure;
        StreamResult.reasoning := VUndefined |}.

Definition env (fetch : nat -> string -> string -> FetchOutcome)
    (streamText : nat -> GenArgs.t -> Outcome StreamResult.t) : Env :=
  {| providers := {| openai := true; google := true; openrouter := false |};
     chatModels := {[ "gpt-4o-mini" := gpt_4o_mini ]};
     embeddingModels :=
       <[ "qwen-embedding" := qwen_embedding ]>
         {[ "openai-embedding" := openai_embedding ]};
     GEMINI_API_KEY := Some "secret";
     clock := fun n => "2025-01-01T00:00:0" +:+ decimal n +:+ "Z";
     fetch := fetch;
     generateText := generate_hi;
     streamText := streamText |}.

Definition plain : Env := env fetch_ok (stream_of ["He"; "llo"] None).

Definition embeddings_request (name : string) (field : string) (v : value)
  : value :=
  VObj [("model", VStr name); (field, v)].

End Demo.

(** Texts for the limits of the validator: [n] copies of the letter a. *)
Module Limits.

Definition solid (n : nat) : string :=
  string_of_list_ascii (replicate n "a"%char).

Definition batch (count size : nat) : list string :=
  replicate count (solid size).

End Limits.

(** The failures [validateEmbeddingRequest] raises for a request that is
    malformed: a missing field, a value of the wrong type, an empty
    input, too many or too long texts, a model that is not configured or
    not configured for embeddings. *)
Inductive validation_failure : string -> Prop :=
| missing_model :
    validation_failure "Missing required field: model"
| unsupported_model (key : string) :
    validation_failure ("Embedding model " +:+ key +:+ " not supported")
| wrong_kind (key : string) :
    validation_failure ("Model " +:+ key +:+ " is not an embedding model")
| bad_prompt :
    validation_failure "Prompt must be a non-empty string"
| empty_array :
    validation_failure "Input array cannot be empty"
| item_not_a_string (index : nat) :
    validation_failure
      ("Input at index " +:+ decimal index +:+ " must be a string")
| item_empty (index : nat) :
    validation_failure
      ("Input at index " +:+ decimal index +:+ " cannot be empty")
| empty_input :
    validation_failure "Input cannot be empty"
| bad_input :
    validation_failure "Input must be a string or array of strings"
| missing_input :
    validation_failure
      ("Missing required field: either " +:+ dquote +:+ "prompt" +:+ dquote
       +:+ " or " +:+ dquote +:+ "input" +:+ dquote +:+ " must be provided")
| too_many_texts :
    validation_failure "Too many input texts. Maximum allowed: 100"
| text_too_long (index : nat) :
    validation_failure
      ("Input text at index " +:+ decimal index
       +:+ " is too long. Maximum length: 10000 characters").

(** The other ways [validateEmbeddingRequest] can fail: the provider of
    the model has no handle, or the runtime raises a TypeError on a body
    that is [null] or on a model name that cannot be made a string. *)
Inductive other_failure : string -> Prop :=
| provider_unavailable (name : string) :
    other_failure ("Provider " +:+ name +:+ " not available")
| body_is_null (name : string) :
    other_failure
      ("Cannot read properties of null (reading '" +:+ name +:+ "')")
| body_is_undefined (name : string) :
    other_failure
      ("Cannot read properties of undefined (reading '" +:+ name +:+ "')")
| name_not_printable :
    other_failure "Cannot convert object to primitive value".

(** A message the chat endpoints can prepare: not [null], its content
    absent, falsy or a string. *)
Definition well_typed (msg : value) : Prop :=
  exists content,
    get msg "content" = Ok content
    /\ (truthy content = false \/ is_string content = true).

(** The content of a message, when it is a string. *)
Definition content_of (msg : value) : option string :=
  match get msg "content" with
  | Ok (VStr s) => Some s
  | _ => None
  end.

(** A message survives when its content is a string that is not blank. *)
Definition survives (msg : value) : bool :=
  match content_of msg with
  | Some s => negb (String.eqb (trim s) "")
  | None => false
  end.

(** A surviving message as it is forwarded upstream. *)
Definition forwarded (msg : value) : Message.t :=
  {| Message.role :=
       match get msg "role" with
       | Ok (VStr role) =>
           if String.eqb role "assistant" then "assistant" else "user"
       | _ => "user"
       end;
     Message.content :=
       match content_of msg with
       | Some s => trim s
       | None => ""
       end |}.

(** The chunks written for the deltas of a stream, the first of them at
    clock reading [t]. *)
Fixpoint delta_chunks (E : Env) (modelName responseKey : string) (t : nat)
    (deltas : list string) : list value :=
  match deltas with
  | [] => []
  | delta :: rest =>
      with_content (chunk_head modelName (clock E t) false) responseKey delta
      :: delta_chunks E modelName responseKey (S t) rest
  end.

(** The NDJSON objects among the events sent to the client. *)
Definition written (events : list SinkEvent) : list value :=
  flat_map (fun e => match e with Write chunk => [chunk] | _ => [] end) events.

(** The content of a chunk, under the key of the endpoint. *)
Definition chunk_content (responseKey : string) (chunk : value)
  : Outcome value :=
  if String.eqb responseKey "message"
  then let? message := get chunk "message" in get message "content"
  else get chunk responseKey.

(* ===================================================================== *)
(** ** Loading the model registry (lines 50-122) *)
(* ===================================================================== *)

Module RawConfig.
(** An entry of [models.json], or of the built-in table, as parsed: each
    field a string, or absent. *)
Record t : Type :=
  { provider : option string; model : option string; type : option string }.
End RawConfig.

(** Truthiness of a field that is a string or [undefined]. *)
Definition field_set (field : option string) : bool := env_set field.

Module Registries.
(** [chatModels] and [embeddingModels]. *)
Record t : Type :=
  { chat : gmap string ModelConfig.t;
    embedding : gmap string ModelConfig.t }.
End Registries.

(** The body of the loop of lines 74-114 for one entry of
    [Object.entries(models)], named otherwise than [__proto__]. *)
Definition load_entry (P : Providers) (loaded : Registries.t)
    (entry : string * RawConfig.t) : Registries.t :=
  let '(name, config) := entry in
  match RawConfig.provider config, RawConfig.model config with
  | Some provider, Some upstream =>
      if negb (field_set (Some provider)) || negb (field_set (Some upstream))
      then loaded
      else if negb (has_provider P provider) then loaded
      else
        let kept :=
          {| ModelConfig.provider := provider;
             ModelConfig.model := upstream;
             ModelConfig.type := RawConfig.type config |} in
        let modelType :=
          if field_set (RawConfig.type config)
          then default "" (RawConfig.type config) else "chat" in
        if String.eqb modelType "embedding" then
          {| Registries.chat := Registries.chat loaded;
             Registries.embedding :=
               <[ name := kept ]> (Registries.embedding loaded) |}
        else if String.eqb modelType "chat" then
          {| Registries.chat := <[ name := kept ]> (Registries.chat loaded);
             Registries.embedding := Registries.embedding loaded |}
        else loaded
  | _, _ => loaded
  end.

Definition loadModels (P : Providers) (models : list (string * RawConfig.t))
  : Registries.t :=
  fold_left (load_entry P) models
            {| Registries.chat := ∅; Registries.embedding := ∅ |}.

(** The built-in table of lines 57-66. *)
Definition builtin_models : list (string * RawConfig.t) :=
  let entry name provider upstream :=
    (name, {| RawConfig.provider := Some provider;
              RawConfig.model := Some upstream;
              RawConfig.type := None |}) in
  [ entry "gpt-4o-mini" "openai" "gpt-4o-mini";
    entry "gpt-4.1-mini" "openai" "gpt-4.1-mini";
    entry "gpt-4.1-nano" "openai" "gpt-4.1-nano";
    entry "gemini-2.5-flash" "google" "gemini-2.5-flash";
    entry "gemini-2.5-flash-lite" "google" "gemini-2.5-flash-lite";
    entry "deepseek-r1" "openrouter" "deepseek/deepseek-r1-0528:free" ].

(** A process whose registries are the loaded ones. *)
Definition loaded_in (E : Env) (models : list (string * RawConfig.t)) : Prop :=
  chatModels E = Registries.chat (loadModels (providers E) models)
  /\ embeddingModels E = Registries.embedding (loadModels (providers E) models).

(* ===================================================================== *)
(** ** The routes and the server (lines 680-800) *)
(* ===================================================================== *)

Module Listing.
(** [Object.entries(chatModels)] and [Object.entries(embeddingModels)], in
    the order the runtime enumerates them. *)
Record t : Type :=
  { chat : list (string * ModelConfig.t);
    embedding : list (string * ModelConfig.t) }.
End Listing.

(** [l] enumerates the own entries of [registry], each once. *)
Definition enumerates (registry : gmap string ModelConfig.t)
    (l : list (string * ModelConfig.t)) : Prop :=
  NoDup (map fst l)
  /\ forall name config, In (name, config) l <-> registry !! name = Some config.

(** A character that [/[^a-zA-Z0-9]/] does not match. *)
Definition alphanumeric (c : ascii) : bool :=
  let n := N_of_ascii c in
  ((48 <=? n)%N && (n <=? 57)%N)
  || ((65 <=? n)%N && (n <=? 90)%N)
  || ((97 <=? n)%N && (n <=? 122)%N).

(** [name.replace(/[^a-zA-Z0-9]/g, '')]. *)
Fixpoint strip (name : string) : string :=
  match name with
  | EmptyString => EmptyString
  | String c rest =>
      if alphanumeric c then String c (strip rest) else strip rest
  end.

(** The object pushed for one model (lines 688-700 and 705-717). *)
Definition tag (name modified_at size family parameter_size : string)
  : value :=
  VObj [ ("name", VStr name);
         ("model", VStr name);
         ("modified_at", VStr modified_at);
         ("size", VNum size);
         ("digest", VStr ("sha256:" +:+ strip name));
         ("details",
          VObj [ ("family", VStr family);
                 ("format", VStr "gguf");
                 ("parameter_size", VStr parameter_size);
                 ("quantization_level", VStr "Q4_K_M") ]) ].

(** One [forEach] of the handler of [GET /api/tags]. *)
Fixpoint tags_of (E : Env) (size family parameter_size : string)
    (entries : list (string * ModelConfig.t)) : M (list value) :=
  match entries with
  | [] => ret []
  | (name, _) :: rest =>
      modified_at <- now E ;;
      others <- tags_of E size family parameter_size rest ;;
      ret (tag name modified_at size family parameter_size :: others)
  end.

Definition get_api_tags (E : Env) (L : Listing.t) : M unit :=
  chat <- tags_of E "1000000000" "chat" "7B" (Listing.chat L) ;;
  embedding <-
    tags_of E "500000000" "embedding" "4B" (Listing.embedding L) ;;
  sendJSON (VObj [("models", VArr (chat ++ embedding))]) 200.

Definition get_api_version : M unit :=
  sendJSON (VObj [("version", VStr "1.0.1e")]) 200.

(** [response.end(text)] with no header written before: the text is sent
    as it is. *)
Definition get_root : M unit :=
  emit (EndWith (Some (VStr "Ollama is running in proxy mode."))).

Module Request.
(** An incoming request; [body] is what [getBody] resolves to, the parsed
    JSON text, or [{}] when the request has no body. *)
Record t : Type := { method : string; url : string; body : value }.
End Request.

(** [url.split('?')[0]]. *)
Fixpoint before_query (url : string) : string :=
  match url with
  | EmptyString => EmptyString
  | String c rest =>
      if Ascii.eqb c "?" then EmptyString else String c (before_query rest)
  end.

Definition routeKey (request : Request.t) : string :=
  Request.method request +:+ " " +:+ before_query (Request.url request).

(** [routes[routeKey]]: a route key holds a space, so that no name of
    [Object.prototype] is one. *)
Definition routes (E : Env) (L : Listing.t) (key : string)
  : option (value -> M unit) :=
  if String.eqb key "GET /" then Some (fun _ => get_root)
  else if String.eqb key "GET /api/version" then Some (fun _ => get_api_version)
  else if String.eqb key "GET /api/tags" then Some (fun _ => get_api_tags E L)
  else if String.eqb key "POST /api/chat" then Some (post_api_chat E)
  else if String.eqb key "POST /api/generate" then Some (post_api_generate E)
  else if String.eqb key "POST /api/embeddings"
  then Some (post_api_embeddings E)
  else None.

(** The request listener of lines 771-800. The preflight answer has no
    content type. *)
Definition ollamaProxyServer (E : Env) (L : Listing.t) (request : Request.t)
  : M unit :=
  if String.eqb (Request.method request) "OPTIONS" then
    emit (WriteHead 200 "") ;;; emit (EndWith None)
  else
    try_catch
      (match routes E L (routeKey request) with
       | Some handler => handler (Request.body request)
       | None => sendJSON (error_body "Not found") 404
       end)
      (fun error =>
         sent <- headersSent ;;
         if negb sent then sendJSON (error_body "Internal server error") 500
         else ret tt).

(** The response is complete and well formed: at most one header, written
    first, then NDJSON lines only, then the end of the response, once. *)
Definition answered (w w' : World) : Prop :=
  exists head chunks last,
    sink w' = sink w ++ head ++ map Write chunks ++ [EndWith last]
    /\ (head = [] \/ exists status contentType,
                       head = [WriteHead status contentType]).

(** The six routes of lines 680-768, as method and path. *)
Definition route_table : list (string * string) :=
  [ ("GET", "/"); ("GET", "/api/version"); ("GET", "/api/tags");
    ("POST", "/api/chat"); ("POST", "/api/generate");
    ("POST", "/api/embeddings") ].

(** An HTTP method is a token: it holds no space. *)
Definition token (method : string) : Prop :=
  ~ In " "%char (list_ascii_of_string method).

(** [tag.details.family]. *)
Definition family_of (listed : value) : Outcome value :=
  let? details := get listed "details" in get details "family".

(** The kind an entry is loaded as: its [type], or 'chat' without one. *)
Definition kind_of (config : RawConfig.t) : string :=
  if field_set (RawConfig.type config)
  then default "" (RawConfig.type config) else "chat".

(** [kept] is the registry entry made of the raw entry [config], which
    names a provider with a handle and an upstream model. *)
Definition usable (P : Providers) (config : RawConfig.t)
    (kept : ModelConfig.t) : Prop :=
  RawConfig.provider config = Some (ModelConfig.provider kept)
  /\ ModelConfig.provider kept <> ""
  /\ RawConfig.model config = Some (ModelConfig.model kept)
  /\ ModelConfig.model kept <> ""
  /\ has_provider P (ModelConfig.provider kept) = true
  /\ ModelConfig.type kept = RawConfig.type config.

(** The text of an upstream failure holds one of the markers of a bad
    request (lines 258-264). *)
Definition marks_bad_request (message : string) : Prop :=
  includes message "not supported" = true
  \/ includes message "not an embedding model" = true
  \/ includes message "Missing required field" = true
  \/ includes message "must be" = true
  \/ includes message "cannot be empty" = true
  \/ includes message "Too many" = true
  \/ includes message "too long" = true.

(** [entries] is [Object.entries] of a parsed JSON object with no key
    named [__proto__]: every key once. *)
Definition object_entries {A} (entries : list (string * A)) : Prop :=
  NoDup (map fst entries) /\ ~ In "__proto__" (map fst entries).

(** The process [E] started with [models] as its configuration: the
    registries are the loaded ones. *)
Definition with_models (E : Env) (models : list (string * RawConfig.t))
  : Env :=
  {| providers := providers E;
     chatModels := Registries.chat (loadModels (providers E) models);
     embeddingModels :=
       Registries.embedding (loadModels (providers E) models);
     GEMINI_API_KEY := GEMINI_API_KEY E;
     clock := clock E;
     fetch := fetch E;
     generateText := generateText E;
     streamText := streamText E |}.

Module Sample.

(** The example [models.json] of the README. *)
Definition models_json : list (string * RawConfig.t) :=
  let entry name provider upstream type :=
    (name, {| RawConfig.provider := Some provider;
              RawConfig.model := Some upstream;
              RawConfig.type := Some type |}) in
  [ entry "my-custom-gpt" "openai" "gpt-4o-mini" "chat";
    entry "my-gemini-pro" "google" "gemini-pro" "chat";
    entry "my-openrouter-model" "openrouter"
          "mistralai/mistral-7b-instruct-v0.2" "chat";
    entry "qwen-embedding" "google" "text-embedding-004" "embedding";
    entry "my-embedding" "google" "text-embedding-001" "embedding" ].

(** Keys for OpenAI and Google, none for OpenRouter. *)
Definition env : Env := with_models Demo.plain models_json.

(** No [models.json]: the built-in table. *)
Definition builtin : Env := with_models Demo.plain builtin_models.

(** The call number [k] is refused with [status] and the text [data]. *)
Definition fetch_refusing (k status : nat) (data : string)
    (n : nat) (upstreamModel text : string) : FetchOutcome :=
  if (n =? k)%nat then Response status (Ok data) (Throw "no body")
  else Demo.fetch_ok n upstreamModel text.

(** The call number [k] is answered with an empty vector. *)
Definition fetch_empty_at (k : nat) (n : nat) (upstreamModel text : string)
  : FetchOutcome :=
  if (n =? k)%nat then Response 200 (Ok "") (Ok (Demo.embedding_body []))
  else Demo.fetch_ok n upstreamModel text.

(** Every call of [generateText] fails with [message]. *)
Definition failing_chat (message : string) : Env :=
  {| providers := providers Demo.plain;
     chatModels := chatModels Demo.plain;
     embeddingModels := embeddingModels Demo.plain;
     GEMINI_API_KEY := GEMINI_API_KEY Demo.plain;
     clock := clock Demo.plain;
     fetch := fetch Demo.plain;
     generateText := fun _ _ => Throw message;
     streamText := streamText Demo.plain |}.

(** A chat request with one message of the user. *)
Definition chat_request (name : string) (content : string) (stream : bool)
  : value :=
  VObj [ ("model", VStr name);
         ("messages",
          VArr [VObj [("role", VStr "user"); ("content", VStr content)]]);
         ("stream", VBool stream) ].

Definition user_says (content : string) : list Message.t :=
  [{| Message.role := "user"; Message.content := content |}].

(** A batch request for the texts [texts], as the validator returns it. *)
Definition batch_of (texts : list string) : EmbeddingRequest.t :=
  {| EmbeddingRequest.modelConfig := Demo.qwen_embedding;
     EmbeddingRequest.inputTexts := texts;
     EmbeddingRequest.isSingleText := false |}.

End Sample.

(** The envelope [formatEmbeddingResponse] makes of the vectors [vs]. *)
Definition envelope (single : bool) (vs : list value) (name : value)
    (created_at : string) : value :=
  if single then
    VObj [ ("embedding", nth 0 vs VUndefined);
           ("model", name);
           ("created_at", VStr created_at) ]
  else
    VObj [ ("embeddings",
            VArr (map (fun embedding => VObj [("embedding", embedding)]) vs));
           ("model", name);
           ("created_at", VStr created_at) ].

(** The world once every text of [request] has been sent upstream and the
    envelope has been stamped. *)
Definition embedded (w : World) (request : EmbeddingRequest.t) : World :=
  {| ticks := S (ticks w);
     calls := calls w ++
              map (EmbedContent
                     (ModelConfig.model (EmbeddingRequest.modelConfig request)))
                  (EmbeddingRequest.inputTexts request);
     sink := sink w |}.

(** One answer of the endpoint: a status line and a JSON body. *)
Definition answer (status : nat) (data : value) : list SinkEvent :=
  [WriteHead status "application/json"; EndWith (Some data)].

(** The text holds none of the letters o, r, u and A. *)
Definition plain_text (message : string) : Prop :=
  Forall (fun c => c <> "o"%char /\ c <> "r"%char /\ c <> "u"%char
                   /\ c <> "A"%char)
         (list_ascii_of_string message).

Definition is_digit (c : ascii) : bool :=
  let n := N_of_ascii c in (48 <=? n)%N && (n <=? 57)%N.

(** Start-up (lines 23-29): the handle [providers.google] is made exactly
    when [GEMINI_API_KEY] is set. *)
Definition started (E : Env) : Prop :=
  google (providers E) = env_set (GEMINI_API_KEY E).

(** The process as the next request finds it: the clock has advanced and
    the upstream calls were made, the response object is a new one. *)
Definition next_request (w : World) : World :=
  {| ticks := ticks w; calls := calls w; sink := [] |}.
(* ===================================================================== *)
(** ** Strings: substring search and trimming *)
(* ===================================================================== *)

Section Includes.

Lemma append_nil (s : string) : "" +:+ s = s.
Proof. reflexivity. Qed.

Lemma append_cons (c : ascii) (s rest : string) :
  String c s +:+ rest = String c (s +:+ rest).
Proof. reflexivity. Qed.

Lemma prefix_append (sub rest : string) :
  String.prefix sub (sub +:+ rest) = true.
Proof.
  induction sub as [|c sub IH].
  - rewrite append_nil. now destruct rest.
  - rewrite append_cons. simpl.
    destruct (Ascii.ascii_dec c c); [apply IH | congruence].
Qed.

Lemma prefix_append_l (sub s rest : string) :
  String.prefix sub s = true -> String.prefix sub (s +:+ rest) = true.
Proof.
  revert s; induction sub as [|c sub IH]; intros [|d s];
    rewrite ?append_nil, ?append_cons; simpl; try easy.
  - now destruct rest.
  - destruct (Ascii.ascii_dec c d); [apply IH | easy].
Qed.

Lemma includes_prefix (s sub : string) :
  String.prefix sub s = true -> includes s sub = true.
Proof. intros H. destruct s; cbn [includes]; rewrite H; reflexivity. Qed.

Lemma includes_append_r (before s sub : string) :
  includes s sub = true -> includes (before +:+ s) sub = true.
Proof.
  intros H. induction before as [|c before IH];
    rewrite ?append_nil, ?append_cons; cbn [includes]; [exact H|].
  rewrite IH. apply orb_true_r.
Qed.

Lemma includes_append_l (s after sub : string) :
  includes s sub = true -> includes (s +:+ after) sub = true.
Proof.
  induction s as [|c s IH]; rewrite ?append_nil, ?append_cons;
    cbn [includes].
  - rewrite orb_false_r. intros H.
    apply includes_prefix. now apply (prefix_append_l sub "" after).
  - intros H. apply orb_true_iff in H as [H|H].
    + apply (prefix_append_l _ _ after) in H. rewrite append_cons in H.
      rewrite H. reflexivity.
    + rewrite (IH H). apply orb_true_r.
Qed.

Lemma includes_middle (before sub after : string) :
  includes (before +:+ sub +:+ after) sub = true.
Proof.
  apply includes_append_r, includes_prefix, prefix_append.
Qed.

Lemma chars_append (a b : string) :
  list_ascii_of_string (a +:+ b) =
  list_ascii_of_string a ++ list_ascii_of_string b.
Proof.
  induction a as [|c a IH]; rewrite ?append_nil, ?append_cons; cbn;
    [reflexivity | now rewrite IH].
Qed.

End Includes.

Section Trim.

Lemma trimStart_starts_solid (s : string) : starts_solid (trimStart s) = true.
Proof.
  induction s as [|c s IH]; simpl; [reflexivity|].
  destruct (is_space c) eqn:Hc; [exact IH | simpl; now rewrite Hc].
Qed.

Lemma trimStart_solid (s : string) : starts_solid s = true -> trimStart s = s.
Proof.
  destruct s as [|c s]; simpl; [reflexivity|].
  now destruct (is_space c).
Qed.

Lemma trimEnd_starts_solid (s : string) :
  starts_solid s = true -> starts_solid (trimEnd s) = true.
Proof.
  destruct s as [|c s]; simpl; [reflexivity|].
  destruct (is_space c) eqn:Hc; simpl; [discriminate|].
  now rewrite Hc.
Qed.

Lemma trimEnd_idempotent (s : string) : trimEnd (trimEnd s) = trimEnd s.
Proof.
  induction s as [|c s IH]; simpl; [reflexivity|].
  destruct (is_space c && String.eqb (trimEnd s) "") eqn:H; simpl.
  - reflexivity.
  - rewrite IH, H. reflexivity.
Qed.

Lemma trim_idempotent (s : string) : trim (trim s) = trim s.
Proof.
  unfold trim.
  rewrite (trimStart_solid (trimEnd (trimStart s))).
  - apply trimEnd_idempotent.
  - apply trimEnd_starts_solid, trimStart_starts_solid.
Qed.

(** A string without white space is left as it is. *)
Lemma trim_solid (s : string) :
  forallb (fun c => negb (is_space c)) (list_ascii_of_string s) = true ->
  trim s = s.
Proof.
  intros H. unfold trim.
  assert (Hs : trimStart s = s).
  { destruct s as [|c s]; simpl in *; [reflexivity|].
    apply andb_true_iff in H as [Hc _].
    now destruct (is_space c). }
  rewrite Hs. clear Hs.
  induction s as [|c s IH]; simpl in *; [reflexivity|].
  apply andb_true_iff in H as [Hc H].
  destruct (is_space c); [discriminate|]. simpl.
  now rewrite IH.
Qed.

Lemma white_nil : white "".
Proof. constructor. Qed.

Lemma white_cons (c : ascii) (s : string) :
  is_space c = true -> white s -> white (String c s).
Proof. intros Hc Hs. now constructor. Qed.

Lemma white_inv (c : ascii) (s : string) :
  white (String c s) -> is_space c = true /\ white s.
Proof. intros H. inversion H; subst. now split. Qed.

Lemma trimStart_white (s : string) : white s -> trimStart s = "".
Proof.
  induction s as [|c s IH]; intros H; [reflexivity|].
  apply white_inv in H as [Hc Hs]. cbn [trimStart]. rewrite Hc. now apply IH.
Qed.

Lemma trimStart_split (s : string) :
  exists lead, s = lead +:+ trimStart s /\ white lead.
Proof.
  induction s as [|c s (lead & IH & Hlead)].
  - exists "". split; [reflexivity | apply white_nil].
  - cbn [trimStart]. destruct (is_space c) eqn:Hc.
    + exists (String c lead). rewrite append_cons, <- IH.
      split; [reflexivity | now apply white_cons].
    + exists "". split; [reflexivity | apply white_nil].
Qed.

Lemma trimEnd_split (s : string) :
  exists trail, s = trimEnd s +:+ trail /\ white trail.
Proof.
  induction s as [|c s (trail & IH & Htrail)].
  - exists "". split; [reflexivity | apply white_nil].
  - cbn [trimEnd].
    destruct (is_space c) eqn:Hc; cbn [andb].
    + destruct (String.eqb_spec (trimEnd s) "") as [Hempty|Hsome].
      * exists (String c s). rewrite append_nil. split; [reflexivity|].
        apply white_cons; [exact Hc|]. rewrite IH, Hempty, append_nil.
        exact Htrail.
      * exists trail. rewrite append_cons, <- IH. now split.
    + exists trail. rewrite append_cons, <- IH. now split.
Qed.

Lemma trimEnd_ends_solid (s : string) : ends_solid (trimEnd s) = true.
Proof.
  induction s as [|c s IH]; [reflexivity|]. cbn [trimEnd].
  destruct (is_space c) eqn:Hc; cbn [andb].
  - destruct (String.eqb_spec (trimEnd s) "") as [Hempty|Hsome];
      [reflexivity|].
    cbn [ends_solid]. destruct (trimEnd s); [contradiction | exact IH].
  - cbn [ends_solid]. destruct (trimEnd s); [now rewrite Hc | exact IH].
Qed.

Lemma trimEnd_white (s : string) : white s -> trimEnd s = "".
Proof.
  induction s as [|c s IH]; intros H; [reflexivity|].
  apply white_inv in H as [Hc Hs]. cbn [trimEnd].
  now rewrite Hc, (IH Hs).
Qed.

Lemma trimStart_lead (lead s : string) :
  white lead -> starts_solid s = true -> s <> "" ->
  trimStart (lead +:+ s) = s.
Proof.
  induction lead as [|c lead IH]; intros Hlead Hs Hne.
  - rewrite append_nil. now apply trimStart_solid.
  - apply white_inv in Hlead as [Hc Hlead]. rewrite append_cons.
    cbn [trimStart]. rewrite Hc. now apply IH.
Qed.

Lemma trimEnd_trail (s trail : string) :
  white trail -> ends_solid s = true -> trimEnd (s +:+ trail) = s.
Proof.
  intros Htrail. induction s as [|c s IH]; intros Hs.
  - rewrite append_nil. now apply trimEnd_white.
  - rewrite append_cons. cbn [trimEnd]. destruct s as [|d s].
    + rewrite append_nil, (trimEnd_white trail Htrail).
      cbn [ends_solid] in Hs. apply negb_true_iff in Hs. now rewrite Hs.
    + cbn [ends_solid] in Hs. rewrite (IH Hs).
      now rewrite andb_false_r.
Qed.

(** Trimming is stripping, and nothing else is. *)
Lemma trim_stripped (s : string) : stripped s (trim s).
Proof.
  destruct (trimStart_split s) as (lead & Hs & Hlead).
  destruct (trimEnd_split (trimStart s)) as (trail & Ht & Htrail).
  exists lead, trail. unfold trim. split; [now rewrite <- Ht|].
  split; [exact Hlead|]. split; [exact Htrail|].
  split; [apply trimEnd_starts_solid, trimStart_starts_solid|].
  apply trimEnd_ends_solid.
Qed.

Lemma stripped_trim (s text : string) : stripped s text -> text = trim s.
Proof.
  intros (lead & trail & -> & Hlead & Htrail & Hstart & Hend).
  unfold trim. destruct text as [|c text].
  - rewrite append_nil.
    assert (Hwhite : white (lead +:+ trail)).
    { unfold white. rewrite (chars_append lead trail).
      apply Forall_app. now split. }
    now rewrite (trimStart_white _ Hwhite).
  - rewrite trimStart_lead; [| exact Hlead | | rewrite append_cons; discriminate].
    + symmetry. now apply trimEnd_trail.
    + rewrite append_cons. exact Hstart.
Qed.

Lemma stripped_all (raw texts : list string) :
  Forall2 stripped raw texts <-> texts = map trim raw.
Proof.
  split.
  - induction 1 as [|s text raw texts Hs _ IH]; [reflexivity|].
    cbn [map]. now rewrite (stripped_trim s text Hs), IH.
  - intros ->. induction raw as [|s raw IH]; cbn [map]; constructor;
      [apply trim_stripped | exact IH].
Qed.

End Trim.

(* ===================================================================== *)
(** ** Running computations *)
(* ===================================================================== *)

Section Running.

Context {A B : Type}.

Lemma bind_ok (m : M A) (k : A -> M B) w a w1 :
  m w = (Ok a, w1) -> bind m k w = k a w1.
Proof. intros H. unfold bind. now rewrite H. Qed.

Lemma bind_throw (m : M A) (k : A -> M B) w e w1 :
  m w = (Throw e, w1) -> bind m k w = (Throw e, w1).
Proof. intros H. unfold bind. now rewrite H. Qed.

Lemma bind_lift (o : Outcome A) (k : A -> M B) w :
  bind (lift o) k w =
  match o with Ok a => k a w | Throw e => (Throw e, w) end.
Proof. unfold bind, lift. now destruct o. Qed.

Lemma rethrow (m : M A) w : try_catch m (fun error => throw error) w = m w.
Proof. unfold try_catch, throw. now destruct (m w) as [[a|e] w1]. Qed.

Lemma try_catch_ok (m : M A) (h : string -> M A) w a w1 :
  m w = (Ok a, w1) -> try_catch m h w = (Ok a, w1).
Proof. intros H. unfold try_catch. now rewrite H. Qed.

Lemma try_catch_throw (m : M A) (h : string -> M A) w e w1 :
  m w = (Throw e, w1) -> try_catch m h w = h e w1.
Proof. intros H. unfold try_catch. now rewrite H. Qed.

End Running.

Section Silent.

Context {A B : Type}.

Lemma silent_ret (a : A) : silent (ret a).
Proof. now intros w. Qed.

Lemma silent_throw (e : string) : silent (@throw A e).
Proof. now intros w. Qed.

Lemma silent_lift (o : Outcome A) : silent (lift o).
Proof. now intros w. Qed.

Lemma silent_bind (m : M A) (k : A -> M B) :
  silent m -> (forall a, silent (k a)) -> silent (bind m k).
Proof.
  intros Hm Hk w. unfold bind. specialize (Hm w).
  destruct (m w) as [[a|e] w1]; simpl in *; [|exact Hm].
  now rewrite Hk.
Qed.

Lemma silent_try_catch (m : M A) (h : string -> M A) :
  silent m -> (forall e, silent (h e)) -> silent (try_catch m h).
Proof.
  intros Hm Hh w. unfold try_catch. specialize (Hm w).
  destruct (m w) as [[a|e] w1]; simpl in *; [exact Hm|].
  now rewrite Hh.
Qed.

End Silent.

Lemma silent_now (E : Env) : silent (now E).
Proof. now intros w. Qed.

Lemma silent_record_call (c : UpstreamCall) : silent (record_call c).
Proof. now intros w. Qed.

Lemma silent_if {A} (b : bool) (m1 m2 : M A) :
  silent m1 -> silent m2 -> silent (if b then m1 else m2).
Proof. now destruct b. Qed.

Create HintDb silent.
#[local] Hint Resolve silent_ret silent_throw silent_lift silent_now
  silent_record_call : silent.
#[local] Hint Extern 2 (silent (bind _ _)) =>
  apply silent_bind; [|intros ?] : silent.
#[local] Hint Extern 2 (silent (try_catch _ _)) =>
  apply silent_try_catch; [|intros ?] : silent.
#[local] Hint Extern 3 (silent (if _ then _ else _)) =>
  apply silent_if : silent.

Lemma silent_embed_loop E modelConfig texts :
  forall i embeddings, silent (embed_loop E modelConfig i texts embeddings).
Proof.
  induction texts as [|text rest IH]; intros i embeddings; simpl.
  - auto with silent.
  - apply silent_bind; [|intros values; apply IH].
    unfold embed_one. auto 10 with silent.
Qed.

Lemma silent_generateEmbeddings E modelConfig inputTexts :
  silent (generateEmbeddings E modelConfig inputTexts).
Proof.
  unfold generateEmbeddings.
  pose proof (silent_embed_loop E modelConfig inputTexts).
  auto 10 with silent.
Qed.

Lemma silent_generateResponse E modelConfig messages options :
  silent (generateResponse E modelConfig messages options).
Proof. unfold generateResponse. auto 20 with silent. Qed.

(* ===================================================================== *)
(** ** The embedding orchestrator *)
(* ===================================================================== *)

Lemma after_calls_nil w : after_calls w [] = w.
Proof. destruct w. unfold after_calls. simpl. now rewrite app_nil_r. Qed.

Lemma after_calls_app w cs ds :
  after_calls (after_calls w cs) ds = after_calls w (cs ++ ds).
Proof. unfold after_calls. simpl. now rewrite app_assoc. Qed.

Section Orchestrator.

Variable E : Env.
Variable modelConfig : ModelConfig.t.

Let upstreamModel := ModelConfig.model modelConfig.

Lemma answers_with_vector answer vector i :
  answers_with answer vector -> vector_of_answer i answer = Ok (VArr vector).
Proof.
  intros (status & body & result & embedding & -> & Hs & Hr & He & Hv).
  unfold vector_of_answer. rewrite Hs. simpl.
  rewrite Hr. simpl. rewrite He. simpl. rewrite Hv. reflexivity.
Qed.

Lemma vector_of_answer_array answer i v :
  vector_of_answer i answer = Ok v -> exists vector, v = VArr vector.
Proof.
  unfold vector_of_answer. destruct answer as [m|status body json]; [easy|].
  destruct (negb (ok_status status)).
  - destruct body; simpl; [|easy].
    now repeat match goal with |- context [if ?b then _ else _] =>
                                 destruct b end.
  - destruct json as [result|]; simpl; [|easy].
    destruct (get result "embedding") as [embedding|]; simpl; [|easy].
    destruct (truthy embedding); simpl; [|easy].
    destruct (get embedding "values") as [values|]; simpl; [|easy].
    destruct (truthy values); simpl; [|easy].
    destruct values; simpl; try easy.
    intros [= <-]. eauto.
Qed.

Lemma embed_one_run i text w :
  embed_one E modelConfig i text w =
  (vector_of_answer i (fetch E (length (calls w)) upstreamModel text),
   after_calls w [EmbedContent upstreamModel text]).
Proof. reflexivity. Qed.

(** The loop over a batch whose first texts all get a vector: it issues
    one call for each of them, in order, and goes on with the rest. *)
Lemma embed_loop_prefix (before : list string) :
  forall (vs : list value) i rest embeddings w,
    length vs = length before ->
    (forall j text, before !! j = Some text ->
       exists v, vs !! j = Some v /\
         vector_of_answer (i + j)
           (fetch E (length (calls w) + j) upstreamModel text) = Ok v) ->
    embed_loop E modelConfig i (before ++ rest) embeddings w =
    embed_loop E modelConfig (i + length before) rest (embeddings ++ vs)
      (after_calls w (map (EmbedContent upstreamModel) before)).
Proof.
  induction before as [|text before IH]; intros vs i rest embeddings w Hlen H.
  - destruct vs; [|discriminate]. simpl.
    now rewrite after_calls_nil, app_nil_r, Nat.add_0_r.
  - destruct vs as [|v vs]; [discriminate|].
    destruct (H 0 text eq_refl) as (v0 & [= <-] & H0).
    rewrite !Nat.add_0_r in H0.
    change ((text :: before) ++ rest) with (text :: (before ++ rest)).
    cbn [embed_loop].
    erewrite bind_ok; cycle 1.
    { rewrite rethrow, embed_one_run. fold upstreamModel. now rewrite H0. }
    rewrite (IH vs); [| simpl in Hlen; lia |].
    + cbn [length map]. rewrite after_calls_app, <- app_assoc.
      now rewrite Nat.add_succ_r.
    + intros j t Hj. destruct (H (S j) t Hj) as (v' & Hv' & Hans).
      exists v'. split; [exact Hv'|].
      unfold after_calls; cbn [calls]. rewrite length_app. cbn [length].
      now rewrite Nat.add_succ_r in Hans; rewrite <- Nat.add_assoc.
Qed.

Lemma embed_loop_ok (texts : list string) (vs : list value) i embeddings w :
  length vs = length texts ->
  (forall j text, texts !! j = Some text ->
     exists v, vs !! j = Some v /\
       vector_of_answer (i + j)
         (fetch E (length (calls w) + j) upstreamModel text) = Ok v) ->
  embed_loop E modelConfig i texts embeddings w =
  (Ok (embeddings ++ vs),
   after_calls w (map (EmbedContent upstreamModel) texts)).
Proof.
  intros Hlen H.
  rewrite <- (app_nil_r texts) at 1.
  now rewrite (embed_loop_prefix texts vs).
Qed.

Lemma embed_loop_step i text rest embeddings w :
  embed_loop E modelConfig i (text :: rest) embeddings w =
  match vector_of_answer i
          (fetch E (length (calls w)) upstreamModel text) with
  | Ok v =>
      embed_loop E modelConfig (S i) rest (embeddings ++ [v])
        (after_calls w [EmbedContent upstreamModel text])
  | Throw e => (Throw e, after_calls w [EmbedContent upstreamModel text])
  end.
Proof.
  cbn [embed_loop]. unfold bind. rewrite rethrow, embed_one_run.
  fold upstreamModel. now destruct (vector_of_answer i _).
Qed.

(** The loop over a batch whose first failing text comes after [before]:
    it stops there with that failure, one call issued for each text up
    to it and none for [rest]. *)
Lemma embed_loop_fails (before : list string) :
  forall i text rest embeddings w e,
    (forall j t, before !! j = Some t ->
       is_ok (vector_of_answer (i + j)
                (fetch E (length (calls w) + j) upstreamModel t)) = true) ->
    vector_of_answer (i + length before)
      (fetch E (length (calls w) + length before) upstreamModel text) = Throw e ->
    embed_loop E modelConfig i (before ++ text :: rest) embeddings w =
    (Throw e,
     after_calls w (map (EmbedContent upstreamModel) (before ++ [text]))).
Proof.
  induction before as [|t before IH]; intros i text rest embeddings w e H Hfail.
  - cbn [app length] in *. rewrite !Nat.add_0_r in Hfail.
    now rewrite embed_loop_step, Hfail.
  - change ((t :: before) ++ text :: rest)
      with (t :: (before ++ text :: rest)).
    rewrite embed_loop_step.
    pose proof (H 0 t eq_refl) as H0. rewrite !Nat.add_0_r in H0.
    destruct (vector_of_answer i _) as [v|]; [|discriminate].
    rewrite (IH (S i) text rest _ _ e).
    + now rewrite after_calls_app.
    + intros j t' Hj. specialize (H (S j) t' Hj).
      unfold after_calls; cbn [calls]. rewrite length_app. cbn [length].
      now rewrite Nat.add_succ_r in H; rewrite <- Nat.add_assoc.
    + unfold after_calls; cbn [calls]. rewrite length_app. cbn [length].
      cbn [length] in Hfail.
      replace (S i + length before) with (i + S (length before)) by lia.
      replace (length (calls w) + 1 + length before)
        with (length (calls w) + S (length before)) by lia.
      exact Hfail.
Qed.

(** Whatever the earlier texts get, the loop does not go past a text
    whose call fails. *)
Lemma embed_loop_stops (before : list string) :
  forall i text rest embeddings w e,
    vector_of_answer (i + length before)
      (fetch E (length (calls w) + length before) upstreamModel text) = Throw e ->
    exists e' n,
      n <= S (length before)
      /\ embed_loop E modelConfig i (before ++ text :: rest) embeddings w =
         (Throw e',
          after_calls w (map (EmbedContent upstreamModel)
                             (take n (before ++ text :: rest)))).
Proof.
  induction before as [|t before IH]; intros i text rest embeddings w e Hfail.
  - cbn [app length] in *. rewrite !Nat.add_0_r in Hfail.
    exists e, 1. split; [lia|]. now rewrite embed_loop_step, Hfail.
  - change ((t :: before) ++ text :: rest)
      with (t :: (before ++ text :: rest)).
    rewrite embed_loop_step.
    destruct (vector_of_answer i _) as [v|e0].
    + destruct (IH (S i) text rest (embeddings ++ [v])
                   (after_calls w [EmbedContent upstreamModel t]) e)
        as (e' & n & Hn & Hrun).
      { unfold after_calls; cbn [calls]. rewrite length_app. cbn [length].
        cbn [length] in Hfail.
        replace (S i + length before) with (i + S (length before)) by lia.
        replace (length (calls w) + 1 + length before)
          with (length (calls w) + S (length before)) by lia.
        exact Hfail. }
      exists e', (S n). split; [cbn [length]; lia|].
      rewrite Hrun, after_calls_app. reflexivity.
    + exists e0, 1. split; [cbn [length]; lia|]. reflexivity.
Qed.

(** Whatever the upstream service does, the calls issued are for an
    initial segment of the batch, in order; all of it if the loop ends
    well. *)
Lemma embed_loop_calls (texts : list string) :
  forall i embeddings w,
    exists n, n <= length texts /\
      calls (snd (embed_loop E modelConfig i texts embeddings w)) =
      calls w ++ map (EmbedContent upstreamModel) (take n texts)
      /\ (is_ok (fst (embed_loop E modelConfig i texts embeddings w)) = true
          -> n = length texts).
Proof.
  induction texts as [|text rest IH]; intros i embeddings w.
  - exists 0. simpl. now rewrite app_nil_r.
  - rewrite embed_loop_step.
    destruct (vector_of_answer i _) as [v|e].
    + destruct (IH (S i) (embeddings ++ [v])
                   (after_calls w [EmbedContent upstreamModel text]))
        as (n & Hn & Hcalls & Hok).
      exists (S n). split; [simpl; lia|]. split.
      * rewrite Hcalls. cbn [after_calls calls take map].
        now rewrite <- app_assoc.
      * intros H. simpl. f_equal. now apply Hok.
    + exists 1. split; [simpl; lia|]. split; [|easy].
      reflexivity.
Qed.

Lemma generateEmbeddings_google inputTexts w :
  ModelConfig.provider modelConfig = "google" ->
  env_set (GEMINI_API_KEY E) = true ->
  generateEmbeddings E modelConfig inputTexts w =
  match embed_loop E modelConfig 0 inputTexts [] w with
  | (Ok embeddings, w1) =>
      (Ok {| EmbeddingResult.embeddings := embeddings;
             EmbeddingResult.model := upstreamModel;
             EmbeddingResult.dimensions :=
               match embeddings with
               | [] => 0
               | first :: _ => array_length first
               end |}, w1)
  | (Throw e, w1) => (Throw e, w1)
  end.
Proof.
  intros Hp Hkey. unfold generateEmbeddings.
  rewrite rethrow, Hp, Hkey. cbn [String.eqb Ascii.eqb Bool.eqb andb negb].
  unfold bind, ret.
  now destruct (embed_loop E modelConfig 0 inputTexts [] w) as [[?|?] ?].
Qed.

Lemma generateEmbeddings_other inputTexts w :
  ModelConfig.provider modelConfig <> "google" ->
  generateEmbeddings E modelConfig inputTexts w =
  (Throw ("Only Google embedding models are currently supported, got: "
          +:+ ModelConfig.provider modelConfig), w).
Proof.
  intros Hp. unfold generateEmbeddings. rewrite rethrow.
  destruct (String.eqb_spec (ModelConfig.provider modelConfig) "google");
    [contradiction | reflexivity].
Qed.

End Orchestrator.

(* ===================================================================== *)
(** ** Validation of embedding requests *)
(* ===================================================================== *)

Section Validation.

Lemma map_input_strings (raw : list string) :
  forall index,
    Forall (fun s => ~ blank s) raw ->
    map_input index (map VStr raw) = Ok (map trim raw).
Proof.
  induction raw as [|s raw IH]; intros index H; [reflexivity|].
  inversion H as [|? ? Hs Hraw]; subst. cbn [map map_input].
  destruct (String.eqb_spec (trim s) ""); [contradiction|].
  now rewrite IH.
Qed.

Lemma map_input_inv (elems : list value) :
  forall index texts,
    map_input index elems = Ok texts ->
    exists raw, elems = map VStr raw /\ texts = map trim raw
                /\ Forall (fun s => ~ blank s) raw.
Proof.
  induction elems as [|v elems IH]; intros index texts H.
  - injection H as <-. now exists [].
  - destruct v; try discriminate. cbn [map_input] in H.
    destruct (String.eqb_spec (trim s) "") as [|Hs]; [discriminate|].
    destruct (map_input (S index) elems) as [others|] eqn:Ho;
      [|discriminate].
    injection H as <-. destruct (IH _ _ Ho) as (raw & -> & -> & Hraw).
    exists (s :: raw). repeat split. now constructor.
Qed.

(** The first element that is not a string, or is blank, makes the whole
    array fail, whatever follows it. *)
Lemma map_input_fails (elems : list value) :
  forall index,
    is_ok (map_input index elems) = false ->
    exists i e, map_input index elems = Throw e
      /\ (e = "Input at index " +:+ decimal i +:+ " must be a string"
          \/ e = "Input at index " +:+ decimal i +:+ " cannot be empty").
Proof.
  induction elems as [|v elems IH]; intros index H; [discriminate|].
  destruct v; try (exists index; eexists; split; [reflexivity|]; now left).
  cbn [map_input] in *.
  destruct (String.eqb (trim s) "").
  - exists index; eexists; split; [reflexivity|]; now right.
  - destruct (map_input (S index) elems) eqn:Ho; [discriminate|].
    destruct (IH (S index)) as (i & e & He & Hform); [now rewrite Ho|].
    rewrite Ho in He. injection He as <-.
    exists i, message. now split.
Qed.

Lemma check_lengths_ok (texts : list string) :
  forall i, check_lengths i texts = Ok tt <-> Forall fits texts.
Proof.
  induction texts as [|t texts IH]; intros i; simpl.
  - split; [constructor | reflexivity].
  - destruct (Nat.ltb_spec maxTextLength (String.length t)) as [Hlt|Hle].
    + split; [discriminate|]. intros H. inversion H; subst.
      unfold fits in *. lia.
    + rewrite IH. split; [now constructor | now inversion 1].
Qed.

Lemma check_lengths_first (before : list string) :
  forall i text rest,
    Forall fits before -> ~ fits text ->
    check_lengths i (before ++ text :: rest) =
    Throw ("Input text at index " +:+ decimal (i + length before)
           +:+ " is too long. Maximum length: 10000 characters").
Proof.
  induction before as [|t before IH]; intros i text rest Hb Ht.
  - cbn [app check_lengths length]. rewrite Nat.add_0_r.
    destruct (Nat.ltb_spec maxTextLength (String.length text)) as [_|Hle];
      [reflexivity | contradiction].
  - inversion Hb; subst. cbn [app check_lengths length].
    destruct (Nat.ltb_spec maxTextLength (String.length t)) as [Hlt|_].
    + unfold fits in *. lia.
    + rewrite IH by assumption. now rewrite Nat.add_succ_r.
Qed.

Lemma map_input_length (raw : list string) :
  length (map trim raw) = length (map VStr raw).
Proof. now rewrite !length_map. Qed.

End Validation.

Lemma input_texts_ok (body prompt : value) (texts : list string) :
  input_texts body prompt = Ok texts ->
  exists raw, supplied body prompt raw /\ texts = map trim raw
              /\ raw <> [] /\ Forall (fun s => ~ blank s) raw.
Proof.
  unfold input_texts. destruct (truthy prompt) eqn:Hp.
  - destruct prompt; try discriminate.
    destruct (String.eqb_spec (trim s) "") as [|Hs]; [discriminate|].
    intros [= <-]. exists [s]. repeat split; [now constructor | easy |].
    now repeat constructor.
  - destruct (get body "input") as [input|] eqn:Hi; [|discriminate]. simpl.
    destruct (truthy input) eqn:Ht; [|discriminate].
    destruct input; try discriminate.
    + destruct (String.eqb_spec (trim s) "") as [|Hs]; [discriminate|].
      intros [= <-]. exists [s].
      repeat split; [now apply by_input_string | easy |].
      now repeat constructor.
    + destruct elems as [|v elems]; [discriminate|].
      cbn [length Nat.eqb]. intros H.
      destruct (map_input_inv _ _ _ H) as (raw & Hraw & -> & Hb).
      exists raw. repeat split; [|now destruct raw | exact Hb].
      apply by_input_array; [exact Hp | now rewrite Hi, Hraw].
Qed.

(** What an accepted request is made of. *)
Lemma validateEmbeddingRequest_ok (E : Env) (body : value)
    (request : EmbeddingRequest.t) :
  validateEmbeddingRequest E body = Ok request ->
  exists name prompt raw,
    get body "model" = Ok name /\ truthy name = true
    /\ validateEmbeddingModel E name = Ok (EmbeddingRequest.modelConfig request)
    /\ get body "prompt" = Ok prompt
    /\ supplied body prompt raw
    /\ EmbeddingRequest.inputTexts request = map trim raw
    /\ Forall (fun s => ~ blank s) raw
    /\ 1 <= length raw <= maxTexts
    /\ Forall fits (map trim raw)
    /\ EmbeddingRequest.isSingleText request =
       (length raw =? 1)%nat && negb (is_undefined prompt).
Proof.
  unfold validateEmbeddingRequest.
  destruct (get body "model") as [name|] eqn:Hname; [|discriminate]. simpl.
  destruct (truthy name) eqn:Htruthy; [|discriminate]. simpl.
  destruct (validateEmbeddingModel E name) as [config|] eqn:Hconfig;
    [|discriminate].
  simpl.
  destruct (get body "prompt") as [prompt|] eqn:Hprompt; [|discriminate].
  simpl.
  destruct (input_texts body prompt) as [texts|] eqn:Htexts; [|discriminate].
  simpl.
  destruct (Nat.ltb_spec maxTexts (length texts)) as [|Hmax]; [discriminate|].
  destruct (check_lengths 0 texts) as [[]|] eqn:Hlen; [|discriminate]. simpl.
  intros [= <-]. simpl.
  destruct (input_texts_ok _ _ _ Htexts) as (raw & Hsup & -> & Hne & Hb).
  exists name, prompt, raw. rewrite length_map in *.
  repeat split; try assumption.
  - destruct raw; [contradiction | simpl; lia].
  - now apply (check_lengths_ok _ 0).
Qed.

(* ===================================================================== *)
(** ** The embeddings endpoint *)
(* ===================================================================== *)

Lemma sendJSON_run data status w :
  sendJSON data status w =
  (Ok tt, after_events w [WriteHead status "application/json";
                          EndWith (Some data)]).
Proof.
  unfold sendJSON, bind, emit, after_events. simpl.
  now rewrite <- app_assoc.
Qed.

Lemma categorize_status error :
  In (fst (categorize error)) [400; 401; 429; 503; 500].
Proof.
  unfold categorize.
  repeat match goal with
         | |- context [if ?b then _ else _] => destruct b
         end; simpl; tauto.
Qed.

Lemma categorize_not_success error : fst (categorize error) <> 200.
Proof.
  pose proof (categorize_status error) as H. simpl in H.
  intros Heq. rewrite Heq in H.
  repeat destruct H as [H|H]; try discriminate H. exact H.
Qed.

Lemma handleEmbeddingError_run error w :
  fresh w ->
  handleEmbeddingError error w =
  (Ok tt,
   after_events w [WriteHead (fst (categorize error)) "application/json";
                   EndWith (Some (error_body (snd (categorize error))))]).
Proof.
  intros Hfresh. unfold handleEmbeddingError.
  destruct (categorize error) as [status message].
  unfold bind at 1, headersSent. rewrite Hfresh. cbn [negb fst snd].
  apply sendJSON_run.
Qed.

Lemma handleEmbeddingError_sent error w :
  ~ fresh w -> handleEmbeddingError error w = (Ok tt, w).
Proof.
  intros Hsent. unfold handleEmbeddingError.
  destruct (categorize error) as [status message].
  unfold bind at 1, headersSent. unfold fresh in Hsent.
  now destruct (existsb is_write_head (sink w)).
Qed.

Section EmbeddingsHandler.

Variable E : Env.

Lemma post_api_embeddings_rejected body e w :
  validateEmbeddingRequest E body = Throw e ->
  post_api_embeddings E body w = handleEmbeddingError e w.
Proof.
  intros H. unfold post_api_embeddings.
  apply try_catch_throw. now rewrite bind_lift, H.
Qed.

Lemma post_api_embeddings_generation_fails body request e w w1 :
  validateEmbeddingRequest E body = Ok request ->
  generateEmbeddings E (EmbeddingRequest.modelConfig request)
                     (EmbeddingRequest.inputTexts request) w = (Throw e, w1) ->
  post_api_embeddings E body w = handleEmbeddingError e w1.
Proof.
  intros H Hgen. unfold post_api_embeddings.
  apply try_catch_throw. rewrite bind_lift, H.
  now apply bind_throw.
Qed.

(** An accepted request whose vectors were all generated: the envelope
    is shaped, validated a second time, and only then sent. *)
Lemma post_api_embeddings_generated body request name result w w1 :
  validateEmbeddingRequest E body = Ok request ->
  get body "model" = Ok name ->
  generateEmbeddings E (EmbeddingRequest.modelConfig request)
                     (EmbeddingRequest.inputTexts request) w = (Ok result, w1) ->
  exists response w2,
    formatEmbeddingResponse E result name
      (EmbeddingRequest.isSingleText request) w1 = (Ok response, w2)
    /\ sink w2 = sink w1 /\ calls w2 = calls w1
    /\ post_api_embeddings E body w =
       match validateEmbeddingResponse response
               (length (EmbeddingRequest.inputTexts request)) with
       | Ok _ => sendJSON response 200 w2
       | Throw e => handleEmbeddingError e w2
       end.
Proof.
  intros H Hname Hgen.
  destruct (formatEmbeddingResponse E result name
              (EmbeddingRequest.isSingleText request) w1)
    as [[response|e] w2] eqn:Hfmt.
  2:{ unfold formatEmbeddingResponse, bind, now in Hfmt.
      now destruct (EmbeddingRequest.isSingleText request). }
  exists response, w2. split; [reflexivity|].
  assert (Hw2 : sink w2 = sink w1 /\ calls w2 = calls w1).
  { unfold formatEmbeddingResponse, bind, now, ret in Hfmt.
    destruct (EmbeddingRequest.isSingleText request);
      injection Hfmt as _ <-; now split. }
  destruct Hw2 as [Hsink Hcalls]. repeat split; try assumption.
  unfold post_api_embeddings, try_catch.
  rewrite bind_lift, H. erewrite bind_ok by exact Hgen.
  rewrite bind_lift, Hname. erewrite bind_ok by exact Hfmt.
  rewrite bind_lift.
  destruct (validateEmbeddingResponse response _) as [b|e]; [|reflexivity].
  now rewrite sendJSON_run.
Qed.

End EmbeddingsHandler.

(** C9. For every embedding request whose model configuration names a
    provider other than 'google', [generateEmbeddings] fails with the
    message that only Google embedding models are supported, the world
    left as it was: no upstream call is issued and no vector produced.
    The endpoint then answers such a request with the error envelope
    that the classifier makes of this message, never with a success. *)
Theorem only_google_generates_embeddings
    (E : Env) (modelConfig : ModelConfig.t) (inputTexts : list string)
    (w : World) :
  ModelConfig.provider modelConfig <> "google" ->
  let refusal :=
    "Only Google embedding models are currently supported, got: "
    +:+ ModelConfig.provider modelConfig in
  generateEmbeddings E modelConfig inputTexts w = (Throw refusal, w)
  /\ fst (categorize refusal) <> 200
  /\ forall body request,
       validateEmbeddingRequest E body = Ok request ->
       EmbeddingRequest.modelConfig request = modelConfig ->
       fresh w ->
       post_api_embeddings E body w =
       (Ok tt,
        after_events w
          [WriteHead (fst (categorize refusal)) "application/json";
           EndWith (Some (error_body (snd (categorize refusal))))]).
Proof.
  intros Hp refusal. split; [now apply generateEmbeddings_other|].
  split; [apply categorize_not_success|].
  intros body request Hreq Hcfg Hfresh.
  erewrite post_api_embeddings_generation_fails; [| exact Hreq |].
  - now apply handleEmbeddingError_run.
  - rewrite Hcfg. now apply generateEmbeddings_other.
Qed.

Lemma only_google_generates_embeddings_witness :
  generateEmbeddings Demo.plain Demo.openai_embedding ["Hello world"] initial =
    (Throw "Only Google embedding models are currently supported, got: openai",
     initial)
  /\ post_api_embeddings Demo.plain
       (Demo.embeddings_request "openai-embedding" "prompt"
                                (VStr "Hello world")) initial =
     (Ok tt, after_events initial
               [WriteHead 500 "application/json";
                EndWith (Some (error_body "Internal server error"))]).
Proof.
  assert (Hp : ModelConfig.provider Demo.openai_embedding <> "google")
    by discriminate.
  destruct (only_google_generates_embeddings
              Demo.plain Demo.openai_embedding ["Hello world"] initial Hp)
    as (Hgen & _ & Hpost).
  split; [exact Hgen|].
  apply (Hpost (Demo.embeddings_request "openai-embedding" "prompt"
                                        (VStr "Hello world"))
               {| EmbeddingRequest.modelConfig := Demo.openai_embedding;
                  EmbeddingRequest.inputTexts := ["Hello world"];
                  EmbeddingRequest.isSingleText := true |});
    [vm_compute; reflexivity | reflexivity | reflexivity].
Defined.

(** What the orchestrator takes for a failed call, and what it does not:
    a network failure, an HTTP error, a body that is not JSON, an answer
    without a vector array are failures; an empty vector is not (it is
    pushed, and rejected later by the second validation). *)
Lemma upstream_failures (i : nat) (data syntax_error : string) :
  vector_of_answer i (NetworkError "fetch failed") = Throw "fetch failed"
  /\ vector_of_answer i (Response 429 (Ok data) (Throw syntax_error)) =
     Throw "Google API rate limit exceeded. Please try again later."
  /\ vector_of_answer i (Response 200 (Ok data) (Throw syntax_error)) =
     Throw syntax_error
  /\ vector_of_answer i (Response 200 (Ok data) (Ok (VObj []))) =
     Throw ("Invalid embedding response for text " +:+ decimal (i + 1)
            +:+ ": missing or invalid embedding array")
  /\ vector_of_answer i
       (Response 200 (Ok data)
          (Ok (VObj [("embedding", VObj [("values", VStr "0.1, 0.2")])]))) =
     Throw ("Invalid embedding response for text " +:+ decimal (i + 1)
            +:+ ": missing or invalid embedding array")
  /\ vector_of_answer i
       (Response 200 (Ok data)
          (Ok (VObj [("embedding", VObj [("values", VArr [])])]))) =
     Ok (VArr []).
Proof. now repeat split. Qed.

Lemma fetch_ok_answers (n : nat) (upstreamModel text : string) :
  answers_with (Demo.fetch_ok n upstreamModel text) (Demo.vector_for n).
Proof.
  exists 200, (Ok ""), (Demo.embedding_body (Demo.vector_for n)),
    (VObj [("values", VArr (Demo.vector_for n))]).
  repeat split.
Qed.

(** What the loop takes for a failure: every answer but a 2xx answer
    whose JSON body has an array under [embedding.values]. *)
Lemma vector_of_answer_fails (i : nat) (answer : FetchOutcome) :
  is_ok (vector_of_answer i answer) = false
  <-> forall vector, ~ answers_with answer vector.
Proof.
  split.
  - intros Hfail vector Hanswer.
    now rewrite (answers_with_vector answer vector i Hanswer) in Hfail.
  - intros Hnone. destruct (vector_of_answer i answer) as [v|e] eqn:Hv;
      [|reflexivity].
    exfalso. unfold vector_of_answer in Hv.
    destruct answer as [m|status body json]; [discriminate|].
    destruct (ok_status status) eqn:Hstatus; cbn [negb] in Hv.
    2:{ destruct body as [errorData|]; cbn [bindO] in Hv; [|discriminate].
        destruct (status =? 401)%nat; [discriminate|].
        destruct (status =? 429)%nat; [discriminate|].
        destruct (status =? 400)%nat; discriminate. }
    destruct json as [result|]; cbn [bindO] in Hv; [|discriminate].
    destruct (get result "embedding") as [embedding|] eqn:Hembedding;
      cbn [bindO] in Hv; [|discriminate].
    destruct (truthy embedding) eqn:Htruthy.
    2:{ cbn [bindO negb orb] in Hv. discriminate. }
    destruct (get embedding "values") as [values|] eqn:Hvalues;
      cbn [bindO] in Hv; [|discriminate].
    destruct (truthy values); cbn [negb orb] in Hv; [|discriminate].
    destruct values; cbn [is_array negb] in Hv; try discriminate.
    apply (Hnone elems).
    exists status, body, result, embedding. now repeat split.
Qed.

(** C4, amended. In a batch sent to Google, let the answer to the text
    that follows [before] be a failure as the loop takes it: anything
    but a 2xx answer whose JSON body has an array under
    [embedding.values] (a network failure, an HTTP error, a body that is
    no JSON or has no such array). Then [generateEmbeddings] fails and
    returns no list of vectors, having issued calls for an initial
    segment of the batch that does not go past the failing text. If the
    texts of [before] were answered with such an array, one call was
    issued for each text up to the failing one, none for [rest], the
    failure is that of the failing text, and the endpoint answers with
    the error envelope made of it, never with a success. A 2xx answer
    with an array, be it empty or not of numbers, is no failure for the
    loop. *)
Theorem failed_item_aborts_batch
    (E : Env) (modelConfig : ModelConfig.t)
    (before : list string) (text : string) (rest : list string)
    (w : World) :
  let upstreamModel := ModelConfig.model modelConfig in
  ModelConfig.provider modelConfig = "google" ->
  env_set (GEMINI_API_KEY E) = true ->
  (forall vector,
     ~ answers_with (fetch E (length (calls w) + length before)
                           upstreamModel text) vector) ->
  let issued n :=
    after_calls w (map (EmbedContent upstreamModel)
                       (take n (before ++ text :: rest))) in
  (exists e' n,
     n <= S (length before)
     /\ generateEmbeddings E modelConfig (before ++ text :: rest) w =
        (Throw e', issued n))
  /\ ((forall j t, before !! j = Some t ->
         exists vector,
           answers_with (fetch E (length (calls w) + j) upstreamModel t)
                        vector) ->
      exists e,
        vector_of_answer (length before)
          (fetch E (length (calls w) + length before) upstreamModel text) =
          Throw e
        /\ generateEmbeddings E modelConfig (before ++ text :: rest) w =
           (Throw e, issued (S (length before)))
        /\ fst (categorize e) <> 200
        /\ forall body request,
             validateEmbeddingRequest E body = Ok request ->
             EmbeddingRequest.modelConfig request = modelConfig ->
             EmbeddingRequest.inputTexts request = before ++ text :: rest ->
             fresh w ->
             post_api_embeddings E body w =
             (Ok tt,
              after_events (issued (S (length before)))
                [WriteHead (fst (categorize e)) "application/json";
                 EndWith (Some (error_body (snd (categorize e))))]))
  /\ (forall i answer vector,
        answers_with answer vector ->
        vector_of_answer i answer = Ok (VArr vector)).
Proof.
  intros upstreamModel Hp Hkey Hnone issued.
  apply (vector_of_answer_fails (length before)) in Hnone.
  destruct (vector_of_answer (length before)
              (fetch E (length (calls w) + length before) upstreamModel text))
    as [v|e] eqn:Hfail; [discriminate|].
  split; [|split].
  - destruct (embed_loop_stops E modelConfig before 0 text rest [] w e Hfail)
      as (e' & n & Hn & Hrun).
    exists e', n. split; [exact Hn|].
    rewrite generateEmbeddings_google by assumption. now rewrite Hrun.
  - intros Hbefore. exists e. split; [reflexivity|].
    assert (Hgen : generateEmbeddings E modelConfig (before ++ text :: rest) w
                   = (Throw e, issued (S (length before)))).
    { rewrite generateEmbeddings_google by assumption.
      rewrite (embed_loop_fails E modelConfig before 0 text rest [] w e).
      - unfold issued.
        replace (take (S (length before)) (before ++ text :: rest))
          with (before ++ [text]); [reflexivity|].
        rewrite take_app_ge by lia.
        replace (S (length before) - length before) with 1 by lia.
        reflexivity.
      - intros j t Hj. destruct (Hbefore j t Hj) as (vector & Hanswer).
        exact (f_equal is_ok (answers_with_vector _ vector (0 + j) Hanswer)).
      - exact Hfail. }
    split; [exact Hgen|]. split; [apply categorize_not_success|].
    intros body request Hreq Hcfg Htexts Hfresh.
    erewrite post_api_embeddings_generation_fails; [| exact Hreq |].
    + now apply handleEmbeddingError_run.
    + now rewrite Hcfg, Htexts.
  - intros i answer vector. apply answers_with_vector.
Qed.

Lemma failed_item_aborts_batch_witness :
  let E := Demo.env (Demo.fetch_failing_at 2) (Demo.stream_of [] None) in
  let body :=
    Demo.embeddings_request "qwen-embedding" "input"
      (VArr [VStr "Text 1"; VStr "Text 2"; VStr "Text 3"; VStr "Text 4"]) in
  let issued :=
    [EmbedContent "text-embedding-004" "Text 1";
     EmbedContent "text-embedding-004" "Text 2";
     EmbedContent "text-embedding-004" "Text 3"] in
  exists e,
    e = "Google API error (500): backend down"
    /\ generateEmbeddings E Demo.qwen_embedding
         ["Text 1"; "Text 2"; "Text 3"; "Text 4"] initial =
       (Throw e, after_calls initial issued)
    /\ post_api_embeddings E body initial =
       (Ok tt,
        after_events (after_calls initial issued)
          [WriteHead 500 "application/json";
           EndWith (Some (error_body "Internal server error"))]).
Proof.
  intros E body issued.
  destruct (failed_item_aborts_batch E Demo.qwen_embedding
              ["Text 1"; "Text 2"] "Text 3" ["Text 4"] initial)
    as (_ & Hfirst & _); [reflexivity | reflexivity | |].
  { intros vector (status & text & result & embedding & Hanswer & Hok & _).
    injection Hanswer as <- _ _. discriminate Hok. }
  destruct Hfirst as (e & Hfail & Hgen & _ & Hpost).
  { intros [|[|j]] t; simpl; intros [= <-]; eexists; apply fetch_ok_answers. }
  injection Hfail as <-.
  eexists. split; [reflexivity|]. split; [exact Hgen|].
  apply (Hpost body
           {| EmbeddingRequest.modelConfig := Demo.qwen_embedding;
              EmbeddingRequest.inputTexts :=
                ["Text 1"; "Text 2"; "Text 3"; "Text 4"];
              EmbeddingRequest.isSingleText := false |});
    [vm_compute; reflexivity | reflexivity | reflexivity | reflexivity].
Defined.

(** C4, as stated, fails for a vector that is invalid without being
    missing: when the first of three texts is answered 200 with an empty
    vector, the two later texts are still sent upstream before the
    request is turned down; when it is answered 200 with a vector that
    holds no numbers, the request is answered 200 with that vector. *)
Lemma invalid_vector_does_not_abort_batch :
  let body :=
    Demo.embeddings_request "qwen-embedding" "input"
      (VArr [VStr "Text 1"; VStr "Text 2"; VStr "Text 3"]) in
  let empty := Demo.env (Demo.fetch_vector_at 0 []) (Demo.stream_of [] None) in
  let junk :=
    Demo.env (Demo.fetch_vector_at 0 [VStr "junk"; VNull])
             (Demo.stream_of [] None) in
  post_api_embeddings empty body initial =
    (Ok tt,
     {| ticks := 1;
        calls := [EmbedContent "text-embedding-004" "Text 1";
                  EmbedContent "text-embedding-004" "Text 2";
                  EmbedContent "text-embedding-004" "Text 3"];
        sink := [WriteHead 500 "application/json";
                 EndWith (Some (error_body "Internal server error"))] |})
  /\ sink (snd (post_api_embeddings junk body initial)) =
     [WriteHead 200 "application/json";
      EndWith (Some (VObj
        [("embeddings",
          VArr [VObj [("embedding", VArr [VStr "junk"; VNull])];
                VObj [("embedding", VArr (Demo.vector_for 1))];
                VObj [("embedding", VArr (Demo.vector_for 2))]]);
         ("model", VStr "qwen-embedding");
         ("created_at", VStr "2025-01-01T00:00:00Z")]))].
Proof.
  intros body empty junk. split; vm_compute; reflexivity.
Qed.

(* ===================================================================== *)
(** ** Shaping and re-validating the envelope *)
(* ===================================================================== *)

Lemma formatEmbeddingResponse_run E result name single w :
  formatEmbeddingResponse E result name single w =
  (Ok (if single then
         VObj [ ("embedding",
                 nth 0 (EmbeddingResult.embeddings result) VUndefined);
                ("model", name);
                ("created_at", VStr (clock E (ticks w))) ]
       else
         VObj [ ("embeddings",
                 VArr (map (fun embedding => VObj [("embedding", embedding)])
                           (EmbeddingResult.embeddings result)));
                ("model", name);
                ("created_at", VStr (clock E (ticks w))) ]),
   {| ticks := S (ticks w); calls := calls w; sink := sink w |}).
Proof. unfold formatEmbeddingResponse, bind, now, ret. now destruct single. Qed.

Lemma entries_vectors (vs : list value) :
  flat_map (fun obj => match get obj "embedding" with
                       | Ok v => [v]
                       | Throw _ => []
                       end)
           (map (fun embedding => VObj [("embedding", embedding)]) vs) = vs.
Proof. induction vs as [|v vs IH]; [reflexivity|]. simpl. now rewrite IH. Qed.

Lemma envelope_vectors_batch (vs : list value) (name time : value) :
  envelope_vectors
    (VObj [ ("embeddings",
             VArr (map (fun embedding => VObj [("embedding", embedding)]) vs));
            ("model", name); ("created_at", time) ]) = vs.
Proof. unfold envelope_vectors. simpl. apply entries_vectors. Qed.

Lemma check_embeddings_sound (objs : list value) :
  forall i,
    check_embeddings i objs = Ok tt ->
    Forall (fun obj => exists vector,
              get obj "embedding" = Ok (VArr vector) /\ vector <> []) objs.
Proof.
  induction objs as [|obj objs IH]; intros i H; [constructor|].
  cbn [check_embeddings] in H.
  destruct (get obj "embedding") as [embedding|] eqn:He; [|discriminate].
  simpl in H.
  destruct embedding; cbn [is_array negb truthy] in H;
    rewrite ?orb_true_r in H; try discriminate.
  destruct elems as [|x elems]; [discriminate|]. simpl in H.
  constructor; [|now apply (IH (S i))].
  now exists (x :: elems).
Qed.

Lemma check_embeddings_entries (vectors : list (list value)) :
  forall i,
    Forall (fun vector => vector <> []) vectors ->
    check_embeddings i
      (map (fun embedding => VObj [("embedding", embedding)])
           (map VArr vectors)) = Ok tt.
Proof.
  induction vectors as [|vector vectors IH]; intros i H; [reflexivity|].
  inversion H as [|? ? Hv Hrest]; subst. simpl.
  destruct vector; [contradiction|]. simpl. now apply IH.
Qed.

Lemma entries_well_formed (objs : list value) :
  Forall (fun obj => exists vector,
            get obj "embedding" = Ok (VArr vector) /\ vector <> []) objs ->
  let vs := flat_map (fun obj => match get obj "embedding" with
                                 | Ok v => [v]
                                 | Throw _ => []
                                 end) objs in
  length vs = length objs
  /\ Forall (fun v => exists vector, v = VArr vector /\ vector <> []) vs.
Proof.
  induction 1 as [|obj objs (vector & Hget & Hne) _ [IHlen IHall]];
    [now split|].
  cbn [flat_map]. rewrite Hget. simpl. split; [now f_equal|].
  constructor; [now exists vector | exact IHall].
Qed.

(** What the second validation lets through is an envelope the
    specification allows. *)
Lemma validateEmbeddingResponse_sound response count b :
  validateEmbeddingResponse response count = Ok b ->
  b = true /\ well_formed_envelope response count.
Proof.
  unfold validateEmbeddingResponse.
  destruct (truthy response); [|discriminate]. cbn [negb].
  destruct (get response "embedding") as [embedding|] eqn:Hemb;
    [|discriminate].
  cbn [bindO].
  match goal with
  | |- bindO ?shape _ = _ -> _ => destruct shape as [[]|] eqn:Hshape
  end; [|discriminate].
  cbn [bindO].
  destruct (get response "model") as [name|] eqn:Hname; [|discriminate].
  cbn [bindO].
  destruct name as [| | | |name| | |]; cbn [truthy is_string negb];
    rewrite ?orb_true_r; try discriminate.
  destruct (String.eqb_spec name "") as [|Hn]; [discriminate|].
  cbn [negb orb].
  destruct (get response "created_at") as [time|] eqn:Htime; [|discriminate].
  cbn [bindO].
  destruct time as [| | | |time| | |]; cbn [truthy is_string negb];
    rewrite ?orb_true_r; try discriminate.
  destruct (String.eqb_spec time "") as [|Ht]; [discriminate|].
  cbn [negb orb]. intros [= <-]. split; [reflexivity|].
  unfold well_formed_envelope.
  assert (Hvectors :
            length (envelope_vectors response) = count
            /\ Forall (fun v => exists vector, v = VArr vector /\ vector <> [])
                      (envelope_vectors response)).
  { unfold envelope_vectors. rewrite Hemb.
    destruct (truthy embedding) eqn:Htruthy.
    - destruct embedding; try discriminate. simpl in Hshape.
      destruct elems as [|x elems]; [discriminate|]. simpl in Hshape.
      destruct (Nat.eqb_spec count 1) as [->|]; [|discriminate].
      split; [reflexivity|]. repeat constructor. now exists (x :: elems).
    - assert (Hrest :
                match embedding with
                | VArr vector => [VArr vector]
                | _ =>
                    match get response "embeddings" with
                    | Ok (VArr objs) =>
                        flat_map (fun obj => match get obj "embedding" with
                                             | Ok v => [v]
                                             | Throw _ => []
                                             end) objs
                    | _ => []
                    end
                end =
                match get response "embeddings" with
                | Ok (VArr objs) =>
                    flat_map (fun obj => match get obj "embedding" with
                                         | Ok v => [v]
                                         | Throw _ => []
                                         end) objs
                | _ => []
                end) by now destruct embedding.
      rewrite Hrest. clear Hrest.
      destruct (get response "embeddings") as [embeddings|];
        [|discriminate].
      cbn [bindO] in Hshape.
      destruct (truthy embeddings); [|discriminate].
      destruct embeddings; try discriminate.
      destruct (Nat.eqb_spec (length elems) count) as [<-|]; [|discriminate].
      cbn [negb] in Hshape.
      now apply entries_well_formed, (check_embeddings_sound elems 0). }
  destruct Hvectors as [Hlen Hall].
  repeat split; [exact Hlen | exact Hall | now exists name | now exists time].
Qed.

Lemma validateEmbeddingResponse_single vector name time :
  vector <> [] -> name <> "" -> time <> "" ->
  validateEmbeddingResponse
    (VObj [ ("embedding", VArr vector); ("model", VStr name);
            ("created_at", VStr time) ]) 1 = Ok true.
Proof.
  intros Hv Hn Ht. unfold validateEmbeddingResponse. simpl.
  destruct vector; [contradiction|]. simpl.
  destruct (String.eqb_spec name ""); [contradiction|].
  destruct (String.eqb_spec time ""); [contradiction|]. reflexivity.
Qed.

Lemma validateEmbeddingResponse_batch vectors name time :
  Forall (fun vector => vector <> []) vectors -> name <> "" -> time <> "" ->
  validateEmbeddingResponse
    (VObj [ ("embeddings",
             VArr (map (fun embedding => VObj [("embedding", embedding)])
                       (map VArr vectors)));
            ("model", VStr name); ("created_at", VStr time) ])
    (length vectors) = Ok true.
Proof.
  intros Hv Hn Ht. unfold validateEmbeddingResponse. simpl.
  rewrite !length_map, Nat.eqb_refl. cbn [negb].
  rewrite check_embeddings_entries by assumption. simpl.
  destruct (String.eqb_spec name ""); [contradiction|].
  destruct (String.eqb_spec time ""); [contradiction|]. reflexivity.
Qed.

Lemma handleEmbeddingError_never_succeeds e w0 w response :
  sink w0 = sink w ->
  sink (snd (handleEmbeddingError e w0)) <>
  sink w ++ [WriteHead 200 "application/json"; EndWith (Some response)].
Proof.
  intros Hsink Heq.
  destruct (existsb is_write_head (sink w0)) eqn:Hsent.
  - rewrite handleEmbeddingError_sent in Heq
      by (unfold fresh; now rewrite Hsent).
    cbn [snd] in Heq. rewrite Hsink in Heq.
    rewrite <- (app_nil_r (sink w)) in Heq at 1.
    now apply app_inv_head in Heq.
  - rewrite handleEmbeddingError_run in Heq by exact Hsent.
    cbn [snd after_events sink] in Heq. rewrite Hsink in Heq.
    apply app_inv_head in Heq. injection Heq as Hstatus _.
    now apply (categorize_not_success e).
Qed.

(** C6. Whatever the embeddings endpoint sends as a success has passed
    the second validation against the number of input texts of the
    request: it carries that many vectors (at least one), none of them
    empty, and [model] and [created_at] as non-empty strings. An envelope
    that fails the validation is therefore never sent as a success. *)
Theorem success_envelope_is_validated
    (E : Env) (body : value) (w : World) (response : value) :
  sink (snd (post_api_embeddings E body w)) =
    sink w ++ [WriteHead 200 "application/json"; EndWith (Some response)] ->
  exists request,
    validateEmbeddingRequest E body = Ok request
    /\ validateEmbeddingResponse response
         (length (EmbeddingRequest.inputTexts request)) = Ok true
    /\ 1 <= length (EmbeddingRequest.inputTexts request)
    /\ well_formed_envelope response
         (length (EmbeddingRequest.inputTexts request)).
Proof.
  intros Hsent.
  destruct (validateEmbeddingRequest E body) as [request|e] eqn:Hreq.
  2:{ rewrite (post_api_embeddings_rejected E body e w Hreq) in Hsent.
      now apply handleEmbeddingError_never_succeeds in Hsent. }
  exists request. split; [reflexivity|].
  destruct (validateEmbeddingRequest_ok E body request Hreq)
    as (name & prompt & raw & Hname & _ & _ & _ & _ & Htexts & _ & Hcount & _).
  destruct (generateEmbeddings E (EmbeddingRequest.modelConfig request)
              (EmbeddingRequest.inputTexts request) w)
    as [[result|e] w1] eqn:Hgen.
  2:{ rewrite (post_api_embeddings_generation_fails E body request e w w1
                 Hreq Hgen) in Hsent.
      apply handleEmbeddingError_never_succeeds in Hsent; [easy|].
      pose proof (silent_generateEmbeddings E
                    (EmbeddingRequest.modelConfig request)
                    (EmbeddingRequest.inputTexts request) w) as Hs.
      now rewrite Hgen in Hs. }
  assert (Hsink1 : sink w1 = sink w).
  { pose proof (silent_generateEmbeddings E
                  (EmbeddingRequest.modelConfig request)
                  (EmbeddingRequest.inputTexts request) w) as Hs.
    now rewrite Hgen in Hs. }
  destruct (post_api_embeddings_generated E body request name result w w1
              Hreq Hname Hgen)
    as (shaped & w2 & _ & Hsink2 & _ & Hrun).
  rewrite Hrun in Hsent.
  destruct (validateEmbeddingResponse shaped _) as [b|e] eqn:Hcheck.
  2:{ apply handleEmbeddingError_never_succeeds in Hsent; [easy|].
      now rewrite Hsink2. }
  rewrite sendJSON_run in Hsent. cbn [snd after_events sink] in Hsent.
  rewrite Hsink2, Hsink1 in Hsent. apply app_inv_head in Hsent.
  injection Hsent as <-.
  destruct (validateEmbeddingResponse_sound _ _ _ Hcheck) as [-> Hwf].
  split; [exact Hcheck|]. split; [|exact Hwf].
  rewrite Htexts, length_map. tauto.
Qed.

Lemma success_envelope_is_validated_witness :
  well_formed_envelope
    (VObj [ ("embedding", VArr (Demo.vector_for 0));
            ("model", VStr "qwen-embedding");
            ("created_at", VStr "2025-01-01T00:00:00Z") ]) 1.
Proof.
  destruct (success_envelope_is_validated Demo.plain
              (Demo.embeddings_request "qwen-embedding" "prompt"
                                       (VStr "Hello world"))
              initial
              (VObj [ ("embedding", VArr (Demo.vector_for 0));
                      ("model", VStr "qwen-embedding");
                      ("created_at", VStr "2025-01-01T00:00:00Z") ]))
    as (request & Hreq & _ & _ & Hwf).
  - vm_compute. reflexivity.
  - vm_compute in Hreq. injection Hreq as <-. exact Hwf.
Defined.

(** C1. For every accepted embedding request for a Google model, with
    the API key set, in which the upstream service answers the call for
    each input text with a non-empty vector: [generateEmbeddings] issues
    one call per text, in input order, and the envelope shaped from its
    result carries exactly the N vectors answered, the one at position i
    being the answer for [inputTexts[i]], with 1 <= N <= 100. When the
    model name of the request is a string, this envelope is what the
    endpoint sends, with status 200. *)
Theorem embedding_vectors_follow_input_order
    (E : Env) (body : value) (request : EmbeddingRequest.t)
    (vectors : list (list value)) (w : World) :
  let modelConfig := EmbeddingRequest.modelConfig request in
  let inputTexts := EmbeddingRequest.inputTexts request in
  validateEmbeddingRequest E body = Ok request ->
  ModelConfig.provider modelConfig = "google" ->
  env_set (GEMINI_API_KEY E) = true ->
  length vectors = length inputTexts ->
  (forall i text, inputTexts !! i = Some text ->
     exists vector,
       vectors !! i = Some vector /\ vector <> []
       /\ answers_with (fetch E (length (calls w) + i)
                              (ModelConfig.model modelConfig) text) vector) ->
  exists name result w1 response w2,
    get body "model" = Ok name
    /\ generateEmbeddings E modelConfig inputTexts w = (Ok result, w1)
    /\ calls w1 =
       calls w ++ map (EmbedContent (ModelConfig.model modelConfig)) inputTexts
    /\ formatEmbeddingResponse E result name
         (EmbeddingRequest.isSingleText request) w1 = (Ok response, w2)
    /\ envelope_vectors response = map VArr vectors
    /\ 1 <= length (envelope_vectors response) <= 100
    /\ length (envelope_vectors response) = length inputTexts
    /\ (is_string name = true -> clock E (ticks w1) <> "" ->
        post_api_embeddings E body w =
        (Ok tt, after_events w2 [WriteHead 200 "application/json";
                                 EndWith (Some response)])).
Proof.
  intros modelConfig inputTexts Hreq Hp Hkey Hlen Hanswers.
  destruct (validateEmbeddingRequest_ok E body request Hreq)
    as (name & prompt & raw & Hname & Htruthy & _ & _ & _ & Htexts & _
        & Hcount & _ & Hsingle).
  fold inputTexts in Htexts.
  assert (Hn : 1 <= length inputTexts <= 100)
    by (rewrite Htexts, length_map; exact Hcount).
  assert (Hgen : generateEmbeddings E modelConfig inputTexts w =
                 (Ok {| EmbeddingResult.embeddings := map VArr vectors;
                        EmbeddingResult.model := ModelConfig.model modelConfig;
                        EmbeddingResult.dimensions :=
                          match map VArr vectors with
                          | [] => 0
                          | first :: _ => array_length first
                          end |},
                  after_calls w (map (EmbedContent
                                        (ModelConfig.model modelConfig))
                                     inputTexts))).
  { rewrite generateEmbeddings_google by assumption.
    rewrite (embed_loop_ok E modelConfig inputTexts (map VArr vectors)).
    - reflexivity.
    - now rewrite length_map.
    - intros j text Hj. destruct (Hanswers j text Hj) as (vector & Hv & _ & Ha).
      exists (VArr vector). split.
      + now rewrite list_lookup_fmap, Hv.
      + now apply answers_with_vector. }
  assert (Hnonempty : Forall (fun vector => vector <> []) vectors).
  { apply Forall_lookup_2. intros i vector Hi.
    destruct (lookup_lt_is_Some_2 inputTexts i) as [text Ht].
    { rewrite <- Hlen. now apply lookup_lt_Some in Hi. }
    destruct (Hanswers i text Ht) as (vector' & Hv & Hne & _).
    congruence. }
  eexists name, _, _, _, _. split; [exact Hname|].
  split; [exact Hgen|]. split; [reflexivity|].
  split; [apply formatEmbeddingResponse_run|].
  assert (Hvectors :
            envelope_vectors
              (if EmbeddingRequest.isSingleText request then
                 VObj [ ("embedding", nth 0 (map VArr vectors) VUndefined);
                        ("model", name);
                        ("created_at",
                         VStr (clock E (ticks (after_calls w
                           (map (EmbedContent (ModelConfig.model modelConfig))
                                inputTexts))))) ]
               else
                 VObj [ ("embeddings",
                         VArr (map (fun embedding =>
                                      VObj [("embedding", embedding)])
                                   (map VArr vectors)));
                        ("model", name);
                        ("created_at",
                         VStr (clock E (ticks (after_calls w
                           (map (EmbedContent (ModelConfig.model modelConfig))
                                inputTexts))))) ])
            = map VArr vectors).
  { destruct (EmbeddingRequest.isSingleText request) eqn:Hs.
    - try rewrite Hs in Hsingle. symmetry in Hsingle.
      apply andb_true_iff in Hsingle as [Hone _].
      apply Nat.eqb_eq in Hone.
      rewrite Htexts, length_map, Hone in Hlen.
      destruct vectors as [|vector [|]]; try discriminate. reflexivity.
    - apply envelope_vectors_batch. }
  cbn [EmbeddingResult.embeddings].
  split; [exact Hvectors|].
  rewrite Hvectors, length_map, Hlen.
  split; [exact Hn|]. split; [reflexivity|].
  intros Hstring Hclock.
  destruct name as [| | | |name| | |]; try discriminate.
  assert (Hname' : name <> "").
  { intros ->. discriminate. }
  destruct (post_api_embeddings_generated E body request (VStr name) _ w _
              Hreq Hname Hgen)
    as (shaped & w2 & Hfmt & _ & _ & Hrun).
  rewrite formatEmbeddingResponse_run in Hfmt. injection Hfmt as <- <-.
  rewrite Hrun. cbn [EmbeddingResult.embeddings].
  fold inputTexts. rewrite <- Hlen.
  destruct (EmbeddingRequest.isSingleText request) eqn:Hs.
  - try rewrite Hs in Hsingle. symmetry in Hsingle.
    apply andb_true_iff in Hsingle as [Hone _].
    apply Nat.eqb_eq in Hone.
    rewrite Htexts, length_map, Hone in Hlen.
    destruct vectors as [|vector [|]]; try discriminate.
    inversion Hnonempty; subst.
    cbn [map nth length].
    rewrite validateEmbeddingResponse_single by assumption.
    apply sendJSON_run.
  - rewrite validateEmbeddingResponse_batch by assumption.
    apply sendJSON_run.
Qed.

Lemma embedding_vectors_follow_input_order_witness :
  exists response w2,
    post_api_embeddings Demo.plain
      (Demo.embeddings_request "qwen-embedding" "input"
         (VArr [VStr "Text 1"; VStr " Text 2"; VStr "Text 3 "])) initial =
    (Ok tt, after_events w2 [WriteHead 200 "application/json";
                             EndWith (Some response)])
    /\ envelope_vectors response =
       [VArr (Demo.vector_for 0); VArr (Demo.vector_for 1);
        VArr (Demo.vector_for 2)]
    /\ calls w2 =
       [EmbedContent "text-embedding-004" "Text 1";
        EmbedContent "text-embedding-004" "Text 2";
        EmbedContent "text-embedding-004" "Text 3"].
Proof.
  destruct (embedding_vectors_follow_input_order Demo.plain
              (Demo.embeddings_request "qwen-embedding" "input"
                 (VArr [VStr "Text 1"; VStr " Text 2"; VStr "Text 3 "]))
              {| EmbeddingRequest.modelConfig := Demo.qwen_embedding;
                 EmbeddingRequest.inputTexts := ["Text 1"; "Text 2"; "Text 3"];
                 EmbeddingRequest.isSingleText := false |}
              [Demo.vector_for 0; Demo.vector_for 1; Demo.vector_for 2]
              initial)
    as (name & result & w1 & response & w2 & Hname & Hgen & Hcalls & Hfmt
        & Hvectors & _ & _ & Hpost).
  - vm_compute. reflexivity.
  - reflexivity.
  - reflexivity.
  - reflexivity.
  - intros [|[|[|i]]] text; simpl; intros [= <-]; eexists;
      (split; [reflexivity|]); (split; [discriminate|]);
      apply fetch_ok_answers.
  - exists response, w2.
    vm_compute in Hname. injection Hname as <-.
    vm_compute in Hgen. injection Hgen as <- <-.
    vm_compute in Hfmt. injection Hfmt as <- <-.
    split; [|split; reflexivity].
    apply Hpost; [reflexivity | discriminate].
Defined.

(* ===================================================================== *)
(** ** Limits of the embedding request validator *)
(* ===================================================================== *)

Lemma nonblank_nonempty (s : string) : ~ blank s -> s <> "".
Proof. intros H ->. now apply H. Qed.

Lemma input_texts_supplied (body prompt : value) (raw : list string) :
  supplied body prompt raw -> raw <> [] ->
  Forall (fun s => ~ blank s) raw ->
  input_texts body prompt = Ok (map trim raw).
Proof.
  intros Hsup Hne Hb. unfold input_texts.
  destruct Hsup as [s ->|raw Hp Hi|s Hp Hi].
  - inversion Hb as [|? ? Hs _]; subst.
    cbn [truthy]. destruct (String.eqb_spec s "") as [->|_];
      [now destruct Hs|].
    cbn [negb]. now destruct (String.eqb_spec (trim s) "").
  - rewrite Hp, Hi. cbn [bindO truthy].
    destruct raw as [|s raw]; [contradiction|].
    cbn [map length Nat.eqb]. now apply (map_input_strings (s :: raw)).
  - inversion Hb as [|? ? Hs _]; subst.
    rewrite Hp, Hi. cbn [bindO truthy].
    destruct (String.eqb_spec s "") as [->|_]; [now destruct Hs|].
    cbn [negb]. now destruct (String.eqb_spec (trim s) "").
Qed.

Section Limits.

Variable E : Env.
Variables body name prompt : value.
Variable modelConfig : ModelConfig.t.

Hypothesis Hname : get body "model" = Ok name.
Hypothesis Htruthy : truthy name = true.
Hypothesis Hconfig : validateEmbeddingModel E name = Ok modelConfig.
Hypothesis Hprompt : get body "prompt" = Ok prompt.

Lemma validateEmbeddingRequest_texts :
  validateEmbeddingRequest E body =
  let? inputTexts := input_texts body prompt in
  if (maxTexts <? length inputTexts)%nat
  then Throw ("Too many input texts. Maximum allowed: " +:+ decimal maxTexts)
  else
    let? _ := check_lengths 0 inputTexts in
    Ok {| EmbeddingRequest.modelConfig := modelConfig;
          EmbeddingRequest.inputTexts := inputTexts;
          EmbeddingRequest.isSingleText :=
            (length inputTexts =? 1)%nat && negb (is_undefined prompt) |}.
Proof.
  unfold validateEmbeddingRequest.
  rewrite Hname. cbn [bindO]. rewrite Htruthy. cbn [negb].
  rewrite Hconfig. cbn [bindO]. now rewrite Hprompt.
Qed.

Lemma empty_input_array_rejected :
  truthy prompt = false -> get body "input" = Ok (VArr []) ->
  validateEmbeddingRequest E body = Throw "Input array cannot be empty".
Proof.
  intros Hp Hi. rewrite validateEmbeddingRequest_texts.
  unfold input_texts. now rewrite Hp, Hi.
Qed.

Lemma too_many_texts_rejected (raw : list string) :
  supplied body prompt raw -> Forall (fun s => ~ blank s) raw ->
  maxTexts < length raw ->
  validateEmbeddingRequest E body =
  Throw "Too many input texts. Maximum allowed: 100".
Proof.
  intros Hsup Hb Hlen. rewrite validateEmbeddingRequest_texts.
  rewrite (input_texts_supplied body prompt raw); try assumption.
  - cbn [bindO]. rewrite length_map.
    now destruct (Nat.ltb_spec maxTexts (length raw)); [|lia].
  - intros ->. simpl in Hlen. lia.
Qed.

Lemma oversized_array_rejected (elems : list value) :
  truthy prompt = false -> get body "input" = Ok (VArr elems) ->
  maxTexts < length elems ->
  is_ok (validateEmbeddingRequest E body) = false.
Proof.
  intros Hp Hi Hlen. rewrite validateEmbeddingRequest_texts.
  unfold input_texts. rewrite Hp, Hi. cbn [bindO truthy].
  destruct elems as [|v elems]; [simpl in Hlen; lia|].
  cbn [length Nat.eqb].
  destruct (map_input 0 (v :: elems)) as [texts|] eqn:Hmap; [|reflexivity].
  destruct (map_input_inv _ _ _ Hmap) as (raw & Hraw & -> & _).
  cbn [bindO]. rewrite map_input_length, <- Hraw.
  now destruct (Nat.ltb_spec maxTexts (length (v :: elems))); [|lia].
Qed.

Lemma too_long_text_rejected (before : list string) (s : string)
    (rest : list string) :
  supplied body prompt (before ++ s :: rest) ->
  Forall (fun s => ~ blank s) (before ++ s :: rest) ->
  length (before ++ s :: rest) <= maxTexts ->
  Forall (fun s => fits (trim s)) before -> ~ fits (trim s) ->
  validateEmbeddingRequest E body =
  Throw ("Input text at index " +:+ decimal (length before)
         +:+ " is too long. Maximum length: 10000 characters").
Proof.
  intros Hsup Hb Hlen Hbefore Hs. rewrite validateEmbeddingRequest_texts.
  rewrite (input_texts_supplied body prompt (before ++ s :: rest));
    [| assumption | now destruct before | assumption].
  cbn [bindO]. rewrite length_map.
  destruct (Nat.ltb_spec maxTexts (length (before ++ s :: rest))); [lia|].
  rewrite map_app. cbn [map].
  rewrite (check_lengths_first (map trim before) 0 (trim s));
    [now rewrite length_map | now apply Forall_map | exact Hs].
Qed.

Lemma texts_within_limits_accepted (raw : list string) :
  supplied body prompt raw -> raw <> [] ->
  Forall (fun s => ~ blank s) raw ->
  length raw <= maxTexts ->
  Forall (fun s => fits (trim s)) raw ->
  validateEmbeddingRequest E body =
  Ok {| EmbeddingRequest.modelConfig := modelConfig;
        EmbeddingRequest.inputTexts := map trim raw;
        EmbeddingRequest.isSingleText :=
          (length raw =? 1)%nat && negb (is_undefined prompt) |}.
Proof.
  intros Hsup Hne Hb Hlen Hfits. rewrite validateEmbeddingRequest_texts.
  rewrite (input_texts_supplied body prompt raw) by assumption.
  cbn [bindO]. rewrite length_map.
  destruct (Nat.ltb_spec maxTexts (length raw)); [lia|].
  assert (Hcheck : check_lengths 0 (map trim raw) = Ok tt)
    by (apply check_lengths_ok; now apply Forall_map).
  now rewrite Hcheck.
Qed.

End Limits.

Lemma accepted_texts_trimmed (E : Env) (body : value)
    (request : EmbeddingRequest.t) :
  validateEmbeddingRequest E body = Ok request ->
  Forall (fun text => trim text = text /\ text <> ""
                      /\ String.length text <= maxTextLength)
         (EmbeddingRequest.inputTexts request).
Proof.
  intros Hreq.
  destruct (validateEmbeddingRequest_ok E body request Hreq)
    as (name & prompt & raw & _ & _ & _ & _ & _ & -> & Hb & _ & Hfits & _).
  apply Forall_map. apply Forall_map in Hfits.
  revert Hfits. induction Hb as [|s raw Hs Hb IH]; intros Hfits;
    [constructor|].
  inversion Hfits; subst. constructor; [|now apply IH].
  split; [apply trim_idempotent | now split].
Qed.

Lemma stripped_nonblank (raw texts : list string) :
  Forall2 stripped raw texts -> Forall (fun text => text <> "") texts ->
  Forall (fun s => ~ blank s) raw.
Proof.
  induction 1 as [|s text raw texts Hs _ IH]; intros Hne; [constructor|].
  inversion Hne; subst. constructor; [|now apply IH].
  unfold blank. now rewrite <- (stripped_trim s text Hs).
Qed.

Lemma white_blank (s : string) : white s -> blank s.
Proof.
  intros H. unfold blank, trim. now rewrite (trimStart_white s H).
Qed.

(** The first entry that is no string, or blank, is the one the failure
    names. *)
Lemma map_input_first_bad (before : list string) :
  forall index bad rest,
    Forall (fun s => ~ blank s) before -> unusable_entry bad ->
    map_input index (map VStr before ++ bad :: rest) =
    Throw ("Input at index " +:+ decimal (index + length before)
           +:+ match bad with
               | VStr _ => " cannot be empty"
               | _ => " must be a string"
               end).
Proof.
  induction before as [|s before IH]; intros index bad rest Hbefore Hbad.
  - cbn [map app length]. rewrite Nat.add_0_r.
    destruct bad; try reflexivity.
    cbn [map_input]. cbn in Hbad. apply white_blank in Hbad.
    unfold blank in Hbad. now rewrite Hbad.
  - inversion Hbefore as [|? ? Hs Hrest]; subst.
    cbn [map app map_input length].
    destruct (String.eqb_spec (trim s) "") as [Hblank|_]; [now destruct Hs|].
    rewrite (IH (S index) bad rest Hrest Hbad). cbn [bindO].
    now rewrite Nat.add_succ_r.
Qed.

(** C7, amended. For a request that names an available embedding model,
    where a text is stripped when it is taken without the white space it
    begins and ends with: an empty [input] array is rejected with a
    message containing "cannot be empty"; an array of more than 100
    entries is always rejected, with a message containing "Maximum
    allowed" when all its entries are strings that are not blank, and
    else, whatever the number of entries, with a message naming the
    index of the first entry that is no string or is blank; among at
    most 100 texts none of which is blank, a text whose stripped length
    exceeds 10,000 is rejected with a message naming the index of the
    first such text; up to 100 texts of stripped length from 1 to 10,000
    are accepted; and the texts of an accepted request are the supplied
    texts, stripped. *)
Theorem embedding_request_limits
    (E : Env) (body name prompt : value) (modelConfig : ModelConfig.t) :
  get body "model" = Ok name ->
  truthy name = true ->
  validateEmbeddingModel E name = Ok modelConfig ->
  get body "prompt" = Ok prompt ->
  (truthy prompt = false -> get body "input" = Ok (VArr []) ->
   validateEmbeddingRequest E body = Throw "Input array cannot be empty"
   /\ includes "Input array cannot be empty" "cannot be empty" = true)
  /\ (forall raw texts,
        supplied body prompt raw -> Forall2 stripped raw texts ->
        Forall (fun text => text <> "") texts ->
        100 < length raw ->
        validateEmbeddingRequest E body =
          Throw "Too many input texts. Maximum allowed: 100"
        /\ includes "Too many input texts. Maximum allowed: 100"
                    "Maximum allowed" = true)
  /\ (forall elems,
        truthy prompt = false -> get body "input" = Ok (VArr elems) ->
        100 < length elems ->
        is_ok (validateEmbeddingRequest E body) = false)
  /\ (forall before texts bad rest,
        truthy prompt = false ->
        get body "input" = Ok (VArr (map VStr before ++ bad :: rest)) ->
        Forall2 stripped before texts ->
        Forall (fun text => text <> "") texts ->
        unusable_entry bad ->
        validateEmbeddingRequest E body =
          Throw ("Input at index " +:+ decimal (length before)
                 +:+ match bad with
                     | VStr _ => " cannot be empty"
                     | _ => " must be a string"
                     end))
  /\ (forall before texts s long rest tail,
        supplied body prompt (before ++ s :: rest) ->
        Forall2 stripped before texts -> stripped s long ->
        Forall2 stripped rest tail ->
        Forall (fun text => text <> "") (texts ++ long :: tail) ->
        length (before ++ s :: rest) <= 100 ->
        Forall (fun text => String.length text <= 10000) texts ->
        10000 < String.length long ->
        validateEmbeddingRequest E body =
          Throw ("Input text at index " +:+ decimal (length before)
                 +:+ " is too long. Maximum length: 10000 characters"))
  /\ (forall raw texts,
        supplied body prompt raw -> Forall2 stripped raw texts ->
        raw <> [] ->
        Forall (fun text => text <> "") texts ->
        length raw <= 100 ->
        Forall (fun text => String.length text <= 10000) texts ->
        validateEmbeddingRequest E body =
          Ok {| EmbeddingRequest.modelConfig := modelConfig;
                EmbeddingRequest.inputTexts := texts;
                EmbeddingRequest.isSingleText :=
                  (length raw =? 1)%nat && negb (is_undefined prompt) |})
  /\ (forall request,
        validateEmbeddingRequest E body = Ok request ->
        exists raw,
          supplied body prompt raw
          /\ Forall2 stripped raw (EmbeddingRequest.inputTexts request)
          /\ 1 <= length (EmbeddingRequest.inputTexts request) <= 100
          /\ Forall (fun text => text <> ""
                                 /\ String.length text <= 10000)
                    (EmbeddingRequest.inputTexts request)).
Proof.
  intros Hname Htruthy Hconfig Hprompt.
  split; [|split; [|split; [|split; [|split; [|split]]]]].
  - intros Hp Hi. split; [|reflexivity].
    now apply (empty_input_array_rejected E body name prompt modelConfig).
  - intros raw texts Hsup Hstripped Hne Hlen. split; [|reflexivity].
    apply (too_many_texts_rejected E body name prompt modelConfig)
      with (raw := raw); try assumption.
    now apply (stripped_nonblank raw texts).
  - intros elems Hp Hi Hlen.
    now apply (oversized_array_rejected E body name prompt modelConfig)
      with (elems := elems).
  - intros before texts bad rest Hp Hi Hstripped Hne Hbad.
    rewrite (validateEmbeddingRequest_texts E body name prompt modelConfig
               Hname Htruthy Hconfig Hprompt).
    unfold input_texts. rewrite Hp, Hi. cbn [bindO truthy].
    replace (length (map VStr before ++ bad :: rest) =? 0)%nat with false
      by (rewrite length_app; cbn [length]; symmetry; apply Nat.eqb_neq; lia).
    rewrite (map_input_first_bad before 0 bad rest
               (stripped_nonblank before texts Hstripped Hne) Hbad).
    reflexivity.
  - intros before texts s long rest tail Hsup Hbefore Hs Hrest Hne Hlen
           Hfits Hlong.
    apply stripped_all in Hbefore. apply stripped_trim in Hs.
    apply stripped_all in Hrest. subst texts long tail.
    apply (too_long_text_rejected E body name prompt modelConfig)
      with (s := s) (rest := rest); try assumption.
    + apply (stripped_nonblank _ (map trim before ++ trim s :: map trim rest));
        [|exact Hne].
      apply stripped_all. now rewrite map_app.
    + apply Forall_forall. intros x Hx. unfold fits, maxTextLength.
      rewrite List.Forall_forall in Hfits. apply Hfits.
      apply list_elem_of_In in Hx. now apply in_map.
    + unfold fits, maxTextLength. lia.
  - intros raw texts Hsup Hstripped Hnil Hne Hlen Hfits.
    pose proof (stripped_nonblank raw texts Hstripped Hne) as Hnonblank.
    apply stripped_all in Hstripped. subst texts.
    apply (texts_within_limits_accepted E body name prompt modelConfig)
      with (raw := raw); try assumption.
    apply Forall_forall. intros x Hx. unfold fits, maxTextLength.
    rewrite List.Forall_forall in Hfits. apply Hfits.
    apply list_elem_of_In in Hx. now apply in_map.
  - intros request Hrequest.
    destruct (validateEmbeddingRequest_ok E body request Hrequest)
      as (name' & prompt' & raw & _ & _ & _ & Hprompt' & Hsup & Htexts & _
          & Hcount & _).
    rewrite Hprompt in Hprompt'. injection Hprompt' as <-.
    exists raw. split; [exact Hsup|].
    split; [rewrite Htexts; now apply stripped_all|].
    split; [rewrite Htexts, length_map; exact Hcount|].
    eapply List.Forall_impl; [|exact (accepted_texts_trimmed E body request
                                        Hrequest)].
    cbv beta. intros text (_ & Hne & Hlen). now split.
Qed.

Lemma solid_length (n : nat) : String.length (Limits.solid n) = n.
Proof.
  unfold Limits.solid. induction n as [|n IH]; [reflexivity|].
  simpl. now rewrite IH.
Qed.

Lemma solid_trim (n : nat) : trim (Limits.solid n) = Limits.solid n.
Proof.
  apply trim_solid. unfold Limits.solid.
  rewrite list_ascii_of_string_of_list_ascii.
  induction n as [|n IH]; [reflexivity|]. simpl. exact IH.
Qed.

Lemma solid_not_blank (n : nat) : ~ blank (Limits.solid (S n)).
Proof. unfold blank. rewrite solid_trim. discriminate. Qed.

Lemma solid_stripped (n : nat) : stripped (Limits.solid n) (Limits.solid n).
Proof.
  pose proof (trim_stripped (Limits.solid n)) as H.
  now rewrite solid_trim in H.
Qed.

Lemma batch_stripped (count size : nat) :
  Forall2 stripped (Limits.batch count size) (Limits.batch count size).
Proof.
  unfold Limits.batch. induction count as [|count IH]; cbn [replicate];
    constructor; [apply solid_stripped | exact IH].
Qed.

Lemma embedding_request_limits_witness :
  let request input :=
    Demo.embeddings_request "qwen-embedding" "input" (VArr input) in
  validateEmbeddingRequest Demo.plain (request []) =
    Throw "Input array cannot be empty"
  /\ validateEmbeddingRequest Demo.plain
       (request (map VStr (Limits.batch 101 1))) =
     Throw "Too many input texts. Maximum allowed: 100"
  /\ validateEmbeddingRequest Demo.plain
       (request (map VStr ["fine"; "  "] ++ [VStr "more"])) =
     Throw "Input at index 1 cannot be empty"
  /\ validateEmbeddingRequest Demo.plain
       (request (map VStr (["fine"] ++ Limits.solid 10001 :: ["  also "]))) =
     Throw "Input text at index 1 is too long. Maximum length: 10000 characters"
  /\ validateEmbeddingRequest Demo.plain
       (request (map VStr (Limits.batch 100 10000))) =
     Ok {| EmbeddingRequest.modelConfig := Demo.qwen_embedding;
           EmbeddingRequest.inputTexts := Limits.batch 100 10000;
           EmbeddingRequest.isSingleText := false |}
  /\ validateEmbeddingRequest Demo.plain
       (request (map VStr ["  Hello world "; " second"])) =
     Ok {| EmbeddingRequest.modelConfig := Demo.qwen_embedding;
           EmbeddingRequest.inputTexts := ["Hello world"; "second"];
           EmbeddingRequest.isSingleText := false |}.
Proof.
  intros request.
  assert (Hmodel : validateEmbeddingModel Demo.plain (VStr "qwen-embedding")
                   = Ok Demo.qwen_embedding) by (vm_compute; reflexivity).
  assert (limits : forall input,
            _ /\ _ /\ _ /\ _ /\ _ /\ _ /\ _)
    by exact (fun input =>
                embedding_request_limits Demo.plain (request input)
                  (VStr "qwen-embedding") VUndefined Demo.qwen_embedding
                  eq_refl eq_refl Hmodel eq_refl).
  split; [|split; [|split; [|split; [|split]]]].
  - destruct (limits []) as (Hempty & _). now apply Hempty.
  - destruct (limits (map VStr (Limits.batch 101 1))) as (_ & Hmany & _).
    apply (Hmany (Limits.batch 101 1) (Limits.batch 101 1)).
    + now apply by_input_array.
    + apply batch_stripped.
    + apply Forall_replicate. discriminate.
    + unfold Limits.batch. rewrite length_replicate. lia.
  - destruct (limits (map VStr ["fine"; "  "] ++ [VStr "more"]))
      as (_ & _ & _ & Hbad & _).
    apply (Hbad ["fine"] ["fine"] (VStr "  ") [VStr "more"]).
    + reflexivity.
    + reflexivity.
    + constructor; [|constructor]. exists "", "". repeat split; constructor.
    + constructor; [discriminate | constructor].
    + cbn. repeat constructor.
  - destruct (limits (map VStr (["fine"] ++ Limits.solid 10001
                                          :: ["  also "])))
      as (_ & _ & _ & _ & Hlong & _).
    apply (Hlong ["fine"] ["fine"] (Limits.solid 10001) (Limits.solid 10001)
                 ["  also "] ["also"]).
    + now apply by_input_array.
    + constructor; [|constructor]. exists "", "". repeat split; constructor.
    + apply solid_stripped.
    + constructor; [|constructor]. exists "  ", " ".
      repeat split; repeat constructor.
    + constructor; [discriminate|].
      constructor; [discriminate|].
      constructor; [discriminate | constructor].
    + simpl. lia.
    + repeat constructor.
    + rewrite solid_length. apply Nat.ltb_lt. vm_compute. reflexivity.
  - destruct (limits (map VStr (Limits.batch 100 10000)))
      as (_ & _ & _ & _ & _ & Haccept & _).
    apply (Haccept (Limits.batch 100 10000) (Limits.batch 100 10000)).
    + now apply by_input_array.
    + apply batch_stripped.
    + discriminate.
    + apply Forall_replicate. discriminate.
    + unfold Limits.batch. rewrite length_replicate. lia.
    + apply Forall_replicate. rewrite solid_length.
      apply Nat.leb_le. vm_compute. reflexivity.
  - destruct (limits (map VStr ["  Hello world "; " second"]))
      as (_ & _ & _ & _ & _ & Haccept & _).
    apply (Haccept ["  Hello world "; " second"] ["Hello world"; "second"]).
    + now apply by_input_array.
    + constructor; [|constructor; [|constructor]].
      * exists "  ", " ". repeat split; repeat constructor.
      * exists " ", "". repeat split; repeat constructor.
    + discriminate.
    + repeat constructor; discriminate.
    + simpl. lia.
    + repeat constructor; cbn; lia.
Defined.

(** C7, as stated, fails for batches of more than 100 entries: with a
    blank entry among 101 the message names that entry and does not
    contain "Maximum allowed", and a text of more than 10,000 characters
    among 101 is turned down without a message that names its index. *)
Lemma oversized_batch_gets_another_message :
  let request texts :=
    Demo.embeddings_request "qwen-embedding" "input" (VArr (map VStr texts)) in
  length ("   " :: Limits.batch 100 1) = 101
  /\ validateEmbeddingRequest Demo.plain
       (request ("   " :: Limits.batch 100 1)) =
     Throw "Input at index 0 cannot be empty"
  /\ includes "Input at index 0 cannot be empty" "Maximum allowed" = false
  /\ String.length (Limits.solid 10001) = 10001
  /\ validateEmbeddingRequest Demo.plain
       (request (Limits.solid 10001 :: Limits.batch 100 1)) =
     Throw "Too many input texts. Maximum allowed: 100".
Proof.
  intros request.
  split; [reflexivity|]. split; [vm_compute; reflexivity|].
  split; [reflexivity|]. split; [apply solid_length|].
  vm_compute; reflexivity.
Qed.

(* ===================================================================== *)
(** ** Classification of failures *)
(* ===================================================================== *)

Lemma categorize_bad_request (message : string) :
  includes message "not supported" = true
  \/ includes message "not an embedding model" = true
  \/ includes message "Missing required field" = true
  \/ includes message "must be" = true
  \/ includes message "cannot be empty" = true
  \/ includes message "Too many" = true
  \/ includes message "too long" = true ->
  categorize message = (400, message).
Proof.
  intros H. unfold categorize.
  repeat destruct H as [H|H]; rewrite H, ?orb_true_r; reflexivity.
Qed.

Lemma validation_failure_400 (message : string) :
  validation_failure message -> categorize message = (400, message).
Proof.
  intros H. apply categorize_bad_request.
  destruct H.
  - do 2 right; left. reflexivity.
  - left. apply includes_append_r, includes_append_r. reflexivity.
  - right; left. apply includes_append_r, includes_append_r. reflexivity.
  - do 3 right; left. reflexivity.
  - do 4 right; left. reflexivity.
  - do 3 right; left. apply includes_append_r, includes_append_r. reflexivity.
  - do 4 right; left. apply includes_append_r, includes_append_r. reflexivity.
  - do 4 right; left. reflexivity.
  - do 3 right; left. reflexivity.
  - do 2 right; left. reflexivity.
  - do 5 right; left. reflexivity.
  - do 6 right. apply includes_append_r, includes_append_r. reflexivity.
Qed.

Lemma to_string_failure :
  forall v e, to_string v = Throw e -> other_failure e.
Proof.
  fix IH 1. intros v e. destruct v as [| | | | |elems|props|];
    try discriminate.
  - cbn [to_string]. generalize true.
    induction elems as [|x elems IHelems]; intros first; [discriminate|].
    cbn [join].
    destruct (match x with
              | VUndefined | VNull => Ok ""
              | _ => to_string x
              end) as [sx|ex] eqn:Hx.
    + cbn [bindO]. intros H. apply (IHelems false).
      destruct (join to_string elems false) as [sr|er]; [discriminate|].
      exact H.
    + cbn [bindO]. intros [= <-].
      apply (IH x). now destruct x.
  - cbn [to_string]. destruct (own props "toString"); [|discriminate].
    intros [= <-]. constructor.
Qed.

Lemma get_total (v : value) (k k' : string) (x : value) :
  get v k = Ok x -> exists x', get v k' = Ok x'.
Proof.
  destruct v; try discriminate; intros _; unfold get; eauto.
  destruct (own props k'); eauto.
Qed.

Lemma get_failure (v : value) (k e : string) :
  get v k = Throw e -> other_failure e.
Proof.
  destruct v; cbn [get]; try discriminate; try (intros [= <-]; constructor).
  destruct (own props k); discriminate.
Qed.

Lemma check_lengths_failure (texts : list string) :
  forall i e, check_lengths i texts = Throw e -> validation_failure e.
Proof.
  induction texts as [|t texts IH]; intros i e; [discriminate|].
  cbn [check_lengths].
  destruct (maxTextLength <? String.length t)%nat; [|apply IH].
  intros [= <-]. apply (text_too_long i).
Qed.

Lemma map_input_failure (elems : list value) :
  forall i e, map_input i elems = Throw e -> validation_failure e.
Proof.
  intros i e H.
  destruct (map_input_fails elems i) as (j & e' & He & [->| ->]);
    [now rewrite H | | ]; rewrite H in He; injection He as ->; constructor.
Qed.

Lemma input_texts_failure (body prompt : value) (e : string) :
  (exists x, get body "model" = Ok x) ->
  input_texts body prompt = Throw e -> validation_failure e.
Proof.
  intros [x Hx]. unfold input_texts.
  destruct (truthy prompt).
  - destruct prompt; try (intros [= <-]; constructor).
    destruct (String.eqb (trim s) ""); [|discriminate].
    intros [= <-]; constructor.
  - destruct (get_total body "model" "input" x Hx) as [input ->].
    cbn [bindO]. destruct (truthy input); [|intros [= <-]; constructor].
    destruct input; try (intros [= <-]; constructor).
    + destruct (String.eqb (trim s) ""); [|discriminate].
      intros [= <-]; constructor.
    + destruct (length elems =? 0)%nat; [intros [= <-]; constructor|].
      apply map_input_failure.
Qed.

Lemma validateEmbeddingModel_failure (E : Env) (name : value) (e : string) :
  validateEmbeddingModel E name = Throw e ->
  validation_failure e \/ other_failure e.
Proof.
  unfold validateEmbeddingModel.
  destruct (to_string name) as [key|e'] eqn:Hkey.
  2:{ intros [= <-]. right. now apply (to_string_failure name). }
  cbn [bindO].
  destruct (registry_get (embeddingModels E) key) as [config| |].
  - destruct (has_provider _ _); cbn [negb].
    + destruct (kind_is _ _); cbn [negb]; [discriminate|].
      intros [= <-]. left. constructor.
    + intros [= <-]. right. constructor.
  - intros [= <-]. right. apply (provider_unavailable "undefined").
  - intros [= <-]. left. constructor.
Qed.

(** Every failure of the validator is a validation failure, or one of the
    few others. *)
Lemma validateEmbeddingRequest_failure (E : Env) (body : value) (e : string) :
  validateEmbeddingRequest E body = Throw e ->
  validation_failure e \/ other_failure e.
Proof.
  unfold validateEmbeddingRequest.
  destruct (get body "model") as [name|e'] eqn:Hname.
  2:{ intros [= <-]. right. now apply (get_failure body "model"). }
  cbn [bindO]. destruct (truthy name); cbn [negb];
    [|intros [= <-]; left; constructor].
  destruct (validateEmbeddingModel E name) as [config|e'] eqn:Hconfig.
  2:{ intros [= <-]. now apply (validateEmbeddingModel_failure E name). }
  cbn [bindO].
  destruct (get_total body "model" "prompt" name Hname) as [prompt ->].
  cbn [bindO].
  destruct (input_texts body prompt) as [texts|e'] eqn:Htexts.
  2:{ intros [= <-]. left. apply (input_texts_failure body prompt); eauto. }
  cbn [bindO].
  destruct (maxTexts <? length texts)%nat;
    [intros [= <-]; left; constructor|].
  destruct (check_lengths 0 texts) as [[]|e'] eqn:Hlen; [discriminate|].
  intros [= <-]. left. now apply (check_lengths_failure texts 0).
Qed.

(** A handle made at start-up makes the model object. *)
Lemma provider_handle_own P modelConfig :
  own_handle P (ModelConfig.provider modelConfig) = true ->
  provider_handle P modelConfig = Ok (model_handle modelConfig).
Proof. intros H. unfold provider_handle. now rewrite H. Qed.

Section GenerationHandler.

Variable E : Env.
Variable messageExtractor : value -> Outcome value.
Variable responseKey : string.

Lemma generation_failed_fresh e w :
  fresh w ->
  generation_failed E e w =
  (Ok tt, after_events w [WriteHead 500 "application/json";
                          EndWith (Some (error_body e))]).
Proof.
  intros Hfresh. unfold generation_failed.
  unfold bind at 1, headersSent. rewrite Hfresh. cbn [negb].
  apply sendJSON_run.
Qed.

Lemma generation_failure_before_headers body e w :
  fresh w ->
  (forall name options stream,
     destructure body = Ok (name, options, stream) ->
     validateChatModel E name = Throw e ->
     handleModelGenerationRequest E messageExtractor responseKey body w =
     (Ok tt, after_events w [WriteHead 500 "application/json";
                             EndWith (Some (error_body e))])).
Proof.
  intros Hfresh name options stream Hbody Hmodel.
  unfold handleModelGenerationRequest.
  erewrite try_catch_throw; cycle 1.
  { unfold generation_attempt. rewrite bind_lift, Hbody. cbn beta iota.
    now rewrite bind_lift, Hmodel. }
  now apply generation_failed_fresh.
Qed.

Lemma no_valid_messages_before_headers body w :
  fresh w ->
  (forall name options stream modelConfig model extracted,
     destructure body = Ok (name, options, stream) ->
     validateChatModel E name = Ok modelConfig ->
     provider_handle (providers E) modelConfig = Ok model ->
     messageExtractor body = Ok extracted ->
     prepareMessages (or_else extracted (VArr [])) = Ok [] ->
     handleModelGenerationRequest E messageExtractor responseKey body w =
     (Ok tt, after_events w
               [WriteHead 500 "application/json";
                EndWith (Some (error_body "No valid messages found"))])).
Proof.
  intros Hfresh name options stream modelConfig model extracted
         Hbody Hmodel Hhandle Hextract Hnone.
  unfold handleModelGenerationRequest.
  erewrite try_catch_throw with (e := "No valid messages found") (w1 := w);
    cycle 1.
  { unfold generation_attempt. rewrite bind_lift, Hbody. cbn beta iota.
    rewrite bind_lift, Hmodel, bind_lift, Hextract.
    destruct (truthy stream).
    - unfold streamResponse. now rewrite bind_lift, Hhandle, bind_lift, Hnone.
    - apply bind_throw. unfold generateResponse.
      now rewrite bind_lift, Hhandle, bind_lift, Hnone. }
  now apply generation_failed_fresh.
Qed.

End GenerationHandler.

(** C5, amended. On the embeddings endpoint, a request that the validator
    rejects as malformed (missing field, wrong type, empty input, too
    long, too many inputs, unsupported model, wrong kind) is answered
    with status 400 and the failure message verbatim in [error]. On the
    chat and generate endpoints, a request for an unsupported model, or
    for a model of a provider with a handle but without a valid message,
    is answered with status 500, the failure message verbatim in
    [error]. *)
Theorem validation_failures_by_endpoint
    (E : Env) (body : value) (w : World) (e : string) :
  fresh w ->
  (validateEmbeddingRequest E body = Throw e -> validation_failure e ->
   post_api_embeddings E body w =
   (Ok tt, after_events w [WriteHead 400 "application/json";
                           EndWith (Some (error_body e))]))
  /\ (forall messageExtractor responseKey name options stream,
        destructure body = Ok (name, options, stream) ->
        validateChatModel E name = Throw e ->
        handleModelGenerationRequest E messageExtractor responseKey body w =
        (Ok tt, after_events w [WriteHead 500 "application/json";
                                EndWith (Some (error_body e))]))
  /\ (forall messageExtractor responseKey name options stream
             modelConfig extracted,
        destructure body = Ok (name, options, stream) ->
        validateChatModel E name = Ok modelConfig ->
        own_handle (providers E) (ModelConfig.provider modelConfig) = true ->
        messageExtractor body = Ok extracted ->
        prepareMessages (or_else extracted (VArr [])) = Ok [] ->
        handleModelGenerationRequest E messageExtractor responseKey body w =
        (Ok tt, after_events w
                  [WriteHead 500 "application/json";
                   EndWith (Some (error_body "No valid messages found"))])).
Proof.
  intros Hfresh. split; [|split].
  - intros Hreq Hfail.
    rewrite (post_api_embeddings_rejected E body e w Hreq).
    rewrite handleEmbeddingError_run by exact Hfresh.
    now rewrite (validation_failure_400 e Hfail).
  - intros messageExtractor responseKey name options stream.
    now apply generation_failure_before_headers.
  - intros messageExtractor responseKey name options stream
           modelConfig extracted Hbody Hmodel Hown.
    apply (no_valid_messages_before_headers E messageExtractor responseKey
             body w Hfresh name options stream modelConfig
             (model_handle modelConfig) extracted Hbody Hmodel).
    now apply provider_handle_own.
Qed.

Lemma validation_failures_by_endpoint_witness :
  post_api_embeddings Demo.plain (VObj [("prompt", VStr "Hello world")])
                      initial =
    (Ok tt, after_events initial
              [WriteHead 400 "application/json";
               EndWith (Some (error_body "Missing required field: model"))])
  /\ post_api_generate Demo.plain
       (VObj [("prompt", VStr "Hello world")]) initial =
     (Ok tt, after_events initial
               [WriteHead 500 "application/json";
                EndWith (Some (error_body
                             "Chat model undefined not supported"))])
  /\ post_api_chat Demo.plain
       (VObj [("model", VStr "gpt-4o-mini");
              ("messages", VArr [VObj [("role", VStr "user");
                                       ("content", VStr "   ")]])])
       initial =
     (Ok tt, after_events initial
               [WriteHead 500 "application/json";
                EndWith (Some (error_body "No valid messages found"))]).
Proof.
  split; [|split].
  - apply (validation_failures_by_endpoint Demo.plain
             (VObj [("prompt", VStr "Hello world")]) initial
             "Missing required field: model");
      [reflexivity | reflexivity | constructor].
  - unfold post_api_generate.
    eapply (validation_failures_by_endpoint Demo.plain
              (VObj [("prompt", VStr "Hello world")]) initial
              "Chat model undefined not supported");
      [reflexivity | reflexivity | vm_compute; reflexivity].
  - unfold post_api_chat.
    eapply (validation_failures_by_endpoint Demo.plain _ initial "");
      [reflexivity | reflexivity | vm_compute; reflexivity | reflexivity
      | reflexivity | vm_compute; reflexivity].
Defined.

(** C5, as stated, fails on the chat endpoint: a request for a model
    that is not configured is answered with status 500, not 400. *)
Lemma chat_validation_failure_answers_500 :
  let body :=
    VObj [ ("model", VStr "llama3");
           ("messages",
            VArr [VObj [("role", VStr "user"); ("content", VStr "hi")]]) ] in
  validateChatModel Demo.plain (VStr "llama3") =
    Throw "Chat model llama3 not supported"
  /\ sink (snd (post_api_chat Demo.plain body initial)) =
     [WriteHead 500 "application/json";
      EndWith (Some (error_body "Chat model llama3 not supported"))]
  /\ sink (snd (post_api_chat Demo.plain body initial)) <>
     [WriteHead 400 "application/json";
      EndWith (Some (error_body "Chat model llama3 not supported"))].
Proof.
  intros body.
  assert (Hsink : sink (snd (post_api_chat Demo.plain body initial)) =
                  [WriteHead 500 "application/json";
                   EndWith (Some (error_body "Chat model llama3 not supported"))])
    by (vm_compute; reflexivity).
  split; [vm_compute; reflexivity|]. split; [exact Hsink|].
  rewrite Hsink. discriminate.
Qed.

(** What [isSingleText] is for an accepted request: there is one text and
    [body.prompt] is not [undefined]. *)
Lemma isSingleText_of_accepted (E : Env) (body : value)
    (request : EmbeddingRequest.t) :
  validateEmbeddingRequest E body = Ok request ->
  exists prompt,
    get body "prompt" = Ok prompt
    /\ EmbeddingRequest.isSingleText request =
       (length (EmbeddingRequest.inputTexts request) =? 1)%nat
       && negb (is_undefined prompt)
    /\ (truthy prompt = true -> EmbeddingRequest.isSingleText request = true)
    /\ (prompt = VUndefined -> EmbeddingRequest.isSingleText request = false).
Proof.
  intros Hreq.
  destruct (validateEmbeddingRequest_ok E body request Hreq)
    as (name & prompt & raw & _ & _ & _ & Hprompt & Hsup & Htexts & _ & _ & _
        & Hsingle).
  exists prompt. rewrite Htexts, length_map.
  split; [exact Hprompt|]. split; [exact Hsingle|]. split.
  - intros Hp. rewrite Hsingle.
    destruct Hsup as [s ->| |]; [reflexivity|congruence..].
  - intros ->. rewrite Hsingle. apply andb_false_r.
Qed.

(** C2, on the code: a request whose [prompt] is present but falsy
    ([null], or the empty string) and whose one text comes through
    [input], as a one-element array or as a string, is accepted with
    [isSingleText] true, and is answered under the [embedding] key
    instead of the [embeddings] array. *)
Theorem falsy_prompt_marks_input_as_single :
  let request prompt input :=
    VObj [ ("model", VStr "qwen-embedding"); ("prompt", prompt);
           ("input", input) ] in
  let single :=
    {| EmbeddingRequest.modelConfig := Demo.qwen_embedding;
       EmbeddingRequest.inputTexts := ["x"];
       EmbeddingRequest.isSingleText := true |} in
  supplied (request VNull (VArr [VStr "x"])) VNull ["x"]
  /\ validateEmbeddingRequest Demo.plain (request VNull (VArr [VStr "x"])) =
     Ok single
  /\ validateEmbeddingRequest Demo.plain (request VNull (VStr "x")) = Ok single
  /\ validateEmbeddingRequest Demo.plain (request (VStr "") (VStr "x")) =
     Ok single
  /\ sink (snd (post_api_embeddings Demo.plain
                  (request VNull (VArr [VStr "x"])) initial)) =
     [WriteHead 200 "application/json";
      EndWith (Some (VObj [ ("embedding", VArr (Demo.vector_for 0));
                            ("model", VStr "qwen-embedding");
                            ("created_at", VStr "2025-01-01T00:00:00Z") ]))].
Proof.
  intros request single.
  split; [now apply (by_input_array _ _ ["x"])|].
  repeat split; vm_compute; reflexivity.
Qed.

(* ===================================================================== *)
(** ** Preparing chat messages *)
(* ===================================================================== *)

Lemma has_content_survives (msg : value) :
  well_typed msg -> has_content msg = Ok (survives msg).
Proof.
  intros (content & Hget & Htype).
  unfold has_content, survives, content_of. rewrite Hget. cbn [bindO].
  destruct Htype as [Hfalsy|Hstring].
  - rewrite Hfalsy. destruct content; try reflexivity.
    simpl in Hfalsy. destruct (String.eqb_spec s ""); [subst|discriminate].
    reflexivity.
  - destruct content; try discriminate.
    destruct (truthy (VStr s)) eqn:Ht; [reflexivity|].
    simpl in Ht. destruct (String.eqb_spec s ""); [subst|discriminate].
    reflexivity.
Qed.

Lemma prepared_forwarded (msg : value) :
  survives msg = true -> prepared msg = Ok (forwarded msg).
Proof.
  unfold survives, content_of, prepared, forwarded, content_of.
  destruct (get msg "content") as [content|] eqn:Hget; [|discriminate].
  destruct content; try discriminate. intros _.
  destruct (get_total msg "content" "role" _ Hget) as [role ->].
  cbn [bindO to_string]. now destruct role.
Qed.

Lemma filter_messages_survivors (msgs : list value) :
  Forall well_typed msgs ->
  filter_messages msgs = Ok (List.filter survives msgs).
Proof.
  induction 1 as [|msg msgs Hmsg _ IH]; [reflexivity|].
  cbn [filter_messages List.filter].
  rewrite (has_content_survives msg Hmsg), IH. now cbn [bindO].
Qed.

Lemma map_messages_forwarded (msgs : list value) :
  Forall (fun msg => survives msg = true) msgs ->
  map_messages msgs = Ok (map forwarded msgs).
Proof.
  induction 1 as [|msg msgs Hmsg _ IH]; [reflexivity|].
  cbn [map_messages map]. now rewrite (prepared_forwarded msg Hmsg), IH.
Qed.

Lemma forwarded_shape (msg : value) :
  survives msg = true ->
  (Message.role (forwarded msg) = "assistant"
   \/ Message.role (forwarded msg) = "user")
  /\ Message.content (forwarded msg) <> ""
  /\ trim (Message.content (forwarded msg)) = Message.content (forwarded msg).
Proof.
  unfold survives, forwarded. intros Hs. cbn [Message.role Message.content].
  split; [|split].
  - destruct (get msg "role") as [[| | | |role| | |]|]; auto.
    destruct (String.eqb role "assistant"); auto.
  - destruct (content_of msg) as [s|]; [|discriminate].
    now destruct (String.eqb_spec (trim s) "").
  - destruct (content_of msg) as [s|]; [|reflexivity].
    apply trim_idempotent.
Qed.

(** C10. For every message list whose messages are objects with a content
    that is absent, falsy or a string, [prepareMessages] keeps exactly
    the messages whose content is a string that is not blank, in order,
    and forwards each of them with role 'assistant' if its role is
    exactly 'assistant' and 'user' otherwise (so 'system' becomes
    'user'), its content trimmed. *)
Theorem prepareMessages_drops_blank_and_maps_roles (msgs : list value) :
  Forall well_typed msgs ->
  prepareMessages (VArr msgs) = Ok (map forwarded (List.filter survives msgs))
  /\ Forall (fun m => (Message.role m = "assistant" \/ Message.role m = "user")
                      /\ Message.content m <> ""
                      /\ trim (Message.content m) = Message.content m)
            (map forwarded (List.filter survives msgs)).
Proof.
  intros Htyped.
  assert (Hkept : Forall (fun msg => survives msg = true)
                         (List.filter survives msgs)).
  { apply List.Forall_forall. intros msg Hin.
    now apply List.filter_In in Hin. }
  split.
  - cbn [prepareMessages].
    rewrite (filter_messages_survivors msgs Htyped). cbn [bindO].
    now apply map_messages_forwarded.
  - apply Forall_map. eapply List.Forall_impl; [|exact Hkept].
    intros msg. apply forwarded_shape.
Qed.

Lemma prepareMessages_drops_blank_and_maps_roles_witness :
  prepareMessages
    (VArr [ VObj [("role", VStr "system"); ("content", VStr " be brief ")];
            VObj [("role", VStr "user"); ("content", VStr "   ")];
            VObj [("role", VStr "assistant"); ("content", VStr "ok")];
            VObj [("role", VStr "user")];
            VObj [("role", VStr "tool"); ("content", VNull)];
            VObj [("role", VStr "user"); ("content", VStr "hello ")] ]) =
  Ok [ {| Message.role := "user"; Message.content := "be brief" |};
       {| Message.role := "assistant"; Message.content := "ok" |};
       {| Message.role := "user"; Message.content := "hello" |} ].
Proof.
  apply (prepareMessages_drops_blank_and_maps_roles
           [ VObj [("role", VStr "system"); ("content", VStr " be brief ")];
             VObj [("role", VStr "user"); ("content", VStr "   ")];
             VObj [("role", VStr "assistant"); ("content", VStr "ok")];
             VObj [("role", VStr "user")];
             VObj [("role", VStr "tool"); ("content", VNull)];
             VObj [("role", VStr "user"); ("content", VStr "hello ")] ]).
  repeat constructor; eexists; (split; [reflexivity|]); simpl; tauto.
Defined.

(* ===================================================================== *)
(** ** The two responders *)
(* ===================================================================== *)

Lemma call_args_ok model validMessages options limit
    temperature num_predict top_p :
  get options "temperature" = Ok temperature ->
  get options "num_predict" = Ok num_predict ->
  get options "top_p" = Ok top_p ->
  call_args model validMessages options limit =
  Ok {| GenArgs.model := model;
        GenArgs.messages := validMessages;
        GenArgs.temperature := temperature;
        GenArgs.maxTokens := limit num_predict;
        GenArgs.topP := top_p |}.
Proof. intros Ht Hn Hp. unfold call_args. now rewrite Ht, Hn, Hp. Qed.

Lemma length_zero_iff {A} (l : list A) : (length l =? 0)%nat = false <-> l <> [].
Proof. destruct l; simpl; split; congruence. Qed.

Section Responders.

Variable E : Env.
Variable modelConfig : ModelConfig.t.

(** Without a model object nothing is prepared, called or sent. *)
Lemma generateResponse_no_handle messages options e w :
  provider_handle (providers E) modelConfig = Throw e ->
  generateResponse E modelConfig messages options w = (Throw e, w).
Proof. intros H. unfold generateResponse. now rewrite bind_lift, H. Qed.

Lemma streamResponse_no_handle messages options responseKey e w :
  provider_handle (providers E) modelConfig = Throw e ->
  streamResponse E modelConfig messages options responseKey w = (Throw e, w).
Proof. intros H. unfold streamResponse. now rewrite bind_lift, H. Qed.

(** The non-streaming responder, once the messages are prepared: one
    call to [generateText], whatever comes of it. *)
Lemma generateResponse_run messages options model validMessages args w :
  provider_handle (providers E) modelConfig = Ok model ->
  prepareMessages messages = Ok validMessages -> validMessages <> [] ->
  call_args model validMessages (default_to (VObj []) options)
            (fun num_predict => or_else num_predict (VNum "32768")) = Ok args ->
  generateResponse E modelConfig messages options w =
  (let? result := generateText E (length (calls w)) args in
   assemble_result result,
   after_calls w [GenerateText args]).
Proof.
  intros Hhandle Hprep Hne Hargs. unfold generateResponse.
  rewrite bind_lift, Hhandle, bind_lift, Hprep.
  apply length_zero_iff in Hne. rewrite Hne.
  rewrite bind_lift, Hargs.
  unfold bind, record_call, lift, after_calls. cbn [calls ticks sink].
  now destruct (generateText E (length (calls w)) args).
Qed.

Lemma stream_deltas_run modelName responseKey (deltas : list string) :
  forall w,
    stream_deltas E modelName responseKey deltas w =
    (Ok tt,
     {| ticks := ticks w + length deltas;
        calls := calls w;
        sink := sink w ++ map Write (delta_chunks E modelName responseKey
                                                  (ticks w) deltas) |}).
Proof.
  induction deltas as [|delta rest IH]; intros w.
  - destruct w. cbn. now rewrite Nat.add_0_r, app_nil_r.
  - cbn [stream_deltas]. unfold bind at 1, now.
    unfold bind at 1, emit. cbn [ticks calls sink].
    rewrite IH. cbn [ticks calls sink length delta_chunks map].
    now rewrite <- app_assoc, Nat.add_succ_r.
Qed.

(** The streaming responder, once the messages are prepared: the header,
    one chunk per delta, and one closing chunk, whatever the upstream
    service does. *)
Lemma streamResponse_started messages options responseKey model
    validMessages w :
  provider_handle (providers E) modelConfig = Ok model ->
  prepareMessages messages = Ok validMessages -> validMessages <> [] ->
  let modelName := ModelConfig.model modelConfig in
  let opened := sink w ++ [WriteHead 200 "application/x-ndjson"] in
  streamResponse E modelConfig messages options responseKey w =
  match call_args model validMessages (default_to (VObj []) options)
                  (fun num_predict => num_predict) with
  | Throw e =>
      (Ok tt,
       {| ticks := S (ticks w);
          calls := calls w;
          sink := opened ++
                  [Write (error_chunk modelName (clock E (ticks w)) e);
                   EndWith None] |})
  | Ok args =>
      match streamText E (length (calls w)) args with
      | Throw e =>
          (Ok tt,
           {| ticks := S (ticks w);
              calls := calls w ++ [StreamText args];
              sink := opened ++
                      [Write (error_chunk modelName (clock E (ticks w)) e);
                       EndWith None] |})
      | Ok result =>
          let deltas := StreamResult.textStream result in
          let closing_time := clock E (ticks w + length deltas) in
          (Ok tt,
           {| ticks := S (ticks w + length deltas);
              calls := calls w ++ [StreamText args];
              sink := opened ++
                      map Write (delta_chunks E modelName responseKey
                                              (ticks w) deltas) ++
                      [Write
                         match StreamResult.failure result with
                         | Some e => error_chunk modelName closing_time e
                         | None =>
                             final_chunk modelName closing_time responseKey
                                         (StreamResult.reasoning result)
                         end;
                       EndWith None] |})
      end
  end.
Proof.
  intros Hhandle Hprep Hne modelName opened. subst modelName opened.
  unfold streamResponse. rewrite bind_lift, Hhandle, bind_lift, Hprep.
  apply length_zero_iff in Hne. rewrite Hne.
  unfold bind at 1, emit at 1. cbn [ticks calls sink].
  unfold try_catch. rewrite bind_lift.
  destruct (call_args _ _ _ _) as [args|e].
  2:{ unfold bind, now, emit. cbn [ticks calls sink].
      now rewrite <- !app_assoc. }
  unfold bind at 1, record_call. cbn [ticks calls sink].
  rewrite bind_lift.
  destruct (streamText E (length (calls w)) args) as [result|e].
  2:{ unfold bind, now, emit. cbn [ticks calls sink].
      now rewrite <- !app_assoc. }
  unfold bind at 1. rewrite stream_deltas_run. cbn [ticks calls sink].
  destruct (StreamResult.failure result) as [e|].
  - unfold throw, bind, now, emit. cbn [ticks calls sink].
    now rewrite <- !app_assoc.
  - unfold bind, now, emit. cbn [ticks calls sink].
    now rewrite <- !app_assoc.
Qed.

Lemma streamResponse_not_started messages options responseKey w :
  (forall validMessages,
     prepareMessages messages = Ok validMessages -> validMessages = []) ->
  exists e, streamResponse E modelConfig messages options responseKey w =
            (Throw e, w).
Proof.
  intros Hnone. unfold streamResponse. rewrite bind_lift.
  destruct (provider_handle (providers E) modelConfig) as [model|e];
    [|eauto].
  rewrite bind_lift.
  destruct (prepareMessages messages) as [validMessages|e]; [|eauto].
  rewrite (Hnone validMessages eq_refl). cbn. eauto.
Qed.

End Responders.

(** C8, amended. A non-streaming chat or generate request for a model
    of a provider with a handle, whose messages are prepared, issues one
    [generateText] call with the temperature and
    the top-p of the request unmodified, and with max-output-tokens equal
    to [num_predict] when the client supplied a truthy value, and to the
    default 32768 when it supplied none (or a falsy one). A streaming
    request passes all three to [streamText] unmodified. *)
Theorem generation_options_forwarded
    (E : Env) (modelConfig : ModelConfig.t) (messages options : value)
    (responseKey : string) (validMessages : list Message.t)
    (temperature num_predict top_p : value) (w : World) :
  own_handle (providers E) (ModelConfig.provider modelConfig) = true ->
  prepareMessages messages = Ok validMessages -> validMessages <> [] ->
  get (default_to (VObj []) options) "temperature" = Ok temperature ->
  get (default_to (VObj []) options) "num_predict" = Ok num_predict ->
  get (default_to (VObj []) options) "top_p" = Ok top_p ->
  calls (snd (generateResponse E modelConfig messages options w)) =
    calls w ++
    [GenerateText
       {| GenArgs.model := model_handle modelConfig;
          GenArgs.messages := validMessages;
          GenArgs.temperature := temperature;
          GenArgs.maxTokens :=
            if truthy num_predict then num_predict else VNum "32768";
          GenArgs.topP := top_p |}]
  /\ calls (snd (streamResponse E modelConfig messages options responseKey w)) =
     calls w ++
     [StreamText
        {| GenArgs.model := model_handle modelConfig;
           GenArgs.messages := validMessages;
           GenArgs.temperature := temperature;
           GenArgs.maxTokens := num_predict;
           GenArgs.topP := top_p |}].
Proof.
  intros Hown Hprep Hne Ht Hn Hp.
  apply provider_handle_own in Hown. split.
  - erewrite generateResponse_run; [reflexivity | eassumption..|].
    exact (call_args_ok (model_handle modelConfig) validMessages _
             (fun n => or_else n (VNum "32768")) _ _ _ Ht Hn Hp).
  - rewrite (streamResponse_started E modelConfig messages options responseKey
               (model_handle modelConfig) validMessages w Hown Hprep Hne).
    rewrite (call_args_ok (model_handle modelConfig) validMessages _
               (fun n => n) _ _ _ Ht Hn Hp).
    now destruct (streamText E (length (calls w)) _).
Qed.

Lemma generation_options_forwarded_witness :
  let messages :=
    VArr [VObj [("role", VStr "user"); ("content", VStr "Why is the sky blue?")]] in
  let prepared :=
    [{| Message.role := "user"; Message.content := "Why is the sky blue?" |}] in
  let options :=
    VObj [ ("temperature", VNum "0.2"); ("num_predict", VNum "64");
           ("top_p", VNum "0.9") ] in
  calls (snd (generateResponse Demo.plain Demo.gpt_4o_mini messages options
                               initial)) =
    [GenerateText
       {| GenArgs.model := ("openai", "gpt-4o-mini");
          GenArgs.messages := prepared;
          GenArgs.temperature := VNum "0.2";
          GenArgs.maxTokens := VNum "64";
          GenArgs.topP := VNum "0.9" |}]
  /\ calls (snd (generateResponse Demo.plain Demo.gpt_4o_mini messages
                                  VUndefined initial)) =
     [GenerateText
        {| GenArgs.model := ("openai", "gpt-4o-mini");
           GenArgs.messages := prepared;
           GenArgs.temperature := VUndefined;
           GenArgs.maxTokens := VNum "32768";
           GenArgs.topP := VUndefined |}]
  /\ calls (snd (streamResponse Demo.plain Demo.gpt_4o_mini messages
                                VUndefined "message" initial)) =
     [StreamText
        {| GenArgs.model := ("openai", "gpt-4o-mini");
           GenArgs.messages := prepared;
           GenArgs.temperature := VUndefined;
           GenArgs.maxTokens := VUndefined;
           GenArgs.topP := VUndefined |}].
Proof.
  intros messages prepared options.
  split; [|split].
  - apply (generation_options_forwarded Demo.plain Demo.gpt_4o_mini messages
             options "message" prepared (VNum "0.2") (VNum "64") (VNum "0.9")
             initial);
      [reflexivity | reflexivity | discriminate | reflexivity..].
  - apply (generation_options_forwarded Demo.plain Demo.gpt_4o_mini messages
             VUndefined "message" prepared VUndefined VUndefined VUndefined
             initial);
      [reflexivity | reflexivity | discriminate | reflexivity..].
  - apply (generation_options_forwarded Demo.plain Demo.gpt_4o_mini messages
             VUndefined "message" prepared VUndefined VUndefined VUndefined
             initial);
      [reflexivity | reflexivity | discriminate | reflexivity..].
Defined.

(** C8, as stated, fails: a generate request that supplies no
    [num_predict] reaches the provider with max-output-tokens 32768, not
    with the value absent. *)
Lemma absent_num_predict_becomes_32768 :
  let options := VObj [("temperature", VNum "0.7")] in
  let body :=
    VObj [ ("model", VStr "gpt-4o-mini");
           ("prompt", VStr "Why is the sky blue?");
           ("options", options) ] in
  get options "num_predict" = Ok VUndefined
  /\ calls (snd (post_api_generate Demo.plain body initial)) =
     [GenerateText
        {| GenArgs.model := ("openai", "gpt-4o-mini");
           GenArgs.messages :=
             [{| Message.role := "user";
                 Message.content := "Why is the sky blue?" |}];
           GenArgs.temperature := VNum "0.7";
           GenArgs.maxTokens := VNum "32768";
           GenArgs.topP := VUndefined |}]
  /\ VNum "32768" <> VUndefined.
Proof.
  intros options body. split; [reflexivity|].
  split; [vm_compute; reflexivity | discriminate].
Qed.

(* ===================================================================== *)
(** ** The objects of a stream *)
(* ===================================================================== *)

Section Chunks.

Variable E : Env.
Variables modelName responseKey : string.

Hypothesis Hkey : responseKey = "message" \/ responseKey = "response".

Lemma with_content_done time done content :
  get (with_content (chunk_head modelName time done) responseKey content)
      "done" = Ok (VBool done).
Proof.
  unfold with_content.
  now destruct (String.eqb responseKey "message"),
               (String.eqb responseKey "response").
Qed.

Lemma with_content_content time done content :
  chunk_content responseKey
    (with_content (chunk_head modelName time done) responseKey content) =
  Ok (VStr content).
Proof. now destruct Hkey as [-> | ->]. Qed.

Lemma with_content_no_error time done content :
  get (with_content (chunk_head modelName time done) responseKey content)
      "error" = Ok VUndefined.
Proof. now destruct Hkey as [-> | ->]. Qed.

Lemma delta_chunks_not_done (deltas : list string) :
  forall t,
    Forall (fun chunk => get chunk "done" = Ok (VBool false))
           (delta_chunks E modelName responseKey t deltas).
Proof.
  induction deltas as [|delta rest IH]; intros t; constructor.
  - apply with_content_done.
  - apply IH.
Qed.

Lemma delta_chunks_content (deltas : list string) :
  forall t,
    map (chunk_content responseKey)
        (delta_chunks E modelName responseKey t deltas) =
    map (fun delta => Ok (VStr delta)) deltas.
Proof.
  induction deltas as [|delta rest IH]; intros t; [reflexivity|].
  cbn [delta_chunks map]. now rewrite with_content_content, IH.
Qed.

Lemma final_chunk_closes time reasoning :
  get (final_chunk modelName time responseKey reasoning) "done" =
    Ok (VBool true)
  /\ chunk_content responseKey
       (final_chunk modelName time responseKey reasoning) = Ok (VStr "")
  /\ get (final_chunk modelName time responseKey reasoning) "error" =
     Ok VUndefined.
Proof.
  unfold final_chunk.
  destruct (truthy reasoning); [|split; [|split]].
  - now destruct Hkey as [-> | ->].
  - apply with_content_done.
  - apply with_content_content.
  - apply with_content_no_error.
Qed.

Lemma error_chunk_closes time e :
  get (error_chunk modelName time e) "done" = Ok (VBool true)
  /\ get (error_chunk modelName time e) "error" = Ok (VStr e).
Proof. now split. Qed.

End Chunks.

Lemma fresh_no_header (w : World) (status : nat) (contentType : string) :
  fresh w -> ~ In (WriteHead status contentType) (sink w).
Proof.
  unfold fresh. induction (sink w) as [|event events IH]; [easy|].
  cbn [existsb]. intros H [->|Hin].
  - discriminate.
  - apply orb_false_iff in H as [_ H]. now apply IH.
Qed.

Section GenerationCases.

Variable E : Env.
Variable messageExtractor : value -> Outcome value.
Variable responseKey : string.

(** What an attempt to answer a chat or generate request comes to: a
    failure with nothing sent, a complete JSON answer, or a stream that
    has started. *)
Lemma generation_attempt_cases body w :
  (exists e w1,
     generation_attempt E messageExtractor responseKey body w = (Throw e, w1)
     /\ sink w1 = sink w)
  \/ (exists data w1,
        generation_attempt E messageExtractor responseKey body w = (Ok tt, w1)
        /\ sink w1 = sink w ++ [WriteHead 200 "application/json";
                                EndWith (Some data)])
  \/ (exists modelConfig model messages options validMessages,
        provider_handle (providers E) modelConfig = Ok model
        /\ prepareMessages messages = Ok validMessages
        /\ validMessages <> []
        /\ generation_attempt E messageExtractor responseKey body w =
           streamResponse E modelConfig messages options responseKey w).
Proof.
  unfold generation_attempt. rewrite bind_lift.
  destruct (destructure body) as [[[name options] stream]|e];
    [|left; eauto].
  rewrite bind_lift.
  destruct (validateChatModel E name) as [modelConfig|e]; [|left; eauto].
  rewrite bind_lift.
  destruct (messageExtractor body) as [extracted|e]; [|left; eauto].
  destruct (truthy stream).
  - destruct (provider_handle (providers E) modelConfig) as [model|e]
      eqn:Hhandle.
    2:{ left. rewrite (streamResponse_no_handle E modelConfig _ options
                         responseKey e w Hhandle). eauto. }
    destruct (prepareMessages (or_else extracted (VArr [])))
      as [[|m validMessages]|e] eqn:Hprep.
    + left.
      destruct (streamResponse_not_started E modelConfig
                  (or_else extracted (VArr [])) options responseKey w)
        as [e He]; [congruence|].
      rewrite He. eauto.
    + right; right.
      exists modelConfig, model, (or_else extracted (VArr [])), options,
        (m :: validMessages). now repeat split.
    + left.
      destruct (streamResponse_not_started E modelConfig
                  (or_else extracted (VArr [])) options responseKey w)
        as [e' He]; [congruence|].
      rewrite He. eauto.
  - pose proof (silent_generateResponse E modelConfig
                  (or_else extracted (VArr [])) options w) as Hsilent.
    destruct (generateResponse E modelConfig _ options w)
      as [[result|e] w1] eqn:Hgen; cbn [snd] in Hsilent.
    + right; left. erewrite bind_ok by exact Hgen.
      unfold bind at 1, now. cbv beta iota zeta. rewrite sendJSON_run.
      eexists _, _. split; [reflexivity|].
      cbn [after_events sink]. now rewrite Hsilent.
    + left. erewrite bind_throw by exact Hgen. eauto.
Qed.

End GenerationCases.

Lemma written_app (events more : list SinkEvent) :
  written (events ++ more) = written events ++ written more.
Proof. unfold written. apply flat_map_app. Qed.

Lemma written_chunks (chunks : list value) :
  written (map Write chunks) = chunks.
Proof. induction chunks as [|c chunks IH]; [reflexivity|]. cbn. now f_equal. Qed.

Lemma not_own_suffix {A} (l : list A) (x : A) : l <> l ++ [x].
Proof.
  intros H. apply (f_equal (@length A)) in H.
  rewrite length_app in H. simpl in H. lia.
Qed.

(** C3. For every chat or generate request answered as a stream (the
    NDJSON header was written): the client receives the header, then one
    object per delta with done = false, then exactly one object with
    done = true, then the end of the response, and nothing else: no
    second header and no JSON error body. If the stream ran to its end
    the closing object has empty content and no [error]; if the upstream
    call threw, before or after the first delta, the closing object
    carries the failure message in [error]. *)
Theorem stream_closes_with_one_done_object
    (E : Env) (messageExtractor : value -> Outcome value)
    (responseKey : string) (body : value) (w : World) :
  fresh w ->
  responseKey = "message" \/ responseKey = "response" ->
  let w' :=
    snd (handleModelGenerationRequest E messageExtractor responseKey body w) in
  In (WriteHead 200 "application/x-ndjson") (sink w') ->
  exists chunks closing,
    sink w' = sink w ++ WriteHead 200 "application/x-ndjson"
                        :: map Write chunks ++ [Write closing; EndWith None]
    /\ written (sink w') = written (sink w) ++ chunks ++ [closing]
    /\ Forall (fun chunk => get chunk "done" = Ok (VBool false)) chunks
    /\ get closing "done" = Ok (VBool true)
    /\ forall args,
         calls w' = calls w ++ [StreamText args] ->
         match streamText E (length (calls w)) args with
         | Ok result =>
             map (chunk_content responseKey) chunks =
               map (fun delta => Ok (VStr delta))
                   (StreamResult.textStream result)
             /\ match StreamResult.failure result with
                | None =>
                    chunk_content responseKey closing = Ok (VStr "")
                    /\ get closing "error" = Ok VUndefined
                | Some e => get closing "error" = Ok (VStr e)
                end
         | Throw e => chunks = [] /\ get closing "error" = Ok (VStr e)
         end.
Proof.
  intros Hfresh Hkey w' Hin. subst w'.
  unfold handleModelGenerationRequest in *.
  destruct (generation_attempt_cases E messageExtractor responseKey body w)
    as [(e & w1 & Hrun & Hsink)
       |[(data & w1 & Hrun & Hsink)
        |(modelConfig & model & messages & options & validMessages & Hhandle
          & Hprep & Hne & Hrun)]].
  - exfalso. rewrite (try_catch_throw _ _ _ _ _ Hrun) in Hin.
    rewrite generation_failed_fresh in Hin
      by (unfold fresh; now rewrite Hsink).
    cbn [snd after_events sink] in Hin. rewrite Hsink in Hin.
    apply in_app_or in Hin as [Hin|[Hin|[Hin|[]]]]; try discriminate.
    now apply fresh_no_header in Hin.
  - exfalso. rewrite (try_catch_ok _ _ _ _ _ Hrun) in Hin.
    cbn [snd] in Hin. rewrite Hsink in Hin.
    apply in_app_or in Hin as [Hin|[Hin|[Hin|[]]]]; try discriminate.
    now apply fresh_no_header in Hin.
  - clear Hin.
    rewrite (streamResponse_started E modelConfig messages options
               responseKey model validMessages w Hhandle Hprep Hne) in Hrun.
    cbv zeta in Hrun.
    destruct (call_args model validMessages _ _) as [args0|e].
    2:{ rewrite (try_catch_ok _ _ _ _ _ Hrun). cbn [snd sink calls].
        exists [], (error_chunk (ModelConfig.model modelConfig)
                                (clock E (ticks w)) e).
        rewrite <- app_assoc. split; [reflexivity|].
        split; [now rewrite !written_app|].
        split; [constructor|]. split; [reflexivity|].
        intros args Hcalls. now apply not_own_suffix in Hcalls. }
    destruct (streamText E (length (calls w)) args0) as [result|e] eqn:Hup.
    2:{ rewrite (try_catch_ok _ _ _ _ _ Hrun). cbn [snd sink calls].
        exists [], (error_chunk (ModelConfig.model modelConfig)
                                (clock E (ticks w)) e).
        rewrite <- app_assoc. split; [reflexivity|].
        split; [now rewrite !written_app|].
        split; [constructor|]. split; [reflexivity|].
        intros args Hcalls. apply app_inv_head in Hcalls.
        injection Hcalls as <-. now rewrite Hup. }
    rewrite (try_catch_ok _ _ _ _ _ Hrun). cbn [snd sink calls].
    eexists (delta_chunks E (ModelConfig.model modelConfig) responseKey
                          (ticks w) (StreamResult.textStream result)), _.
    rewrite <- app_assoc. split; [reflexivity|].
    split.
    { rewrite !written_app, written_chunks. reflexivity. }
    split; [apply delta_chunks_not_done|].
    destruct (StreamResult.failure result) as [e|] eqn:Hfail.
    + split; [reflexivity|].
      intros args Hcalls. apply app_inv_head in Hcalls.
      injection Hcalls as <-. rewrite Hup, Hfail.
      split; [now apply delta_chunks_content | reflexivity].
    + destruct (final_chunk_closes (ModelConfig.model modelConfig)
                  responseKey Hkey
                  (clock E (ticks w
                            + length (StreamResult.textStream result)))
                  (StreamResult.reasoning result))
        as (Hdone & Hcontent & Herror).
      split; [exact Hdone|].
      intros args Hcalls. apply app_inv_head in Hcalls.
      injection Hcalls as <-. rewrite Hup, Hfail.
      split; [now apply delta_chunks_content | now split].
Qed.

Lemma stream_closes_with_one_done_object_witness :
  let body :=
    VObj [ ("model", VStr "gpt-4o-mini");
           ("messages",
            VArr [VObj [("role", VStr "user"); ("content", VStr "hi")]]);
           ("stream", VBool true) ] in
  let broken :=
    Demo.env Demo.fetch_ok (Demo.stream_of ["He"] (Some "socket hang up")) in
  (exists chunks closing,
     sink (snd (post_api_chat Demo.plain body initial)) =
       WriteHead 200 "application/x-ndjson"
       :: map Write chunks ++ [Write closing; EndWith None]
     /\ map (chunk_content "message") chunks =
        [Ok (VStr "He"); Ok (VStr "llo")]
     /\ get closing "done" = Ok (VBool true)
     /\ chunk_content "message" closing = Ok (VStr ""))
  /\ (exists chunks closing,
        sink (snd (post_api_chat broken body initial)) =
          WriteHead 200 "application/x-ndjson"
          :: map Write chunks ++ [Write closing; EndWith None]
        /\ map (chunk_content "message") chunks = [Ok (VStr "He")]
        /\ get closing "done" = Ok (VBool true)
        /\ get closing "error" = Ok (VStr "socket hang up")).
Proof.
  intros body broken.
  pose (args :=
          {| GenArgs.model := ("openai", "gpt-4o-mini");
             GenArgs.messages :=
               [{| Message.role := "user"; Message.content := "hi" |}];
             GenArgs.temperature := VUndefined;
             GenArgs.maxTokens := VUndefined;
             GenArgs.topP := VUndefined |}).
  split.
  - destruct (stream_closes_with_one_done_object Demo.plain
                (fun body => get body "messages") "message" body initial)
      as (chunks & closing & Hsink & _ & _ & Hdone & Hup);
      [reflexivity | now left | vm_compute; now left |].
    exists chunks, closing. split; [exact Hsink|].
    destruct (Hup args) as (Hcontent & Hclosing & _);
      [vm_compute; reflexivity|].
    now repeat split.
  - destruct (stream_closes_with_one_done_object broken
                (fun body => get body "messages") "message" body initial)
      as (chunks & closing & Hsink & _ & _ & Hdone & Hup);
      [reflexivity | now left | vm_compute; now left |].
    exists chunks, closing. split; [exact Hsink|].
    destruct (Hup args) as (Hcontent & Herror);
      [vm_compute; reflexivity|].
    now repeat split.
Defined.

(* ===================================================================== *)
(** ** The loaded registry *)
(* ===================================================================== *)

Section Loading.

Variable P : Providers.

(** What one entry adds to registries that do not hold its name yet. *)
Lemma load_entry_embedding loaded name config n kept :
  Registries.embedding loaded !! name = None ->
  (Registries.embedding (load_entry P loaded (name, config)) !! n = Some kept
   <-> Registries.embedding loaded !! n = Some kept
       \/ (n = name /\ usable P config kept
           /\ kind_of config = "embedding")).
Proof.
  intros Hfresh. unfold load_entry, usable, kind_of, field_set.
  destruct config as [[provider|] [upstream|] type]; cbn [RawConfig.provider
    RawConfig.model RawConfig.type]; try (split; [tauto|]; intros [H|H];
      [exact H | destruct H as (_ & (H1 & _ & H2 & _) & _); congruence]).
  cbn [env_set].
  destruct (String.eqb_spec provider "") as [->|Hprov]; cbn [negb orb].
  { split; [tauto|]. intros [H|(_ & (H & Hne & _) & _)]; [exact H|].
    congruence. }
  destruct (String.eqb_spec upstream "") as [->|Hup]; cbn [negb].
  { split; [tauto|]. intros [H|(_ & (_ & _ & H & Hne & _) & _)]; [exact H|].
    congruence. }
  destruct (has_provider P provider) eqn:Havail; cbn [negb].
  2:{ split; [tauto|].
      intros [H|(_ & (H & _ & _ & _ & Hav & _) & _)]; [exact H|].
      congruence. }
  destruct (String.eqb_spec
              (if env_set type then default "" type else "chat") "embedding")
    as [Hkind|Hkind].
  - cbn [Registries.embedding]. split.
    + intros H. destruct (decide (name = n)) as [<-|Hne].
      * rewrite lookup_insert_eq in H. injection H as <-. right.
        repeat split; try assumption.
      * rewrite lookup_insert_ne in H by exact Hne. now left.
    + intros [H|(-> & (Hp & _ & Hm & _ & _ & Ht) & _)].
      * destruct (decide (name = n)) as [<-|Hne]; [congruence|].
        now rewrite lookup_insert_ne.
      * rewrite lookup_insert_eq. f_equal.
        destruct kept as [kp km kt]. cbn in *. congruence.
  - assert (Hsame : forall r,
              Registries.embedding
                (if String.eqb
                      (if env_set type then default "" type else "chat")
                      "chat"
                 then {| Registries.chat := r;
                         Registries.embedding := Registries.embedding loaded |}
                 else loaded) = Registries.embedding loaded)
      by (intros r; now destruct (String.eqb _ "chat")).
    rewrite Hsame. split; [tauto|]. intros [H|(_ & _ & H)]; [exact H|].
    contradiction.
Qed.

Lemma load_entry_chat loaded name config n kept :
  Registries.chat loaded !! name = None ->
  (Registries.chat (load_entry P loaded (name, config)) !! n = Some kept
   <-> Registries.chat loaded !! n = Some kept
       \/ (n = name /\ usable P config kept /\ kind_of config = "chat")).
Proof.
  intros Hfresh. unfold load_entry, usable, kind_of, field_set.
  destruct config as [[provider|] [upstream|] type]; cbn [RawConfig.provider
    RawConfig.model RawConfig.type]; try (split; [tauto|]; intros [H|H];
      [exact H | destruct H as (_ & (H1 & _ & H2 & _) & _); congruence]).
  cbn [env_set].
  destruct (String.eqb_spec provider "") as [->|Hprov]; cbn [negb orb].
  { split; [tauto|]. intros [H|(_ & (H & Hne & _) & _)]; [exact H|].
    congruence. }
  destruct (String.eqb_spec upstream "") as [->|Hup]; cbn [negb].
  { split; [tauto|]. intros [H|(_ & (_ & _ & H & Hne & _) & _)]; [exact H|].
    congruence. }
  destruct (has_provider P provider) eqn:Havail; cbn [negb].
  2:{ split; [tauto|].
      intros [H|(_ & (H & _ & _ & _ & Hav & _) & _)]; [exact H|].
      congruence. }
  destruct (String.eqb_spec
              (if env_set type then default "" type else "chat") "embedding")
    as [Hkind|Hkind].
  - cbn [Registries.chat]. split; [tauto|].
    intros [H|(_ & _ & H)]; [exact H|]. rewrite Hkind in H. discriminate.
  - destruct (String.eqb_spec
                (if env_set type then default "" type else "chat") "chat")
      as [Hchat|Hchat].
    + cbn [Registries.chat]. split.
      * intros H. destruct (decide (name = n)) as [<-|Hne].
        -- rewrite lookup_insert_eq in H. injection H as <-. right.
           repeat split; try assumption.
        -- rewrite lookup_insert_ne in H by exact Hne. now left.
      * intros [H|(-> & (Hp & _ & Hm & _ & _ & Ht) & _)].
        -- destruct (decide (name = n)) as [<-|Hne]; [congruence|].
           now rewrite lookup_insert_ne.
        -- rewrite lookup_insert_eq. f_equal.
           destruct kept as [kp km kt]. cbn in *. congruence.
    + split; [tauto|]. intros [H|(_ & _ & H)]; [exact H|]. contradiction.
Qed.

(** An entry touches no name but its own. *)
Lemma load_entry_other loaded name config n :
  n <> name ->
  Registries.chat (load_entry P loaded (name, config)) !! n =
    Registries.chat loaded !! n
  /\ Registries.embedding (load_entry P loaded (name, config)) !! n =
     Registries.embedding loaded !! n.
Proof.
  intros Hne. unfold load_entry.
  destruct (RawConfig.provider config), (RawConfig.model config);
    try (now split).
  repeat match goal with
         | |- context [if ?b then _ else _] => destruct b
         end; cbn [Registries.chat Registries.embedding];
    rewrite ?lookup_insert_ne by congruence; now split.
Qed.

Lemma fold_load_entry (models : list (string * RawConfig.t)) :
  forall loaded,
    NoDup (map fst models) ->
    (forall name, In name (map fst models) ->
       Registries.chat loaded !! name = None
       /\ Registries.embedding loaded !! name = None) ->
    let result := fold_left (load_entry P) models loaded in
    (forall n kept,
       Registries.embedding result !! n = Some kept
       <-> Registries.embedding loaded !! n = Some kept
           \/ exists config, In (n, config) models /\ usable P config kept
                             /\ kind_of config = "embedding")
    /\ (forall n kept,
          Registries.chat result !! n = Some kept
          <-> Registries.chat loaded !! n = Some kept
              \/ exists config, In (n, config) models /\ usable P config kept
                                /\ kind_of config = "chat").
Proof.
  induction models as [|[name config] models IH]; intros loaded Hnodup Hfresh.
  - cbn. split; intros n kept; split; try tauto;
      intros [H|(config & [] & _)]; exact H.
  - cbn [fold_left]. cbn [map fst] in Hnodup, Hfresh.
    apply NoDup_cons in Hnodup as [Hnotin Hnodup].
    destruct (Hfresh name (or_introl eq_refl)) as [Hchat Hemb].
    destruct (IH (load_entry P loaded (name, config)) Hnodup) as [IHe IHc].
    { intros n Hn.
      assert (Hne : n <> name)
        by (intros ->; apply Hnotin; now apply list_elem_of_In).
      destruct (load_entry_other loaded name config n Hne) as [-> ->].
      apply Hfresh. now right. }
    split; intros n kept.
    + rewrite IHe, (load_entry_embedding loaded name config n kept Hemb).
      split.
      * intros [[H|(-> & Hu & Hk)]|(c & Hin & Hu & Hk)]; [now left | |].
        -- right. exists config. split; [now left | now split].
        -- right. exists c. split; [now right | now split].
      * intros [H|(c & [Heq|Hin] & Hu & Hk)]; [now left; left | |].
        -- injection Heq as -> ->. left. right. split; [reflexivity|].
           split; assumption.
        -- right. exists c. split; [assumption|]. split; assumption.
    + rewrite IHc, (load_entry_chat loaded name config n kept Hchat).
      split.
      * intros [[H|(-> & Hu & Hk)]|(c & Hin & Hu & Hk)]; [now left | |].
        -- right. exists config. split; [now left | now split].
        -- right. exists c. split; [now right | now split].
      * intros [H|(c & [Heq|Hin] & Hu & Hk)]; [now left; left | |].
        -- injection Heq as -> ->. left. right. split; [reflexivity|].
           split; assumption.
        -- right. exists c. split; [assumption|]. split; assumption.
Qed.

End Loading.

(** The two registries, read off the configured entries. *)
Lemma loadModels_lookup (P : Providers)
    (models : list (string * RawConfig.t)) :
  object_entries models ->
  (forall name kept,
     Registries.embedding (loadModels P models) !! name = Some kept
     <-> exists config, In (name, config) models /\ usable P config kept
                        /\ kind_of config = "embedding")
  /\ (forall name kept,
        Registries.chat (loadModels P models) !! name = Some kept
        <-> exists config, In (name, config) models /\ usable P config kept
                           /\ kind_of config = "chat")
  /\ (forall name,
        Registries.chat (loadModels P models) !! name = None
        \/ Registries.embedding (loadModels P models) !! name = None).
Proof.
  intros [Hnodup _].
  destruct (fold_load_entry P models
              {| Registries.chat := ∅; Registries.embedding := ∅ |} Hnodup)
    as [He Hc].
  { intros name _. cbn. split; apply lookup_empty. }
  cbn [Registries.chat Registries.embedding] in He, Hc.
  assert (He' : forall name kept,
             Registries.embedding (loadModels P models) !! name = Some kept
             <-> exists config, In (name, config) models
                                /\ usable P config kept
                                /\ kind_of config = "embedding").
  { intros name kept. unfold loadModels. rewrite He. split.
    - intros [H|H]; [|exact H]. rewrite lookup_empty in H. discriminate.
    - intros H. now right. }
  assert (Hc' : forall name kept,
             Registries.chat (loadModels P models) !! name = Some kept
             <-> exists config, In (name, config) models
                                /\ usable P config kept
                                /\ kind_of config = "chat").
  { intros name kept. unfold loadModels. rewrite Hc. split.
    - intros [H|H]; [|exact H]. rewrite lookup_empty in H. discriminate.
    - intros H. now right. }
  split; [exact He'|]. split; [exact Hc'|].
  intros name.
  destruct (Registries.chat (loadModels P models) !! name) as [c|] eqn:Hchat;
    [|now left].
  destruct (Registries.embedding (loadModels P models) !! name) as [e|]
    eqn:Hemb; [|now right].
  exfalso.
  apply Hc' in Hchat as (config & Hin & _ & Hkind).
  apply He' in Hemb as (config' & Hin' & _ & Hkind').
  assert (config = config').
  { clear - Hnodup Hin Hin'.
    induction models as [|[n c0] models IH]; [destruct Hin|].
    cbn [map fst] in Hnodup. apply NoDup_cons in Hnodup as [Hnotin Hnodup].
    destruct Hin as [Heq|Hin], Hin' as [Heq'|Hin'].
    - congruence.
    - injection Heq as -> ->. exfalso. apply Hnotin.
      apply list_elem_of_In. apply (in_map fst) in Hin'. exact Hin'.
    - injection Heq' as -> ->. exfalso. apply Hnotin.
      apply list_elem_of_In. apply (in_map fst) in Hin. exact Hin.
    - now apply IH. }
  subst config'. rewrite Hkind in Hkind'. discriminate.
Qed.

(** X1. [loadModels] sorts the configured models by type: a name is in
    [embeddingModels] exactly when its entry names a provider with a
    handle and an upstream model and has type 'embedding', in
    [chatModels] exactly when such an entry has type 'chat' or none; the
    entry is kept as it is, and no name is in both registries. *)
Theorem loadModels_sorts_by_type (P : Providers)
    (models : list (string * RawConfig.t)) :
  object_entries models ->
  (forall name kept,
     Registries.embedding (loadModels P models) !! name = Some kept
     <-> exists config, In (name, config) models /\ usable P config kept
                        /\ kind_of config = "embedding")
  /\ (forall name kept,
        Registries.chat (loadModels P models) !! name = Some kept
        <-> exists config, In (name, config) models /\ usable P config kept
                           /\ kind_of config = "chat")
  /\ (forall name,
        Registries.chat (loadModels P models) !! name = None
        \/ Registries.embedding (loadModels P models) !! name = None).
Proof. exact (loadModels_lookup P models). Qed.

Lemma builtin_models_entries : object_entries builtin_models.
Proof.
  split.
  - cbn. repeat (apply NoDup_cons; split;
                 [rewrite !list_elem_of_In; cbn; intuition discriminate|]).
    apply NoDup_nil. exact I.
  - cbn. intuition discriminate.
Qed.

Lemma loadModels_sorts_by_type_witness :
  object_entries builtin_models
  /\ Registries.chat
       (loadModels {| openai := true; google := false; openrouter := false |}
                   builtin_models) !! "gpt-4o-mini"
     = Some {| ModelConfig.provider := "openai";
               ModelConfig.model := "gpt-4o-mini";
               ModelConfig.type := None |}.
Proof.
  split; [exact builtin_models_entries|].
  destruct (loadModels_sorts_by_type
              {| openai := true; google := false; openrouter := false |}
              builtin_models builtin_models_entries) as (_ & Hchat & _).
  apply Hchat.
  exists {| RawConfig.provider := Some "openai";
            RawConfig.model := Some "gpt-4o-mini";
            RawConfig.type := None |}.
  split; [now left|]. split; [|reflexivity].
  unfold usable. cbn. repeat split; discriminate.
Defined.

Lemma kind_of_embedding config :
  kind_of config = "embedding" -> RawConfig.type config = Some "embedding".
Proof.
  unfold kind_of, field_set. destruct (RawConfig.type config) as [t|]; cbn.
  - destruct (String.eqb t ""); cbn; [discriminate|]. now intros ->.
  - discriminate.
Qed.

(** A model the validators accept is an entry of the registry. *)
Lemma validateEmbeddingModel_own E name kept :
  validateEmbeddingModel E (VStr name) = Ok kept ->
  embeddingModels E !! name = Some kept.
Proof.
  unfold validateEmbeddingModel, registry_get. cbn [to_string bindO].
  destruct (embeddingModels E !! name) as [c|].
  - destruct (negb (has_provider _ _)); [discriminate|].
    destruct (negb (kind_is _ _)); [discriminate|]. congruence.
  - destruct (on_object_prototype name); discriminate.
Qed.

Lemma validateChatModel_own E name kept :
  validateChatModel E (VStr name) = Ok kept ->
  chatModels E !! name = Some kept.
Proof.
  unfold validateChatModel, registry_get. cbn [to_string bindO].
  destruct (chatModels E !! name) as [c|].
  - destruct (negb (has_provider _ _)); [discriminate|]. congruence.
  - destruct (on_object_prototype name); discriminate.
Qed.

Lemma loaded_embedding_valid E models name kept :
  object_entries models -> loaded_in E models ->
  embeddingModels E !! name = Some kept ->
  validateEmbeddingModel E (VStr name) = Ok kept.
Proof.
  intros Hentries [_ Hemb] Hin.
  destruct (loadModels_lookup (providers E) models Hentries) as (He & _).
  unfold validateEmbeddingModel, registry_get.
  cbn [to_string bindO]. rewrite Hin.
  rewrite Hemb in Hin.
  apply He in Hin as (config & _ & (_ & _ & _ & _ & Hav & Ht) & Hk).
  rewrite Hav. cbn [negb]. apply kind_of_embedding in Hk.
  rewrite Ht, Hk. reflexivity.
Qed.

Lemma loaded_chat_valid E models name kept :
  object_entries models -> loaded_in E models ->
  chatModels E !! name = Some kept ->
  validateChatModel E (VStr name) = Ok kept.
Proof.
  intros Hentries [Hchat _] Hin.
  destruct (loadModels_lookup (providers E) models Hentries) as (_ & Hc & _).
  unfold validateChatModel, registry_get.
  cbn [to_string bindO]. rewrite Hin.
  rewrite Hchat in Hin.
  apply Hc in Hin as (config & _ & (_ & _ & _ & _ & Hav & _) & _).
  rewrite Hav. reflexivity.
Qed.

(** X2. On registries filled by [loadModels], the validators accept
    exactly the loaded names: the checks on the provider and on the type
    of an entry never fire, and a name loaded as an embedding model is
    none for the chat endpoints, as a chat model is none for the
    embeddings endpoint. *)
Theorem loaded_names_are_the_valid_ones (E : Env)
    (models : list (string * RawConfig.t)) (name : string)
    (kept : ModelConfig.t) :
  object_entries models ->
  loaded_in E models ->
  (validateEmbeddingModel E (VStr name) = Ok kept
   <-> embeddingModels E !! name = Some kept)
  /\ (validateChatModel E (VStr name) = Ok kept
      <-> chatModels E !! name = Some kept)
  /\ (embeddingModels E !! name = Some kept ->
      validateChatModel E (VStr name) =
      Throw (if on_object_prototype name
             then "Provider undefined not available"
             else "Chat model " +:+ name +:+ " not supported"))
  /\ (chatModels E !! name = Some kept ->
      validateEmbeddingModel E (VStr name) =
      Throw (if on_object_prototype name
             then "Provider undefined not available"
             else "Embedding model " +:+ name +:+ " not supported")).
Proof.
  intros Hentries Hloaded.
  destruct (loadModels_lookup (providers E) models Hentries)
    as (_ & _ & Hdisjoint).
  destruct Hloaded as [Hchat Hemb].
  split; [|split; [|split]].
  - split; [apply validateEmbeddingModel_own|].
    now apply loaded_embedding_valid with (models := models).
  - split; [apply validateChatModel_own|].
    now apply loaded_chat_valid with (models := models).
  - intros Hin. destruct (Hdisjoint name) as [Hnone|Hnone].
    + unfold validateChatModel, registry_get. cbn [to_string bindO].
      rewrite Hchat, Hnone. now destruct (on_object_prototype name).
    + rewrite Hemb in Hin. congruence.
  - intros Hin. destruct (Hdisjoint name) as [Hnone|Hnone].
    + rewrite Hchat in Hin. congruence.
    + unfold validateEmbeddingModel, registry_get. cbn [to_string bindO].
      rewrite Hemb, Hnone. now destruct (on_object_prototype name).
Qed.

Lemma models_json_entries : object_entries Sample.models_json.
Proof.
  split.
  - cbn. repeat (apply NoDup_cons; split;
                 [rewrite !list_elem_of_In; cbn; intuition discriminate|]).
    apply NoDup_nil. exact I.
  - cbn. intuition discriminate.
Qed.

Lemma with_models_loaded E models : loaded_in (with_models E models) models.
Proof. split; reflexivity. Qed.

Lemma loaded_names_are_the_valid_ones_witness :
  object_entries Sample.models_json
  /\ loaded_in Sample.env Sample.models_json
  /\ validateEmbeddingModel Sample.env (VStr "qwen-embedding") =
     Ok Demo.qwen_embedding
  /\ validateChatModel Sample.env (VStr "qwen-embedding") =
     Throw "Chat model qwen-embedding not supported".
Proof.
  split; [exact models_json_entries|].
  split; [exact (with_models_loaded Demo.plain Sample.models_json)|].
  destruct (loaded_names_are_the_valid_ones Sample.env Sample.models_json
              "qwen-embedding" Demo.qwen_embedding models_json_entries
              (with_models_loaded Demo.plain Sample.models_json))
    as (Hvalid & _ & Hchat & _).
  assert (Hin : embeddingModels Sample.env !! "qwen-embedding" =
                Some Demo.qwen_embedding) by (vm_compute; reflexivity).
  split; [apply Hvalid; exact Hin|]. exact (Hchat Hin).
Defined.

(** No entry of the built-in table is an embedding model. *)
Lemma builtin_models_embedding P name :
  Registries.embedding (loadModels P builtin_models) !! name = None.
Proof.
  destruct (loadModels_lookup P builtin_models builtin_models_entries)
    as (He & _).
  destruct (Registries.embedding (loadModels P builtin_models) !! name)
    as [kept|] eqn:Hin; [|reflexivity].
  apply He in Hin as (config & Hin & _ & Hkind). exfalso.
  cbn in Hin.
  repeat (destruct Hin as [Hin|Hin];
          [injection Hin as _ <-; discriminate Hkind|]).
  destruct Hin.
Qed.

(** X3. Without a [models.json] the embeddings endpoint serves no model:
    the built-in table holds chat models only, and every request that
    names a model is turned down before any upstream call, with 400 and
    'Embedding model ... not supported' (401 'Provider undefined not
    available' for a name found on [Object.prototype]). *)
Theorem builtin_table_serves_no_embedding (E : Env) (body : value)
    (name : string) (w : World) :
  loaded_in E builtin_models ->
  get body "model" = Ok (VStr name) -> name <> "" ->
  fresh w ->
  post_api_embeddings E body w =
  (Ok tt,
   after_events w
     (if on_object_prototype name
      then [WriteHead 401 "application/json";
            EndWith (Some (error_body "Provider undefined not available"))]
      else [WriteHead 400 "application/json";
            EndWith (Some (error_body ("Embedding model " +:+ name
                                       +:+ " not supported")))])).
Proof.
  intros [_ Hemb] Hname Hne Hfresh.
  assert (Hreject :
            validateEmbeddingRequest E body =
            Throw (if on_object_prototype name
                   then "Provider undefined not available"
                   else "Embedding model " +:+ name +:+ " not supported")).
  { unfold validateEmbeddingRequest. rewrite Hname. cbn [bindO truthy].
    destruct (String.eqb_spec name "") as [->|_]; [now destruct Hne|].
    cbn [negb]. unfold validateEmbeddingModel, registry_get.
    cbn [to_string bindO]. rewrite Hemb, builtin_models_embedding.
    now destruct (on_object_prototype name). }
  rewrite (post_api_embeddings_rejected E body _ w Hreject).
  rewrite (handleEmbeddingError_run _ w Hfresh).
  destruct (on_object_prototype name).
  - reflexivity.
  - rewrite categorize_bad_request; [reflexivity|].
    left. apply includes_append_r, includes_append_r. reflexivity.
Qed.

Lemma builtin_table_serves_no_embedding_witness :
  loaded_in Sample.builtin builtin_models
  /\ post_api_embeddings Sample.builtin
       (Demo.embeddings_request "text-embedding-004" "prompt" (VStr "Hello"))
       initial =
     (Ok tt,
      after_events initial
        [WriteHead 400 "application/json";
         EndWith (Some (error_body
           "Embedding model text-embedding-004 not supported"))]).
Proof.
  split; [exact (with_models_loaded Demo.plain builtin_models)|].
  apply (builtin_table_serves_no_embedding Sample.builtin
           (Demo.embeddings_request "text-embedding-004" "prompt"
                                    (VStr "Hello"))
           "text-embedding-004" initial
           (with_models_loaded Demo.plain builtin_models)).
  - reflexivity.
  - discriminate.
  - reflexivity.
Defined.

(* ===================================================================== *)
(** ** What the client is told when the upstream service fails *)
(* ===================================================================== *)

Section UpstreamFailure.

Variable E : Env.
Variable body : value.
Variable request : EmbeddingRequest.t.
Variables (before : list string) (text : string) (rest : list string).
Variable w : World.

Let modelConfig := EmbeddingRequest.modelConfig request.
Let upstreamModel := ModelConfig.model modelConfig.

Hypothesis Haccepted : validateEmbeddingRequest E body = Ok request.
Hypothesis Hgoogle : ModelConfig.provider modelConfig = "google".
Hypothesis Hkey : env_set (GEMINI_API_KEY E) = true.
Hypothesis Htexts :
  EmbeddingRequest.inputTexts request = before ++ text :: rest.
Hypothesis Hbefore :
  forall j t, before !! j = Some t ->
    is_ok (vector_of_answer j
             (fetch E (length (calls w) + j) upstreamModel t)) = true.
Hypothesis Hfresh : fresh w.

(** The first text that fails ends the request; the failure is what the
    client is told about. *)
Lemma post_api_embeddings_first_failure e :
  vector_of_answer (length before)
    (fetch E (length (calls w) + length before) upstreamModel text) = Throw e ->
  post_api_embeddings E body w =
  (Ok tt,
   after_events
     (after_calls w (map (EmbedContent upstreamModel) (before ++ [text])))
     [WriteHead (fst (categorize e)) "application/json";
      EndWith (Some (error_body (snd (categorize e))))]).
Proof.
  intros Hfail.
  erewrite post_api_embeddings_generation_fails; [| exact Haccepted |].
  - now apply handleEmbeddingError_run.
  - fold modelConfig. rewrite Htexts.
    rewrite generateEmbeddings_google by assumption.
    rewrite (embed_loop_fails E modelConfig before 0 text rest [] w e);
      [reflexivity | exact Hbefore | exact Hfail].
Qed.

End UpstreamFailure.

(** X4. An upstream answer 401 or 429 to one of the texts reaches the
    client with the same status: 401 with 'Google API authentication
    failed. Please check your GEMINI_API_KEY.', 429 with 'Rate limit
    exceeded. Please try again later.'; the text of the upstream answer
    is not passed on, and no later text is sent upstream. *)
Theorem upstream_refusal_keeps_its_status
    (E : Env) (body : value) (request : EmbeddingRequest.t)
    (before : list string) (text : string) (rest : list string) (w : World)
    (status : nat) (data : string) (json : Outcome value) :
  let modelConfig := EmbeddingRequest.modelConfig request in
  let upstreamModel := ModelConfig.model modelConfig in
  validateEmbeddingRequest E body = Ok request ->
  ModelConfig.provider modelConfig = "google" ->
  env_set (GEMINI_API_KEY E) = true ->
  EmbeddingRequest.inputTexts request = before ++ text :: rest ->
  (forall j t, before !! j = Some t ->
     is_ok (vector_of_answer j
              (fetch E (length (calls w) + j) upstreamModel t)) = true) ->
  fresh w ->
  fetch E (length (calls w) + length before) upstreamModel text =
    Response status (Ok data) json ->
  status = 401 \/ status = 429 ->
  post_api_embeddings E body w =
  (Ok tt,
   after_events
     (after_calls w (map (EmbedContent upstreamModel) (before ++ [text])))
     [WriteHead status "application/json";
      EndWith (Some (error_body
        (if (status =? 401)%nat
         then "Google API authentication failed. Please check your GEMINI_API_KEY."
         else "Rate limit exceeded. Please try again later.")))]).
Proof.
  intros modelConfig upstreamModel Haccepted Hgoogle Hkey Htexts Hbefore
         Hfresh Hanswer Hstatus.
  destruct Hstatus as [-> | ->].
  - rewrite (post_api_embeddings_first_failure E body request before text
               rest w Haccepted Hgoogle Hkey Htexts Hbefore Hfresh
               "Google API authentication failed. Please check your GEMINI_API_KEY.").
    + reflexivity.
    + fold modelConfig upstreamModel. rewrite Hanswer. reflexivity.
  - rewrite (post_api_embeddings_first_failure E body request before text
               rest w Haccepted Hgoogle Hkey Htexts Hbefore Hfresh
               "Google API rate limit exceeded. Please try again later.").
    + reflexivity.
    + fold modelConfig upstreamModel. rewrite Hanswer. reflexivity.
Qed.

Lemma upstream_refusal_keeps_its_status_witness :
  let E := Demo.env (Sample.fetch_refusing 1 429 "Resource exhausted")
                    (Demo.stream_of [] None) in
  post_api_embeddings E
    (Demo.embeddings_request "qwen-embedding" "input"
       (VArr [VStr "one"; VStr "two"; VStr "three"])) initial =
  (Ok tt,
   after_events
     (after_calls initial [EmbedContent "text-embedding-004" "one";
                           EmbedContent "text-embedding-004" "two"])
     [WriteHead 429 "application/json";
      EndWith (Some (error_body
                       "Rate limit exceeded. Please try again later."))]).
Proof.
  intros E.
  apply (upstream_refusal_keeps_its_status E
           (Demo.embeddings_request "qwen-embedding" "input"
              (VArr [VStr "one"; VStr "two"; VStr "three"]))
           (Sample.batch_of ["one"; "two"; "three"])
           ["one"] "two" ["three"] initial 429 "Resource exhausted"
           (Throw "no body")).
  - vm_compute; reflexivity.
  - reflexivity.
  - reflexivity.
  - reflexivity.
  - intros [|j] t; simpl; intros [= <-]; reflexivity.
  - reflexivity.
  - reflexivity.
  - now right.
Defined.

Lemma marks_bad_request_append (before message : string) :
  marks_bad_request message -> marks_bad_request (before +:+ message).
Proof.
  unfold marks_bad_request.
  intros [H|[H|[H|[H|[H|[H|H]]]]]];
    apply (includes_append_r before) in H; tauto.
Qed.

(** X5. Any other upstream refusal is classified by its text alone: when
    the text of the upstream answer holds one of the markers of a bad
    request ('must be', 'not supported', ...), the client gets 400
    whatever the upstream status was, and the error it is sent holds the
    upstream text in full. *)
Theorem upstream_text_decides_the_status
    (E : Env) (body : value) (request : EmbeddingRequest.t)
    (before : list string) (text : string) (rest : list string) (w : World)
    (status : nat) (data : string) (json : Outcome value) :
  let modelConfig := EmbeddingRequest.modelConfig request in
  let upstreamModel := ModelConfig.model modelConfig in
  validateEmbeddingRequest E body = Ok request ->
  ModelConfig.provider modelConfig = "google" ->
  env_set (GEMINI_API_KEY E) = true ->
  EmbeddingRequest.inputTexts request = before ++ text :: rest ->
  (forall j t, before !! j = Some t ->
     is_ok (vector_of_answer j
              (fetch E (length (calls w) + j) upstreamModel t)) = true) ->
  fresh w ->
  fetch E (length (calls w) + length before) upstreamModel text =
    Response status (Ok data) json ->
  ok_status status = false -> status <> 401 -> status <> 429 ->
  marks_bad_request data ->
  post_api_embeddings E body w =
  (Ok tt,
   after_events
     (after_calls w (map (EmbedContent upstreamModel) (before ++ [text])))
     [WriteHead 400 "application/json";
      EndWith (Some (error_body
        (if (status =? 400)%nat
         then "Invalid request to Google API: " +:+ data
         else "Google API error (" +:+ decimal status +:+ "): " +:+ data)))]).
Proof.
  intros modelConfig upstreamModel Haccepted Hgoogle Hkey Htexts Hbefore
         Hfresh Hanswer Hstatus H401 H429 Hmarks.
  set (e := if (status =? 400)%nat
            then "Invalid request to Google API: " +:+ data
            else "Google API error (" +:+ decimal status +:+ "): " +:+ data).
  assert (He : categorize e = (400, e)).
  { apply categorize_bad_request. unfold e.
    destruct (status =? 400)%nat;
      repeat apply marks_bad_request_append; exact Hmarks. }
  rewrite (post_api_embeddings_first_failure E body request before text
             rest w Haccepted Hgoogle Hkey Htexts Hbefore Hfresh e).
  - rewrite He. reflexivity.
  - fold modelConfig upstreamModel. rewrite Hanswer.
    unfold vector_of_answer. rewrite Hstatus. cbn [negb bindO].
    apply Nat.eqb_neq in H401, H429. rewrite H401, H429. unfold e.
    now destruct (status =? 400)%nat.
Qed.

Lemma upstream_text_decides_the_status_witness :
  let E := Demo.env
             (Sample.fetch_refusing 0 503
                "The model is overloaded; the deadline must be extended")
             (Demo.stream_of [] None) in
  post_api_embeddings E
    (Demo.embeddings_request "qwen-embedding" "input"
       (VArr [VStr "one"; VStr "two"])) initial =
  (Ok tt,
   after_events
     (after_calls initial [EmbedContent "text-embedding-004" "one"])
     [WriteHead 400 "application/json";
      EndWith (Some (error_body
        "Google API error (503): The model is overloaded; the deadline must be extended"))]).
Proof.
  intros E.
  apply (upstream_text_decides_the_status E
           (Demo.embeddings_request "qwen-embedding" "input"
              (VArr [VStr "one"; VStr "two"]))
           (Sample.batch_of ["one"; "two"])
           [] "one" ["two"] initial 503
           "The model is overloaded; the deadline must be extended"
           (Throw "no body")).
  - vm_compute; reflexivity.
  - reflexivity.
  - reflexivity.
  - reflexivity.
  - intros j t; simpl; intros [= ].
  - reflexivity.
  - reflexivity.
  - reflexivity.
  - discriminate.
  - discriminate.
  - right. right. right. left. vm_compute; reflexivity.
Defined.

(* ===================================================================== *)
(** ** Texts that hold none of the markers *)
(* ===================================================================== *)

Lemma prefix_chars (sub s : string) (c : ascii) :
  String.prefix sub s = true ->
  In c (list_ascii_of_string sub) -> In c (list_ascii_of_string s).
Proof.
  revert s. induction sub as [|d sub IH]; intros s Hp Hin; [destruct Hin|].
  destruct s as [|d' s]; cbn in Hp; [discriminate|].
  destruct (Ascii.ascii_dec d d') as [<-|]; [|discriminate].
  destruct Hin as [<-|Hin]; [now left | right; now apply IH].
Qed.

Lemma includes_chars (s sub : string) (c : ascii) :
  includes s sub = true ->
  In c (list_ascii_of_string sub) -> In c (list_ascii_of_string s).
Proof.
  induction s as [|d s IH]; cbn [includes]; intros H Hin.
  - rewrite orb_false_r in H. now apply (prefix_chars sub).
  - apply orb_true_iff in H as [H|H].
    + now apply (prefix_chars sub).
    + right. now apply IH.
Qed.

(** A text without the letter [c] holds no marker with that letter. *)
Lemma includes_without (s sub : string) (c : ascii) :
  In c (list_ascii_of_string sub) ->
  ~ In c (list_ascii_of_string s) -> includes s sub = false.
Proof.
  intros Hin Hnot. destruct (includes s sub) eqn:H; [|reflexivity].
  destruct Hnot. now apply (includes_chars s sub).
Qed.

Lemma categorize_plain (message : string) :
  plain_text message ->
  categorize message = (500, "Internal server error").
Proof.
  intros Hplain.
  assert (Ho : ~ In "o"%char (list_ascii_of_string message))
    by (intros Hin; eapply List.Forall_forall in Hplain; [|exact Hin]; tauto).
  assert (Hr : ~ In "r"%char (list_ascii_of_string message))
    by (intros Hin; eapply List.Forall_forall in Hplain; [|exact Hin]; tauto).
  assert (Hu : ~ In "u"%char (list_ascii_of_string message))
    by (intros Hin; eapply List.Forall_forall in Hplain; [|exact Hin]; tauto).
  assert (HA : ~ In "A"%char (list_ascii_of_string message))
    by (intros Hin; eapply List.Forall_forall in Hplain; [|exact Hin]; tauto).
  unfold categorize.
  rewrite (includes_without message "not supported" "o"),
    (includes_without message "not an embedding model" "o"),
    (includes_without message "Missing required field" "r"),
    (includes_without message "must be" "u"),
    (includes_without message "cannot be empty" "o"),
    (includes_without message "Too many" "o"),
    (includes_without message "too long" "o"),
    (includes_without message "not available" "o"),
    (includes_without message "API key" "A"),
    (includes_without message "authentication" "u"),
    (includes_without message "unauthorized" "u"),
    (includes_without message "rate limit" "r"),
    (includes_without message "quota" "o"),
    (includes_without message "too many requests" "o"),
    (includes_without message "service unavailable" "r"),
    (includes_without message "timeout" "o");
    try assumption; cbn; tauto.
Qed.

Lemma string_of_uint_digits (d : Decimal.uint) :
  Forall (fun c => is_digit c = true)
         (list_ascii_of_string (NilEmpty.string_of_uint d)).
Proof.
  induction d; cbn; constructor; try reflexivity; assumption.
Qed.

Lemma decimal_plain (n : nat) : plain_text (decimal n).
Proof.
  unfold plain_text, decimal.
  eapply List.Forall_impl; [|apply string_of_uint_digits].
  intros c Hc. repeat split; intros ->; discriminate.
Qed.

Lemma plain_text_append (a b : string) :
  plain_text a -> plain_text b -> plain_text (a +:+ b).
Proof.
  unfold plain_text. rewrite chars_append. intros Ha Hb.
  apply Forall_app. now split.
Qed.

(* ===================================================================== *)
(** ** A request whose texts are all answered with a vector *)
(* ===================================================================== *)

Section Generated.

Variable E : Env.
Variable body : value.
Variable request : EmbeddingRequest.t.
Variable name : value.
Variable vectors : list (list value).
Variable w : World.

Let modelConfig := EmbeddingRequest.modelConfig request.
Let upstreamModel := ModelConfig.model modelConfig.
Let inputTexts := EmbeddingRequest.inputTexts request.

Hypothesis Haccepted : validateEmbeddingRequest E body = Ok request.
Hypothesis Hgoogle : ModelConfig.provider modelConfig = "google".
Hypothesis Hkey : env_set (GEMINI_API_KEY E) = true.
Hypothesis Hname : get body "model" = Ok name.
Hypothesis Hlen : length vectors = length inputTexts.
Hypothesis Hanswers :
  forall i text, inputTexts !! i = Some text ->
    exists vector,
      vectors !! i = Some vector
      /\ answers_with (fetch E (length (calls w) + i) upstreamModel text)
                      vector.

Lemma generateEmbeddings_vectors :
  generateEmbeddings E modelConfig inputTexts w =
  (Ok {| EmbeddingResult.embeddings := map VArr vectors;
         EmbeddingResult.model := upstreamModel;
         EmbeddingResult.dimensions :=
           match map VArr vectors with
           | [] => 0
           | first :: _ => array_length first
           end |},
   after_calls w (map (EmbedContent upstreamModel) inputTexts)).
Proof.
  rewrite generateEmbeddings_google by assumption.
  rewrite (embed_loop_ok E modelConfig inputTexts (map VArr vectors)).
  - reflexivity.
  - now rewrite length_map.
  - intros j text Hj. destruct (Hanswers j text Hj) as (vector & Hv & Ha).
    exists (VArr vector). split.
    + now rewrite list_lookup_fmap, Hv.
    + now apply answers_with_vector.
Qed.

(** The endpoint shapes the vectors, checks the envelope and answers by
    what the check says. *)
Lemma post_api_embeddings_vectors :
  let shaped :=
    envelope (EmbeddingRequest.isSingleText request) (map VArr vectors) name
             (clock E (ticks w)) in
  post_api_embeddings E body w =
  match validateEmbeddingResponse shaped (length vectors) with
  | Ok _ => sendJSON shaped 200 (embedded w request)
  | Throw e => handleEmbeddingError e (embedded w request)
  end.
Proof.
  intros shaped.
  destruct (post_api_embeddings_generated E body request name _ w _
              Haccepted Hname generateEmbeddings_vectors)
    as (response & w2 & Hfmt & _ & _ & Hrun).
  rewrite formatEmbeddingResponse_run in Hfmt. injection Hfmt as <- <-.
  rewrite Hrun. fold inputTexts. rewrite <- Hlen.
  cbn [EmbeddingResult.embeddings].
  unfold shaped, envelope, embedded, after_calls; cbn [ticks calls sink].
  now destruct (EmbeddingRequest.isSingleText request).
Qed.

End Generated.

Lemma check_embeddings_empty (vectors : list (list value)) :
  forall i,
    In [] vectors ->
    exists k,
      check_embeddings i
        (map (fun embedding => VObj [("embedding", embedding)])
             (map VArr vectors)) =
      Throw ("Embedding at index " +:+ decimal k +:+ " is empty").
Proof.
  induction vectors as [|vector vectors IH]; intros i Hin; [destruct Hin|].
  destruct vector as [|x vector].
  - exists i. reflexivity.
  - destruct Hin as [Hin|Hin]; [discriminate|].
    destruct (IH (S i) Hin) as (k & Hk). exists k. exact Hk.
Qed.

Lemma empty_entry_plain (k : nat) :
  plain_text ("Embedding at index " +:+ decimal k +:+ " is empty").
Proof.
  apply plain_text_append; [|apply plain_text_append].
  - unfold plain_text. cbn. repeat constructor; discriminate.
  - apply decimal_plain.
  - unfold plain_text. cbn. repeat constructor; discriminate.
Qed.

(** X6. An upstream answer 200 with an empty vector is not an upstream
    failure: every text is still sent upstream. The client is then told
    400 'Embedding array cannot be empty' when the text came as
    [prompt], but 500 'Internal server error' when the texts came as
    [input]. *)
Theorem empty_vector_answer_depends_on_the_form
    (E : Env) (body : value) (request : EmbeddingRequest.t)
    (vectors : list (list value)) (w : World) :
  let modelConfig := EmbeddingRequest.modelConfig request in
  let inputTexts := EmbeddingRequest.inputTexts request in
  validateEmbeddingRequest E body = Ok request ->
  ModelConfig.provider modelConfig = "google" ->
  env_set (GEMINI_API_KEY E) = true ->
  length vectors = length inputTexts ->
  (forall i text, inputTexts !! i = Some text ->
     exists vector,
       vectors !! i = Some vector
       /\ answers_with (fetch E (length (calls w) + i)
                              (ModelConfig.model modelConfig) text) vector) ->
  In [] vectors ->
  fresh w ->
  post_api_embeddings E body w =
  (Ok tt,
   after_events (embedded w request)
     (if EmbeddingRequest.isSingleText request
      then answer 400 (error_body "Embedding array cannot be empty")
      else answer 500 (error_body "Internal server error"))).
Proof.
  intros modelConfig inputTexts Haccepted Hgoogle Hkey Hlen Hanswers Hempty
         Hfresh.
  destruct (validateEmbeddingRequest_ok E body request Haccepted)
    as (name & prompt & raw & Hname & _ & _ & _ & _ & Htexts & _ & _ & _
        & Hsingle).
  rewrite (post_api_embeddings_vectors E body request name vectors w
             Haccepted Hgoogle Hkey Hname Hlen Hanswers).
  cbv zeta. unfold envelope.
  destruct (EmbeddingRequest.isSingleText request) eqn:Hs.
  - symmetry in Hsingle. apply andb_true_iff in Hsingle as [Hone _].
    apply Nat.eqb_eq in Hone. fold inputTexts in Htexts.
    rewrite Htexts, length_map, Hone in Hlen.
    destruct vectors as [|vector [|]]; try discriminate.
    destruct Hempty as [->|[]].
    cbn [map nth]. unfold validateEmbeddingResponse. simpl.
    now rewrite handleEmbeddingError_run by exact Hfresh.
  - destruct (check_embeddings_empty vectors 0 Hempty) as (k & Hk).
    unfold validateEmbeddingResponse. simpl.
    rewrite !length_map, Nat.eqb_refl. cbn [negb]. rewrite Hk. cbn [bindO].
    rewrite handleEmbeddingError_run by exact Hfresh.
    now rewrite (categorize_plain _ (empty_entry_plain k)).
Qed.

Lemma empty_vector_answer_depends_on_the_form_witness :
  let E := Demo.env (Sample.fetch_empty_at 1) (Demo.stream_of [] None) in
  post_api_embeddings E
    (Demo.embeddings_request "qwen-embedding" "input"
       (VArr [VStr "one"; VStr "two"])) initial =
  (Ok tt,
   {| ticks := 1;
      calls := [EmbedContent "text-embedding-004" "one";
                EmbedContent "text-embedding-004" "two"];
      sink := [WriteHead 500 "application/json";
               EndWith (Some (error_body "Internal server error"))] |}).
Proof.
  intros E.
  apply (empty_vector_answer_depends_on_the_form E
           (Demo.embeddings_request "qwen-embedding" "input"
              (VArr [VStr "one"; VStr "two"]))
           (Sample.batch_of ["one"; "two"])
           [Demo.vector_for 0; []] initial).
  - vm_compute; reflexivity.
  - reflexivity.
  - reflexivity.
  - reflexivity.
  - intros [|[|i]] text; simpl; intros [= <-]; eexists;
      (split; [reflexivity|]); unfold answers_with; do 4 eexists;
      repeat split; reflexivity.
  - right. now left.
  - reflexivity.
Defined.

Section Served.

Variable E : Env.
Variable body : value.
Variable request : EmbeddingRequest.t.
Variable name : value.
Variable vectors : list (list value).
Variable w : World.

Let modelConfig := EmbeddingRequest.modelConfig request.
Let inputTexts := EmbeddingRequest.inputTexts request.

Hypothesis Haccepted : validateEmbeddingRequest E body = Ok request.
Hypothesis Hgoogle : ModelConfig.provider modelConfig = "google".
Hypothesis Hkey : env_set (GEMINI_API_KEY E) = true.
Hypothesis Hname : get body "model" = Ok name.
Hypothesis Hlen : length vectors = length inputTexts.
Hypothesis Hanswers :
  forall i text, inputTexts !! i = Some text ->
    exists vector,
      vectors !! i = Some vector /\ vector <> []
      /\ answers_with (fetch E (length (calls w) + i)
                             (ModelConfig.model modelConfig) text) vector.

Lemma answered_vectors_nonempty : Forall (fun vector => vector <> []) vectors.
Proof.
  apply Forall_lookup_2. intros i vector Hi.
  destruct (lookup_lt_is_Some_2 inputTexts i) as [text Ht].
  { rewrite <- Hlen. now apply lookup_lt_Some in Hi. }
  destruct (Hanswers i text Ht) as (vector' & Hv & Hne & _). congruence.
Qed.

Lemma answered_vectors :
  forall i text, inputTexts !! i = Some text ->
    exists vector,
      vectors !! i = Some vector
      /\ answers_with (fetch E (length (calls w) + i)
                             (ModelConfig.model modelConfig) text) vector.
Proof.
  intros i text Hi. destruct (Hanswers i text Hi) as (vector & Hv & _ & Ha).
  now exists vector.
Qed.

(** The shape of the envelope passes the check: what is left to check
    are the model name and the time stamp (lines 437-445). *)
Lemma validateEmbeddingResponse_shape time :
  validateEmbeddingResponse
    (envelope (EmbeddingRequest.isSingleText request) (map VArr vectors)
              name time) (length vectors) =
  if negb (truthy name) || negb (is_string name)
  then Throw "Response must contain valid model name"
  else if String.eqb time ""
  then Throw "Response must contain valid created_at timestamp"
  else Ok true.
Proof.
  destruct (validateEmbeddingRequest_ok E body request Haccepted)
    as (name' & prompt & raw & _ & _ & _ & _ & _ & Htexts & _ & _ & _
        & Hsingle).
  pose proof answered_vectors_nonempty as Hne.
  unfold envelope.
  destruct (EmbeddingRequest.isSingleText request) eqn:Hs.
  - symmetry in Hsingle. apply andb_true_iff in Hsingle as [Hone _].
    apply Nat.eqb_eq in Hone. fold inputTexts in Htexts.
    rewrite Htexts, length_map, Hone in Hlen.
    destruct vectors as [|vector [|]]; try discriminate.
    inversion Hne as [|? ? Hv _]; subst.
    destruct vector; [contradiction|].
    unfold validateEmbeddingResponse. simpl.
    destruct (negb (truthy name) || negb (is_string name)); [reflexivity|].
    now destruct (String.eqb time "").
  - unfold validateEmbeddingResponse. simpl.
    rewrite !length_map, Nat.eqb_refl. cbn [negb].
    rewrite check_embeddings_entries by assumption. simpl.
    destruct (negb (truthy name) || negb (is_string name)); [reflexivity|].
    now destruct (String.eqb time "").
Qed.

Lemma post_api_embeddings_checked :
  post_api_embeddings E body w =
  if negb (truthy name) || negb (is_string name)
  then handleEmbeddingError "Response must contain valid model name"
                            (embedded w request)
  else if String.eqb (clock E (ticks w)) ""
  then handleEmbeddingError
         "Response must contain valid created_at timestamp"
         (embedded w request)
  else sendJSON (envelope (EmbeddingRequest.isSingleText request)
                          (map VArr vectors) name (clock E (ticks w)))
                200 (embedded w request).
Proof.
  rewrite (post_api_embeddings_vectors E body request name vectors w
             Haccepted Hgoogle Hkey Hname Hlen answered_vectors).
  cbv zeta. rewrite validateEmbeddingResponse_shape.
  destruct (negb (truthy name) || negb (is_string name)); [reflexivity|].
  now destruct (String.eqb (clock E (ticks w)) "").
Qed.

End Served.

(** X7. A [model] that is not a string but reads as the name of an
    embedding model (such as a one-element array) passes the validation
    of the request; every text is sent upstream and answered, and only
    then is the request turned down, with 500 'Internal server error'. *)
Theorem model_that_is_no_string_fails_late
    (E : Env) (body : value) (request : EmbeddingRequest.t) (name : value)
    (vectors : list (list value)) (w : World) :
  let modelConfig := EmbeddingRequest.modelConfig request in
  let inputTexts := EmbeddingRequest.inputTexts request in
  validateEmbeddingRequest E body = Ok request ->
  ModelConfig.provider modelConfig = "google" ->
  env_set (GEMINI_API_KEY E) = true ->
  get body "model" = Ok name -> is_string name = false ->
  length vectors = length inputTexts ->
  (forall i text, inputTexts !! i = Some text ->
     exists vector,
       vectors !! i = Some vector /\ vector <> []
       /\ answers_with (fetch E (length (calls w) + i)
                              (ModelConfig.model modelConfig) text) vector) ->
  fresh w ->
  post_api_embeddings E body w =
  (Ok tt,
   after_events (embedded w request)
     (answer 500 (error_body "Internal server error"))).
Proof.
  intros modelConfig inputTexts Haccepted Hgoogle Hkey Hname Hstring Hlen
         Hanswers Hfresh.
  rewrite (post_api_embeddings_checked E body request name vectors w
             Haccepted Hgoogle Hkey Hname Hlen Hanswers).
  rewrite Hstring, orb_true_r.
  now rewrite handleEmbeddingError_run by exact Hfresh.
Qed.

Lemma model_that_is_no_string_fails_late_witness :
  post_api_embeddings Demo.plain
    (VObj [("model", VArr [VStr "qwen-embedding"]);
           ("input", VArr [VStr "one"; VStr "two"])]) initial =
  (Ok tt,
   {| ticks := 1;
      calls := [EmbedContent "text-embedding-004" "one";
                EmbedContent "text-embedding-004" "two"];
      sink := [WriteHead 500 "application/json";
               EndWith (Some (error_body "Internal server error"))] |}).
Proof.
  apply (model_that_is_no_string_fails_late Demo.plain
           (VObj [("model", VArr [VStr "qwen-embedding"]);
                  ("input", VArr [VStr "one"; VStr "two"])])
           (Sample.batch_of ["one"; "two"])
           (VArr [VStr "qwen-embedding"])
           [Demo.vector_for 0; Demo.vector_for 1] initial).
  - vm_compute; reflexivity.
  - reflexivity.
  - reflexivity.
  - reflexivity.
  - reflexivity.
  - reflexivity.
  - intros [|[|i]] text; simpl; intros [= <-]; eexists;
      (split; [reflexivity|]); (split; [discriminate|]);
      apply fetch_ok_answers.
  - reflexivity.
Defined.

Lemma post_api_embeddings_served
    (E : Env) (body : value) (request : EmbeddingRequest.t) (name : string)
    (vectors : list (list value)) (w : World) :
  let modelConfig := EmbeddingRequest.modelConfig request in
  let inputTexts := EmbeddingRequest.inputTexts request in
  validateEmbeddingRequest E body = Ok request ->
  ModelConfig.provider modelConfig = "google" ->
  env_set (GEMINI_API_KEY E) = true ->
  get body "model" = Ok (VStr name) ->
  clock E (ticks w) <> "" ->
  length vectors = length inputTexts ->
  (forall i text, inputTexts !! i = Some text ->
     exists vector,
       vectors !! i = Some vector /\ vector <> []
       /\ answers_with (fetch E (length (calls w) + i)
                              (ModelConfig.model modelConfig) text) vector) ->
  post_api_embeddings E body w =
  (Ok tt,
   after_events (embedded w request)
     (answer 200 (envelope (EmbeddingRequest.isSingleText request)
                           (map VArr vectors) (VStr name)
                           (clock E (ticks w))))).
Proof.
  intros modelConfig inputTexts Haccepted Hgoogle Hkey Hname Hclock Hlen
         Hanswers.
  rewrite (post_api_embeddings_checked E body request (VStr name) vectors w
             Haccepted Hgoogle Hkey Hname Hlen Hanswers).
  destruct (validateEmbeddingRequest_ok E body request Haccepted)
    as (name' & _ & _ & Hname' & Htruthy & _).
  rewrite Hname in Hname'. injection Hname' as <-.
  rewrite Htruthy. cbn [negb is_string orb].
  destruct (String.eqb_spec (clock E (ticks w)) ""); [contradiction|].
  apply sendJSON_run.
Qed.

(** X8. Nothing is remembered between requests: the same request sent
    again makes the same upstream calls once more, and is answered with
    the vectors of the second round of calls. *)
Theorem repeated_request_is_sent_upstream_again
    (E : Env) (body : value) (request : EmbeddingRequest.t) (name : string)
    (first second : list (list value)) (w : World) :
  let modelConfig := EmbeddingRequest.modelConfig request in
  let inputTexts := EmbeddingRequest.inputTexts request in
  let single := EmbeddingRequest.isSingleText request in
  let round := map (EmbedContent (ModelConfig.model modelConfig)) inputTexts in
  validateEmbeddingRequest E body = Ok request ->
  ModelConfig.provider modelConfig = "google" ->
  env_set (GEMINI_API_KEY E) = true ->
  get body "model" = Ok (VStr name) ->
  (forall t, clock E t <> "") ->
  length first = length inputTexts ->
  length second = length inputTexts ->
  (forall i text, inputTexts !! i = Some text ->
     exists vector,
       first !! i = Some vector /\ vector <> []
       /\ answers_with (fetch E (length (calls w) + i)
                              (ModelConfig.model modelConfig) text) vector) ->
  (forall i text, inputTexts !! i = Some text ->
     exists vector,
       second !! i = Some vector /\ vector <> []
       /\ answers_with (fetch E (length (calls w) + length inputTexts + i)
                              (ModelConfig.model modelConfig) text) vector) ->
  exists w1 w2,
    post_api_embeddings E body w = (Ok tt, w1)
    /\ post_api_embeddings E body (next_request w1) = (Ok tt, w2)
    /\ sink w1 =
       sink w ++ answer 200 (envelope single (map VArr first) (VStr name)
                                      (clock E (ticks w)))
    /\ sink w2 =
       answer 200 (envelope single (map VArr second) (VStr name)
                            (clock E (S (ticks w))))
    /\ calls w2 = calls w ++ round ++ round.
Proof.
  intros modelConfig inputTexts single round Haccepted Hgoogle Hkey Hname
         Hclock Hfirst Hsecond Hanswers1 Hanswers2.
  eexists _, _. split; [|split].
  - apply (post_api_embeddings_served E body request name first w);
      auto.
  - apply (post_api_embeddings_served E body request name second); auto.
    intros i text Hi. cbn [next_request after_events embedded calls].
    rewrite length_app, length_map.
    apply Hanswers2. exact Hi.
  - cbn [after_events next_request embedded sink calls ticks].
    split; [reflexivity|]. split; [reflexivity|].
    now rewrite <- app_assoc.
Qed.

Lemma repeated_request_is_sent_upstream_again_witness :
  let body := Demo.embeddings_request "qwen-embedding" "input"
                (VArr [VStr "one"; VStr "two"]) in
  let round := [EmbedContent "text-embedding-004" "one";
                EmbedContent "text-embedding-004" "two"] in
  exists w1 w2,
    post_api_embeddings Demo.plain body initial = (Ok tt, w1)
    /\ post_api_embeddings Demo.plain body (next_request w1) = (Ok tt, w2)
    /\ sink w1 =
       answer 200 (envelope false
                     [VArr (Demo.vector_for 0); VArr (Demo.vector_for 1)]
                     (VStr "qwen-embedding") "2025-01-01T00:00:00Z")
    /\ sink w2 =
       answer 200 (envelope false
                     [VArr (Demo.vector_for 2); VArr (Demo.vector_for 3)]
                     (VStr "qwen-embedding") "2025-01-01T00:00:01Z")
    /\ calls w2 = round ++ round.
Proof.
  intros body round.
  apply (repeated_request_is_sent_upstream_again Demo.plain body
           (Sample.batch_of ["one"; "two"]) "qwen-embedding"
           [Demo.vector_for 0; Demo.vector_for 1]
           [Demo.vector_for 2; Demo.vector_for 3] initial).
  - vm_compute; reflexivity.
  - reflexivity.
  - reflexivity.
  - reflexivity.
  - intros t. discriminate.
  - reflexivity.
  - reflexivity.
  - intros [|[|i]] text; simpl; intros [= <-]; eexists;
      (split; [reflexivity|]); (split; [discriminate|]);
      apply fetch_ok_answers.
  - intros [|[|i]] text; simpl; intros [= <-]; eexists;
      (split; [reflexivity|]); (split; [discriminate|]);
      apply fetch_ok_answers.
Defined.

(* ===================================================================== *)
(** ** [prompt] and [input] in one request *)
(* ===================================================================== *)

(** X9. [prompt] takes precedence over [input]: with a prompt that is a
    non-blank string the request is one text, the trimmed prompt,
    answered in the single form, whatever [input] holds; with any other
    truthy prompt the request is turned down although [input] may hold
    valid texts. *)
Theorem prompt_takes_precedence_over_input
    (E : Env) (body name prompt : value) (modelConfig : ModelConfig.t) :
  get body "model" = Ok name -> truthy name = true ->
  validateEmbeddingModel E name = Ok modelConfig ->
  get body "prompt" = Ok prompt -> truthy prompt = true ->
  validateEmbeddingRequest E body =
  match prompt with
  | VStr s =>
      if String.eqb (trim s) "" then Throw "Prompt must be a non-empty string"
      else if (maxTextLength <? String.length (trim s))%nat
      then Throw "Input text at index 0 is too long. Maximum length: 10000 characters"
      else Ok {| EmbeddingRequest.modelConfig := modelConfig;
                 EmbeddingRequest.inputTexts := [trim s];
                 EmbeddingRequest.isSingleText := true |}
  | _ => Throw "Prompt must be a non-empty string"
  end.
Proof.
  intros Hname Htruthy Hconfig Hprompt Hset.
  rewrite (validateEmbeddingRequest_texts E body name prompt modelConfig
             Hname Htruthy Hconfig Hprompt).
  unfold input_texts. rewrite Hset.
  destruct prompt; try reflexivity.
  destruct (String.eqb (trim s) ""); [reflexivity|].
  cbn [bindO length]. 
  replace (maxTexts <? 1)%nat with false by reflexivity.
  cbn [check_lengths].
  destruct (maxTextLength <? String.length (trim s))%nat; reflexivity.
Qed.

Lemma prompt_takes_precedence_over_input_witness :
  validateEmbeddingRequest Demo.plain
    (VObj [("model", VStr "qwen-embedding"); ("prompt", VStr "  Hello ");
           ("input", VArr [VNum "5"; VNull])]) =
  Ok {| EmbeddingRequest.modelConfig := Demo.qwen_embedding;
        EmbeddingRequest.inputTexts := ["Hello"];
        EmbeddingRequest.isSingleText := true |}.
Proof.
  apply (prompt_takes_precedence_over_input Demo.plain
           (VObj [("model", VStr "qwen-embedding"); ("prompt", VStr "  Hello ");
                  ("input", VArr [VNum "5"; VNull])])
           (VStr "qwen-embedding") (VStr "  Hello ") Demo.qwen_embedding).
  - reflexivity.
  - reflexivity.
  - vm_compute; reflexivity.
  - reflexivity.
  - reflexivity.
Defined.

(* ===================================================================== *)
(** ** The API key of an accepted request *)
(* ===================================================================== *)

Lemma validateEmbeddingModel_provider E name modelConfig :
  validateEmbeddingModel E name = Ok modelConfig ->
  has_provider (providers E) (ModelConfig.provider modelConfig) = true.
Proof.
  unfold validateEmbeddingModel.
  destruct (to_string name) as [key|]; cbn [bindO]; [|discriminate].
  destruct (registry_get (embeddingModels E) key) as [config| |];
    try discriminate.
  destruct (has_provider (providers E) (ModelConfig.provider config)) eqn:H;
    cbn [negb]; [|discriminate].
  destruct (negb (kind_is _ _)); [discriminate|]. now intros [= <-].
Qed.

Lemma handleEmbeddingError_calls e w :
  calls (snd (handleEmbeddingError e w)) = calls w.
Proof.
  unfold handleEmbeddingError. destruct (categorize e) as [status message].
  unfold bind, headersSent.
  destruct (negb (existsb is_write_head (sink w))); reflexivity.
Qed.

(** The handler makes no upstream call beyond those of
    [generateEmbeddings]. *)
Lemma post_api_embeddings_calls E body request w :
  validateEmbeddingRequest E body = Ok request ->
  calls (snd (post_api_embeddings E body w)) =
  calls (snd (generateEmbeddings E (EmbeddingRequest.modelConfig request)
                (EmbeddingRequest.inputTexts request) w)).
Proof.
  intros Haccepted.
  destruct (generateEmbeddings E (EmbeddingRequest.modelConfig request)
              (EmbeddingRequest.inputTexts request) w)
    as [[result|e] w1] eqn:Hgen.
  - destruct (validateEmbeddingRequest_ok E body request Haccepted)
      as (name & _ & _ & Hname & _).
    destruct (post_api_embeddings_generated E body request name result w w1
                Haccepted Hname Hgen)
      as (response & w2 & _ & _ & Hcalls & ->).
    destruct (validateEmbeddingResponse response _).
    + rewrite sendJSON_run. exact Hcalls.
    + rewrite handleEmbeddingError_calls. exact Hcalls.
  - rewrite (post_api_embeddings_generation_fails E body request e w w1
               Haccepted Hgen).
    apply handleEmbeddingError_calls.
Qed.

(** X10. In a started process the check of [GEMINI_API_KEY] in
    [generateEmbeddings] cannot fail for a request that passed the
    validation: a Google model is only valid when the handle made from
    that key exists. The first text of such a request is always sent
    upstream. *)
Theorem accepted_google_request_reaches_upstream
    (E : Env) (body : value) (request : EmbeddingRequest.t) (w : World) :
  let modelConfig := EmbeddingRequest.modelConfig request in
  started E ->
  validateEmbeddingRequest E body = Ok request ->
  ModelConfig.provider modelConfig = "google" ->
  env_set (GEMINI_API_KEY E) = true
  /\ exists text rest more,
       EmbeddingRequest.inputTexts request = text :: rest
       /\ calls (snd (post_api_embeddings E body w)) =
          calls w ++ EmbedContent (ModelConfig.model modelConfig) text :: more.
Proof.
  intros modelConfig Hstarted Haccepted Hgoogle.
  destruct (validateEmbeddingRequest_ok E body request Haccepted)
    as (name & prompt & raw & _ & _ & Hconfig & _ & _ & Htexts & _ & Hcount
        & _).
  assert (Hkey : env_set (GEMINI_API_KEY E) = true).
  { apply validateEmbeddingModel_provider in Hconfig.
    fold modelConfig in Hconfig. rewrite Hgoogle in Hconfig.
    rewrite <- Hstarted. unfold has_provider in Hconfig. cbn in Hconfig.
    now rewrite !orb_false_r in Hconfig. }
  split; [exact Hkey|].
  destruct raw as [|first raw]; [cbn in Hcount; lia|].
  cbn [map] in Htexts.
  exists (trim first), (map trim raw).
  rewrite (post_api_embeddings_calls E body request w Haccepted).
  fold modelConfig. rewrite Htexts.
  rewrite generateEmbeddings_google by assumption.
  rewrite embed_loop_step.
  destruct (vector_of_answer 0 _) as [v|e].
  - destruct (embed_loop_calls E modelConfig (map trim raw) 1 ([] ++ [v])
                (after_calls w [EmbedContent (ModelConfig.model modelConfig)
                                             (trim first)]))
      as (n & _ & Hcalls & _).
    destruct (embed_loop E modelConfig 1 (map trim raw) ([] ++ [v]) _)
      as [[embeddings|e] w1]; cbn [snd] in Hcalls |- *;
      rewrite Hcalls; cbn [after_calls calls]; rewrite <- app_assoc;
      eexists; (split; [reflexivity|]); reflexivity.
  - exists []. split; reflexivity.
Qed.

Lemma accepted_google_request_reaches_upstream_witness :
  started Demo.plain
  /\ env_set (GEMINI_API_KEY Demo.plain) = true
  /\ exists text rest more,
       [ "Hello" ] = text :: rest
       /\ calls (snd (post_api_embeddings Demo.plain
                        (Demo.embeddings_request "qwen-embedding" "prompt"
                                                 (VStr "Hello")) initial)) =
          EmbedContent "text-embedding-004" text :: more.
Proof.
  split; [reflexivity|].
  apply (accepted_google_request_reaches_upstream Demo.plain
           (Demo.embeddings_request "qwen-embedding" "prompt" (VStr "Hello"))
           {| EmbeddingRequest.modelConfig := Demo.qwen_embedding;
              EmbeddingRequest.inputTexts := ["Hello"];
              EmbeddingRequest.isSingleText := true |} initial).
  - reflexivity.
  - vm_compute; reflexivity.
  - reflexivity.
Defined.

(* ===================================================================== *)
(** ** Chat and generate requests *)
(* ===================================================================== *)

Section ChunkModel.

Variable E : Env.
Variables modelName responseKey : string.

Lemma with_content_model time done content :
  get (with_content (chunk_head modelName time done) responseKey content)
      "model" = Ok (VStr modelName).
Proof.
  unfold with_content.
  destruct (String.eqb responseKey "message"); [reflexivity|].
  now destruct (String.eqb responseKey "response").
Qed.

Lemma delta_chunks_model (deltas : list string) :
  forall t,
    Forall (fun chunk => get chunk "model" = Ok (VStr modelName))
           (delta_chunks E modelName responseKey t deltas).
Proof.
  induction deltas as [|delta deltas IH]; intros t; cbn [delta_chunks];
    constructor; [apply with_content_model | apply IH].
Qed.

Lemma final_chunk_model time reasoning :
  get (final_chunk modelName time responseKey reasoning) "model" =
  Ok (VStr modelName).
Proof.
  unfold final_chunk, with_content.
  destruct (truthy reasoning), (String.eqb responseKey "message");
    try reflexivity;
    now destruct (String.eqb responseKey "response").
Qed.

Lemma error_chunk_model time e :
  get (error_chunk modelName time e) "model" = Ok (VStr modelName).
Proof. reflexivity. Qed.

End ChunkModel.

Section ChatRequest.

Variable E : Env.
Variable messageExtractor : value -> Outcome value.
Variable responseKey : string.
Variables body name options stream extracted : value.
Variable modelConfig : ModelConfig.t.
Variable model : string * string.
Variable validMessages : list Message.t.
Variable w : World.

Hypothesis Hfields : destructure body = Ok (name, options, stream).
Hypothesis Hmodel : validateChatModel E name = Ok modelConfig.
Hypothesis Hhandle : provider_handle (providers E) modelConfig = Ok model.
Hypothesis Hextracted : messageExtractor body = Ok extracted.
Hypothesis Hprepared :
  prepareMessages (or_else extracted (VArr [])) = Ok validMessages.
Hypothesis Hvalid : validMessages <> [].

(** A streamed request is in the hands of [streamResponse]. *)
Lemma handleModelGenerationRequest_streams :
  truthy stream = true ->
  handleModelGenerationRequest E messageExtractor responseKey body w =
  streamResponse E modelConfig (or_else extracted (VArr [])) options
                 responseKey w.
Proof.
  intros Hstream.
  assert (Hattempt :
            generation_attempt E messageExtractor responseKey body w =
            streamResponse E modelConfig (or_else extracted (VArr []))
                           options responseKey w).
  { unfold generation_attempt. rewrite bind_lift, Hfields. cbn beta iota.
    now rewrite bind_lift, Hmodel, bind_lift, Hextracted, Hstream. }
  unfold handleModelGenerationRequest, try_catch. rewrite Hattempt.
  pose proof (streamResponse_started E modelConfig
                (or_else extracted (VArr [])) options responseKey model
                validMessages w Hhandle Hprepared Hvalid) as Hrun.
  cbv zeta in Hrun. rewrite Hrun.
  destruct (call_args _ _ _ _) as [args|e]; [|reflexivity].
  now destruct (streamText E (length (calls w)) args).
Qed.

(** The chunks of a streamed answer. *)
Lemma streamed_chunks :
  truthy stream = true ->
  exists chunks w1,
    handleModelGenerationRequest E messageExtractor responseKey body w =
      (Ok tt, w1)
    /\ sink w1 =
       sink w ++ WriteHead 200 "application/x-ndjson"
              :: map Write chunks ++ [EndWith None]
    /\ chunks <> []
    /\ Forall (fun chunk =>
                 get chunk "model" = Ok (VStr (ModelConfig.model modelConfig)))
              chunks.
Proof.
  intros Hstream. rewrite (handleModelGenerationRequest_streams Hstream).
  pose proof (streamResponse_started E modelConfig
                (or_else extracted (VArr [])) options responseKey model
                validMessages w Hhandle Hprepared Hvalid) as Hrun.
  cbv zeta in Hrun. rewrite Hrun.
  destruct (call_args _ _ _ _) as [args|e].
  - destruct (streamText E (length (calls w)) args) as [result|e].
    + eexists (delta_chunks E (ModelConfig.model modelConfig) responseKey
                 (ticks w) (StreamResult.textStream result) ++ [_]), _.
      split; [reflexivity|]. cbn [sink].
      split; [|split].
      * rewrite map_app, <- !app_assoc. reflexivity.
      * now destruct (delta_chunks _ _ _ _ _).
      * apply Forall_app. split; [apply delta_chunks_model|].
        constructor; [|constructor].
        destruct (StreamResult.failure result);
          [apply error_chunk_model | apply final_chunk_model].
    + eexists [_], _. split; [reflexivity|]. cbn [sink map].
      split; [now rewrite <- app_assoc|]. split; [discriminate|].
      constructor; [apply error_chunk_model | constructor].
  - eexists [_], _. split; [reflexivity|]. cbn [sink map].
    split; [now rewrite <- app_assoc|]. split; [discriminate|].
    constructor; [apply error_chunk_model | constructor].
Qed.

(** A request that is not streamed makes one call of [generateText]; the
    answer is built from what the call returns, or the failure of the
    call is passed on. *)
Lemma handleModelGenerationRequest_generates args :
  truthy stream = false ->
  call_args model validMessages (default_to (VObj []) options)
            (fun num_predict => or_else num_predict (VNum "32768")) = Ok args ->
  fresh w ->
  exists data,
    handleModelGenerationRequest E messageExtractor responseKey body w =
    match (let? result := generateText E (length (calls w)) args in
           assemble_result result) with
    | Ok reply =>
        (Ok tt,
         {| ticks := S (ticks w);
            calls := calls w ++ [GenerateText args];
            sink := sink w ++ answer 200 (data reply) |})
    | Throw e =>
        (Ok tt,
         after_events (after_calls w [GenerateText args])
                      (answer 500 (error_body e)))
    end
    /\ forall reply,
         get (data reply) "model" = Ok name
         /\ get (data reply) "done" = Ok (VBool true)
         /\ get (data reply) "created_at" = Ok (VStr (clock E (ticks w))).
Proof.
  intros Hstream Hargs Hfresh.
  pose proof (generateResponse_run E modelConfig
                (or_else extracted (VArr [])) options model validMessages
                args w Hhandle Hprepared Hvalid Hargs) as Hgen.
  eexists (fun reply => _). split.
  - unfold handleModelGenerationRequest, try_catch, generation_attempt.
    rewrite bind_lift, Hfields. cbn beta iota.
    rewrite bind_lift, Hmodel, bind_lift, Hextracted, Hstream.
    unfold bind at 1. rewrite Hgen.
    destruct (let? result := generateText E (length (calls w)) args in
              assemble_result result) as [reply|e].
    + unfold bind at 1, now. cbv beta iota zeta. rewrite sendJSON_run.
      cbn [after_events after_calls ticks calls sink]. reflexivity.
    + now apply generation_failed_fresh.
  - intros reply. cbv beta.
    destruct (String.eqb responseKey "message"),
      (String.eqb responseKey "response"),
      (truthy (GenerateResult.reasoning reply)),
      (truthy (GenerateResult.messages reply)); repeat split; reflexivity.
Qed.

End ChatRequest.

(** X11. The two forms of an answer, for a model of a provider with a
    handle, name the model differently: every object of a streamed
    answer carries the upstream model id of the configuration, while an
    answer that is not streamed carries the [model] of the request as it
    was sent. *)
Theorem answers_name_the_model
    (E : Env) (messageExtractor : value -> Outcome value)
    (responseKey : string) (body name options stream extracted : value)
    (modelConfig : ModelConfig.t) (validMessages : list Message.t)
    (w : World) :
  destructure body = Ok (name, options, stream) ->
  validateChatModel E name = Ok modelConfig ->
  own_handle (providers E) (ModelConfig.provider modelConfig) = true ->
  messageExtractor body = Ok extracted ->
  prepareMessages (or_else extracted (VArr [])) = Ok validMessages ->
  validMessages <> [] ->
  fresh w ->
  (truthy stream = true ->
   exists chunks w1,
     handleModelGenerationRequest E messageExtractor responseKey body w =
       (Ok tt, w1)
     /\ sink w1 =
        sink w ++ WriteHead 200 "application/x-ndjson"
               :: map Write chunks ++ [EndWith None]
     /\ chunks <> []
     /\ Forall (fun chunk =>
                  get chunk "model" =
                  Ok (VStr (ModelConfig.model modelConfig))) chunks)
  /\ (truthy stream = false ->
      forall args result reply,
        call_args (model_handle modelConfig) validMessages
                  (default_to (VObj []) options)
                  (fun num_predict => or_else num_predict (VNum "32768")) =
          Ok args ->
        generateText E (length (calls w)) args = Ok result ->
        assemble_result result = Ok reply ->
        exists data w1,
          handleModelGenerationRequest E messageExtractor responseKey body w =
            (Ok tt, w1)
          /\ sink w1 = sink w ++ answer 200 data
          /\ get data "model" = Ok name).
Proof.
  intros Hfields Hmodel Hown Hextracted Hprepared Hvalid Hfresh.
  apply provider_handle_own in Hown. split.
  - intros Hstream.
    exact (streamed_chunks E messageExtractor responseKey body name options
             stream extracted modelConfig (model_handle modelConfig)
             validMessages w Hfields Hmodel Hown Hextracted Hprepared Hvalid
             Hstream).
  - intros Hstream args result reply Hargs Hcall Hreply.
    destruct (handleModelGenerationRequest_generates E messageExtractor
                responseKey body name options stream extracted modelConfig
                (model_handle modelConfig) validMessages w Hfields Hmodel
                Hown Hextracted Hprepared Hvalid args Hstream Hargs Hfresh)
      as (data & Hrun & Hdata).
    rewrite Hcall in Hrun. cbn [bindO] in Hrun. rewrite Hreply in Hrun.
    eexists (data reply), _. split; [exact Hrun|].
    split; [reflexivity|]. apply Hdata.
Qed.

Lemma answers_name_the_model_witness :
  exists chunks w1,
    post_api_chat Demo.plain
      (Sample.chat_request "gpt-4o-mini" "Why is the sky blue?" true)
      initial = (Ok tt, w1)
    /\ sink w1 =
       [] ++ WriteHead 200 "application/x-ndjson"
          :: map Write chunks ++ [EndWith None]
    /\ chunks <> []
    /\ Forall (fun chunk => get chunk "model" = Ok (VStr "gpt-4o-mini"))
              chunks.
Proof.
  destruct (answers_name_the_model Demo.plain
              (fun body => get body "messages") "message"
              (Sample.chat_request "gpt-4o-mini" "Why is the sky blue?" true)
              (VStr "gpt-4o-mini") (VObj []) (VBool true)
              (VArr [VObj [("role", VStr "user");
                           ("content", VStr "Why is the sky blue?")]])
              Demo.gpt_4o_mini (Sample.user_says "Why is the sky blue?")
              initial) as [Hstreamed _].
  - reflexivity.
  - vm_compute; reflexivity.
  - reflexivity.
  - reflexivity.
  - vm_compute; reflexivity.
  - discriminate.
  - reflexivity.
  - exact (Hstreamed eq_refl).
Defined.

(** X12. When [generateText] fails for a request that is not streamed,
    for a model of a provider with a handle, the client of the chat and
    generate endpoints gets 500 with the message of the upstream failure
    as it is; one upstream call was made. *)
Theorem generation_failure_is_passed_on
    (E : Env) (messageExtractor : value -> Outcome value)
    (responseKey : string) (body name options stream extracted : value)
    (modelConfig : ModelConfig.t) (validMessages : list Message.t)
    (args : GenArgs.t) (e : string) (w : World) :
  destructure body = Ok (name, options, stream) ->
  validateChatModel E name = Ok modelConfig ->
  own_handle (providers E) (ModelConfig.provider modelConfig) = true ->
  messageExtractor body = Ok extracted ->
  prepareMessages (or_else extracted (VArr [])) = Ok validMessages ->
  validMessages <> [] ->
  truthy stream = false ->
  call_args (model_handle modelConfig) validMessages
            (default_to (VObj []) options)
            (fun num_predict => or_else num_predict (VNum "32768")) = Ok args ->
  generateText E (length (calls w)) args = Throw e ->
  fresh w ->
  handleModelGenerationRequest E messageExtractor responseKey body w =
  (Ok tt,
   after_events (after_calls w [GenerateText args])
                (answer 500 (error_body e))).
Proof.
  intros Hfields Hmodel Hown Hextracted Hprepared Hvalid Hstream Hargs Hcall
         Hfresh.
  apply provider_handle_own in Hown.
  destruct (handleModelGenerationRequest_generates E messageExtractor
              responseKey body name options stream extracted modelConfig
              (model_handle modelConfig) validMessages w Hfields Hmodel Hown
              Hextracted Hprepared Hvalid args Hstream Hargs Hfresh)
    as (data & Hrun & _).
  rewrite Hcall in Hrun. exact Hrun.
Qed.

Lemma generation_failure_is_passed_on_witness :
  let args :=
    {| GenArgs.model := ("openai", "gpt-4o-mini");
       GenArgs.messages := Sample.user_says "Hi";
       GenArgs.temperature := VUndefined;
       GenArgs.maxTokens := VNum "32768";
       GenArgs.topP := VUndefined |} in
  post_api_chat (Sample.failing_chat "You exceeded your current quota")
    (Sample.chat_request "gpt-4o-mini" "Hi" false) initial =
  (Ok tt,
   after_events (after_calls initial [GenerateText args])
     (answer 500 (error_body "You exceeded your current quota"))).
Proof.
  intros args.
  apply (generation_failure_is_passed_on
           (Sample.failing_chat "You exceeded your current quota")
           (fun body => get body "messages") "message"
           (Sample.chat_request "gpt-4o-mini" "Hi" false)
           (VStr "gpt-4o-mini") (VObj []) (VBool false)
           (VArr [VObj [("role", VStr "user"); ("content", VStr "Hi")]])
           Demo.gpt_4o_mini (Sample.user_says "Hi")).
  - reflexivity.
  - vm_compute; reflexivity.
  - reflexivity.
  - reflexivity.
  - vm_compute; reflexivity.
  - discriminate.
  - reflexivity.
  - reflexivity.
  - reflexivity.
  - reflexivity.
Defined.

(* ===================================================================== *)
(** ** The reply taken from what [generateText] returns *)
(* ===================================================================== *)

Lemma or_else_text (a : value) :
  truthy (or_else a (VStr "")) = true \/ or_else a (VStr "") = VStr "".
Proof. unfold or_else. destruct (truthy a) eqn:H; [now left | now right]. Qed.

(** Only an object can have the role of the assistant. *)
Lemma assistant_is_truthy (msg role : value) :
  get msg "role" = Ok role -> strict_eq_str role "assistant" = true ->
  truthy msg = true.
Proof.
  destruct msg as [| |b|t|s|elems|props|]; cbn; try discriminate;
    try reflexivity; intros [= <-]; discriminate.
Qed.

Lemma filter_assistant_app (before after : list value) :
  forall kept,
    filter_assistant before = Ok kept ->
    filter_assistant (before ++ after) =
    let? others := filter_assistant after in Ok (kept ++ others).
Proof.
  induction before as [|msg before IH]; intros kept H.
  - injection H as <-. cbn. now destruct (filter_assistant after).
  - cbn [filter_assistant app] in H |- *.
    destruct (get msg "role") as [role|]; cbn [bindO] in H |- *;
      [|discriminate].
    destruct (filter_assistant before) as [others|]; cbn [bindO] in H |- *;
      [|discriminate].
    rewrite (IH others eq_refl). injection H as <-.
    destruct (filter_assistant after); cbn [bindO]; [|reflexivity].
    now destruct (strict_eq_str role "assistant").
Qed.

Lemma filter_assistant_total (msgs : list value) :
  Forall (fun msg => is_ok (get msg "role") = true) msgs ->
  exists kept, filter_assistant msgs = Ok kept.
Proof.
  induction 1 as [|msg msgs Hmsg _ (kept & IH)]; [now exists []|].
  cbn [filter_assistant]. destruct (get msg "role") as [role|];
    [|discriminate].
  cbn [bindO]. rewrite IH. cbn [bindO]. eauto.
Qed.

Lemma filter_assistant_none (msgs : list value) :
  Forall (fun msg => exists role, get msg "role" = Ok role
                     /\ strict_eq_str role "assistant" = false) msgs ->
  filter_assistant msgs = Ok [].
Proof.
  induction 1 as [|msg msgs (role & Hrole & Hother) _ IH]; [reflexivity|].
  cbn [filter_assistant]. rewrite Hrole. cbn [bindO]. rewrite IH.
  cbn [bindO]. now rewrite Hother.
Qed.

(** X13. When the upstream result holds a list of messages, the reply is
    taken from the last message of the assistant: its [content], else
    its [text], else the [text] of the result, else the empty string;
    its [reasoning] replaces the one of the result when it has one. *)
Theorem reply_is_the_last_assistant_message
    (result : value) (before : list value) (last : value)
    (after : list value) (text reasoning content alt own : value) :
  get result "text" = Ok text ->
  get result "reasoning" = Ok reasoning ->
  get result "messages" = Ok (VArr (before ++ last :: after)) ->
  Forall (fun msg => is_ok (get msg "role") = true) before ->
  get last "role" = Ok (VStr "assistant") ->
  Forall (fun msg => exists role, get msg "role" = Ok role
                     /\ strict_eq_str role "assistant" = false) after ->
  get last "content" = Ok content ->
  get last "text" = Ok alt ->
  get last "reasoning" = Ok own ->
  assemble_result result =
  Ok {| GenerateResult.text :=
          or_else (or_else content (or_else alt text)) (VStr "");
        GenerateResult.reasoning :=
          if truthy own then own else or_else reasoning VNull;
        GenerateResult.messages := VArr (before ++ last :: after) |}.
Proof.
  intros Htext Hreasoning Hmessages Hbefore Hrole Hafter Hcontent Halt Hown.
  unfold assemble_result. rewrite Htext, Hreasoning, Hmessages. cbn [bindO].
  destruct (filter_assistant_total before Hbefore) as (kept & Hkept).
  rewrite (filter_assistant_app before (last :: after) kept Hkept).
  cbn [filter_assistant]. rewrite Hrole. cbn [bindO].
  rewrite (filter_assistant_none after Hafter). cbn [bindO strict_eq_str].
  replace (String.eqb "assistant" "assistant") with true by reflexivity.
  rewrite List.last_last.
  rewrite (assistant_is_truthy last (VStr "assistant") Hrole eq_refl).
  rewrite Hcontent, Halt, Hown. reflexivity.
Qed.

Lemma reply_is_the_last_assistant_message_witness :
  let said role content := VObj [("role", VStr role); ("content", VStr content)] in
  assemble_result
    (VObj [("text", VStr "summary");
           ("messages",
            VArr [said "assistant" "Let me look that up.";
                  said "tool" "42";
                  said "assistant" "The answer is 42.";
                  said "user" "Thanks"])]) =
  Ok {| GenerateResult.text := VStr "The answer is 42.";
        GenerateResult.reasoning := VNull;
        GenerateResult.messages :=
          VArr [said "assistant" "Let me look that up.";
                said "tool" "42";
                said "assistant" "The answer is 42.";
                said "user" "Thanks"] |}.
Proof.
  intros said.
  apply (reply_is_the_last_assistant_message
           (VObj [("text", VStr "summary");
                  ("messages",
                   VArr [said "assistant" "Let me look that up.";
                         said "tool" "42";
                         said "assistant" "The answer is 42.";
                         said "user" "Thanks"])])
           [said "assistant" "Let me look that up."; said "tool" "42"]
           (said "assistant" "The answer is 42.")
           [said "user" "Thanks"]
           (VStr "summary") VUndefined (VStr "The answer is 42.")
           VUndefined VUndefined).
  - reflexivity.
  - reflexivity.
  - reflexivity.
  - repeat constructor.
  - reflexivity.
  - repeat constructor. exists (VStr "user"). now split.
  - reflexivity.
  - reflexivity.
  - reflexivity.
Defined.

(** X14. Whatever [generateText] returns, the reply made of it has a
    text that is truthy or the empty string, a reasoning that is truthy
    or [null], and for messages the array of the result or [null]: no
    field of the reply is ever [undefined]. *)
Theorem reply_fields_are_never_undefined
    (result : value) (reply : GenerateResult.t) :
  assemble_result result = Ok reply ->
  (truthy (GenerateResult.text reply) = true
   \/ GenerateResult.text reply = VStr "")
  /\ (truthy (GenerateResult.reasoning reply) = true
      \/ GenerateResult.reasoning reply = VNull)
  /\ (GenerateResult.messages reply = VNull
      \/ exists msgs, GenerateResult.messages reply = VArr msgs
                      /\ get result "messages" = Ok (VArr msgs)).
Proof.
  unfold assemble_result.
  destruct (get result "text") as [text|]; cbn [bindO]; [|discriminate].
  destruct (get result "reasoning") as [reasoning|]; cbn [bindO];
    [|discriminate].
  destruct (get result "messages") as [messages|]; cbn [bindO];
    [|discriminate].
  assert (Hreasoning : truthy (or_else reasoning VNull) = true
                       \/ or_else reasoning VNull = VNull).
  { unfold or_else. destruct (truthy reasoning) eqn:H; [now left|now right]. }
  destruct messages as [| | | | |msgs| |];
    try (intros [= <-]; cbn; split; [apply or_else_text|];
         split; [exact Hreasoning | now left]).
  destruct (filter_assistant msgs) as [assistants|]; cbn [bindO];
    [|discriminate].
  destruct (truthy (List.last assistants VUndefined)).
  - destruct (get _ "content") as [content|]; cbn [bindO]; [|discriminate].
    destruct (get _ "text") as [alt|]; cbn [bindO]; [|discriminate].
    destruct (get _ "reasoning") as [own|]; cbn [bindO]; [|discriminate].
    intros [= <-]; cbn. split; [apply or_else_text|]. split.
    + destruct (truthy own) eqn:Hown; [now left | exact Hreasoning].
    + right. now exists msgs.
  - intros [= <-]; cbn. split; [apply or_else_text|].
    split; [exact Hreasoning|]. right. now exists msgs.
Qed.

Lemma reply_fields_are_never_undefined_witness :
  let reply := {| GenerateResult.text := VStr "";
                  GenerateResult.reasoning := VNull;
                  GenerateResult.messages := VNull |} in
  assemble_result (VObj [("finishReason", VStr "length")]) = Ok reply
  /\ (truthy (GenerateResult.text reply) = true
      \/ GenerateResult.text reply = VStr "").
Proof.
  intros reply. split; [reflexivity|].
  apply (reply_fields_are_never_undefined
           (VObj [("finishReason", VStr "length")]) reply).
  reflexivity.
Defined.

(* ===================================================================== *)
(** ** The request listener *)
(* ===================================================================== *)

Lemma before_query_append (url query : string) :
  before_query (url +:+ "?" +:+ query) = before_query url.
Proof.
  induction url as [|c url IH].
  - reflexivity.
  - rewrite append_cons. cbn [before_query].
    destruct (Ascii.eqb c "?"); [reflexivity|]. now rewrite IH.
Qed.

(** X15. The query string of a request plays no part: the request is
    routed and answered as the same request without it. *)
Theorem query_string_is_ignored
    (E : Env) (L : Listing.t) (method url query : string) (body : value)
    (w : World) :
  ollamaProxyServer E L
    {| Request.method := method; Request.url := url +:+ "?" +:+ query;
       Request.body := body |} w =
  ollamaProxyServer E L
    {| Request.method := method; Request.url := url; Request.body := body |} w.
Proof.
  unfold ollamaProxyServer, routeKey.
  cbn [Request.method Request.url Request.body].
  now rewrite before_query_append.
Qed.

(** A route key splits into its method and its path in one way. *)
Lemma route_key_split (method method' path path' : string) :
  token method -> token method' ->
  method +:+ " " +:+ path = method' +:+ " " +:+ path' ->
  method = method' /\ path = path'.
Proof.
  unfold token. revert method'.
  induction method as [|c method IH]; intros [|c' method'] Ht Ht';
    rewrite ?append_nil, ?append_cons; intros Heq.
  - injection Heq as Heq. now split.
  - injection Heq as Hc _. destruct Ht'. left. now symmetry.
  - injection Heq as Hc _. destruct Ht. now left.
  - injection Heq as Hc Heq. subst c'.
    destruct (IH method') as [Hm Hp]; try assumption.
    + intros Hin. apply Ht. now right.
    + intros Hin. apply Ht'. now right.
    + subst. now split.
Qed.

Lemma routes_table (E : Env) (L : Listing.t) (method path : string) :
  token method ->
  ~ In (method, path) route_table ->
  routes E L (method +:+ " " +:+ path) = None.
Proof.
  intros Htoken Hnot. unfold routes.
  assert (Hkey : forall m p,
            token m -> In (m, p) route_table ->
            String.eqb (method +:+ " " +:+ path) (m +:+ " " +:+ p) = false).
  { intros m p Hm Hin. apply String.eqb_neq. intros Heq.
    apply route_key_split in Heq as [-> ->]; [|assumption..].
    now apply Hnot. }
  assert (Hget : token "GET") by (unfold token; cbn; intuition discriminate).
  assert (Hpost : token "POST") by (unfold token; cbn; intuition discriminate).
  pose proof (Hkey "GET" "/" Hget) as H1.
  pose proof (Hkey "GET" "/api/version" Hget) as H2.
  pose proof (Hkey "GET" "/api/tags" Hget) as H3.
  pose proof (Hkey "POST" "/api/chat" Hpost) as H4.
  pose proof (Hkey "POST" "/api/generate" Hpost) as H5.
  pose proof (Hkey "POST" "/api/embeddings" Hpost) as H6.
  change ("GET" +:+ " " +:+ "/") with "GET /" in H1.
  change ("GET" +:+ " " +:+ "/api/version") with "GET /api/version" in H2.
  change ("GET" +:+ " " +:+ "/api/tags") with "GET /api/tags" in H3.
  change ("POST" +:+ " " +:+ "/api/chat") with "POST /api/chat" in H4.
  change ("POST" +:+ " " +:+ "/api/generate") with "POST /api/generate" in H5.
  change ("POST" +:+ " " +:+ "/api/embeddings")
    with "POST /api/embeddings" in H6.
  rewrite H1, H2, H3, H4, H5, H6; cbn; tauto.
Qed.

(** X16. A request for anything but the six routes (and not a
    preflight) is answered 404 'Not found'; its body is not looked at and
    no upstream call is made. *)
Theorem unknown_route_is_not_found
    (E : Env) (L : Listing.t) (request : Request.t) (w : World) :
  token (Request.method request) ->
  Request.method request <> "OPTIONS" ->
  ~ In (Request.method request, before_query (Request.url request))
       route_table ->
  ollamaProxyServer E L request w =
  (Ok tt, after_events w (answer 404 (error_body "Not found"))).
Proof.
  intros Htoken Hmethod Hroute. unfold ollamaProxyServer.
  destruct (String.eqb_spec (Request.method request) "OPTIONS");
    [contradiction|].
  unfold routeKey. rewrite (routes_table E L _ _ Htoken Hroute).
  unfold try_catch. now rewrite sendJSON_run.
Qed.

Lemma unknown_route_is_not_found_witness :
  ollamaProxyServer Demo.plain
    {| Listing.chat := []; Listing.embedding := [] |}
    {| Request.method := "GET"; Request.url := "/api/chat?stream=1";
       Request.body := VObj [] |} initial =
  (Ok tt, after_events initial (answer 404 (error_body "Not found"))).
Proof.
  apply unknown_route_is_not_found.
  - unfold token. cbn. intuition discriminate.
  - discriminate.
  - cbn. intuition discriminate.
Defined.

Lemma answered_with_json w w' status data :
  sink w' = sink w ++ answer status data -> answered w w'.
Proof.
  intros H. exists [WriteHead status "application/json"], [], (Some data).
  split; [exact H|]. right. eauto.
Qed.

Lemma streamResponse_answered E modelConfig messages options responseKey
    model validMessages w :
  provider_handle (providers E) modelConfig = Ok model ->
  prepareMessages messages = Ok validMessages -> validMessages <> [] ->
  exists w1,
    streamResponse E modelConfig messages options responseKey w = (Ok tt, w1)
    /\ answered w w1.
Proof.
  intros Hhandle Hprepared Hvalid.
  pose proof (streamResponse_started E modelConfig messages options
                responseKey model validMessages w Hhandle Hprepared Hvalid)
    as Hrun.
  cbv zeta in Hrun. rewrite Hrun.
  destruct (call_args _ _ _ _) as [args|e].
  - destruct (streamText E (length (calls w)) args) as [result|e].
    + eexists. split; [reflexivity|].
      eexists [WriteHead 200 "application/x-ndjson"],
        (delta_chunks E (ModelConfig.model modelConfig) responseKey
           (ticks w) (StreamResult.textStream result) ++ [_]), None.
      cbn [sink]. split; [|right; eauto].
      rewrite map_app, <- !app_assoc. reflexivity.
    + eexists. split; [reflexivity|].
      eexists [WriteHead 200 "application/x-ndjson"], [_], None.
      cbn [sink map]. split; [|right; eauto].
      rewrite <- !app_assoc. reflexivity.
  - eexists. split; [reflexivity|].
    eexists [WriteHead 200 "application/x-ndjson"], [_], None.
    cbn [sink map]. split; [|right; eauto].
    rewrite <- !app_assoc. reflexivity.
Qed.

Lemma handleModelGenerationRequest_answered E messageExtractor responseKey
    body w :
  fresh w ->
  exists w1,
    handleModelGenerationRequest E messageExtractor responseKey body w =
      (Ok tt, w1)
    /\ answered w w1.
Proof.
  intros Hfresh. unfold handleModelGenerationRequest, try_catch.
  destruct (generation_attempt_cases E messageExtractor responseKey body w)
    as [(e & w1 & -> & Hsink)
       |[(data & w1 & -> & Hsink)
        |(modelConfig & model & messages & options & validMessages
          & Hhandle & Hprepared & Hvalid & ->)]].
  - rewrite generation_failed_fresh
      by (unfold fresh in *; now rewrite Hsink).
    eexists. split; [reflexivity|].
    apply (answered_with_json _ _ 500 (error_body e)).
    cbn [after_events sink]. now rewrite Hsink.
  - eexists. split; [reflexivity|].
    now apply (answered_with_json _ _ 200 data).
  - destruct (streamResponse_answered E modelConfig messages options
                responseKey model validMessages w Hhandle Hprepared Hvalid)
      as (w1 & -> & Hanswered).
    now exists w1.
Qed.

Lemma post_api_embeddings_outcome E body w :
  fresh w ->
  exists w1 status data,
    post_api_embeddings E body w = (Ok tt, w1)
    /\ sink w1 = sink w ++ answer status data
    /\ (status = 200
        \/ exists e, status = fst (categorize e)
                     /\ data = error_body (snd (categorize e))).
Proof.
  intros Hfresh.
  destruct (validateEmbeddingRequest E body) as [request|e] eqn:Hrequest.
  - pose proof (silent_generateEmbeddings E
                  (EmbeddingRequest.modelConfig request)
                  (EmbeddingRequest.inputTexts request) w) as Hsilent.
    destruct (generateEmbeddings E (EmbeddingRequest.modelConfig request)
                (EmbeddingRequest.inputTexts request) w)
      as [[result|e] w1] eqn:Hgen; cbn [snd] in Hsilent.
    + destruct (validateEmbeddingRequest_ok E body request Hrequest)
        as (name & _ & _ & Hname & _).
      destruct (post_api_embeddings_generated E body request name result w
                  w1 Hrequest Hname Hgen)
        as (response & w2 & _ & Hsink & _ & ->).
      destruct (validateEmbeddingResponse response _) as [b|e].
      * rewrite sendJSON_run. eexists _, 200, response.
        split; [reflexivity|]. split; [|now left].
        cbn [after_events sink]. unfold answer. now rewrite Hsink, Hsilent.
      * rewrite handleEmbeddingError_run
          by (unfold fresh in *; congruence).
        eexists _, _, _. split; [reflexivity|]. split; [|right; eauto].
        cbn [after_events sink]. unfold answer. now rewrite Hsink, Hsilent.
    + rewrite (post_api_embeddings_generation_fails E body request e w w1
                 Hrequest Hgen).
      rewrite handleEmbeddingError_run by (unfold fresh in *; congruence).
      eexists _, _, _. split; [reflexivity|]. split; [|right; eauto].
      cbn [after_events sink]. unfold answer. now rewrite Hsilent.
  - rewrite (post_api_embeddings_rejected E body e w Hrequest).
    rewrite handleEmbeddingError_run by exact Hfresh.
    eexists _, _, _. split; [reflexivity|]. split; [reflexivity|].
    right. eauto.
Qed.

Lemma tags_of_run E size family parameter_size
    (entries : list (string * ModelConfig.t)) :
  forall w,
    tags_of E size family parameter_size entries w =
    (Ok (imap (fun i entry =>
                 tag (fst entry) (clock E (ticks w + i)) size family
                     parameter_size) entries),
     {| ticks := ticks w + length entries; calls := calls w;
        sink := sink w |}).
Proof.
  induction entries as [|[name config] entries IH]; intros w.
  - cbn. unfold ret. rewrite Nat.add_0_r. now destruct w.
  - cbn [tags_of]. unfold bind at 1, now.
    unfold bind at 1. rewrite IH. unfold ret.
    cbn [ticks calls sink length imap fst]. rewrite Nat.add_0_r.
    f_equal; [f_equal; f_equal | f_equal; lia].
    apply imap_ext. intros i entry _. cbn. f_equal. f_equal. lia.
Qed.

Lemma get_api_tags_run E L w :
  get_api_tags E L w =
  (Ok tt,
   {| ticks := ticks w + length (Listing.chat L)
               + length (Listing.embedding L);
      calls := calls w;
      sink :=
        sink w ++
        answer 200
          (VObj [("models",
                  VArr (imap (fun i entry =>
                                tag (fst entry) (clock E (ticks w + i))
                                    "1000000000" "chat" "7B")
                             (Listing.chat L) ++
                        imap (fun i entry =>
                                tag (fst entry)
                                    (clock E (ticks w
                                              + length (Listing.chat L) + i))
                                    "500000000" "embedding" "4B")
                             (Listing.embedding L)))]) |}).
Proof.
  unfold get_api_tags.
  unfold bind at 1. rewrite tags_of_run.
  unfold bind at 1. rewrite tags_of_run.
  now rewrite sendJSON_run.
Qed.

(** X17. Every request that comes with a fresh response object is
    answered, and answered once: the listener never fails, and what it
    sends is at most one header, written first, then NDJSON lines only,
    then the end of the response. This holds for every method, path and
    parsed body, whatever the upstream services do. *)
Theorem every_request_is_answered_once
    (E : Env) (L : Listing.t) (request : Request.t) (w : World) :
  fresh w ->
  exists w1,
    ollamaProxyServer E L request w = (Ok tt, w1) /\ answered w w1.
Proof.
  intros Hfresh. unfold ollamaProxyServer.
  destruct (String.eqb (Request.method request) "OPTIONS").
  { eexists. split; [reflexivity|].
    exists [WriteHead 200 ""], [], None. split; [|right; eauto].
    cbn. now rewrite <- app_assoc. }
  unfold try_catch, routes.
  destruct (String.eqb (routeKey request) "GET /").
  { eexists. split; [reflexivity|].
    exists [], [], (Some (VStr "Ollama is running in proxy mode.")).
    split; [reflexivity | now left]. }
  destruct (String.eqb (routeKey request) "GET /api/version").
  { unfold get_api_version. rewrite sendJSON_run.
    eexists. split; [reflexivity|].
    now apply (answered_with_json _ _ 200 (VObj [("version", VStr "1.0.1e")])). }
  destruct (String.eqb (routeKey request) "GET /api/tags").
  { rewrite get_api_tags_run. eexists. split; [reflexivity|].
    eapply answered_with_json. reflexivity. }
  destruct (String.eqb (routeKey request) "POST /api/chat").
  { destruct (handleModelGenerationRequest_answered E
                (fun body => get body "messages") "message"
                (Request.body request) w Hfresh) as (w1 & Hrun & Hanswered).
    unfold post_api_chat. rewrite Hrun. now exists w1. }
  destruct (String.eqb (routeKey request) "POST /api/generate").
  { unfold post_api_generate.
    destruct (handleModelGenerationRequest_answered E
                (fun body =>
                   let? prompt := get body "prompt" in
                   Ok (VArr [VObj [("role", VStr "user");
                                   ("content", prompt)]]))
                "response" (Request.body request) w Hfresh)
      as (w1 & Hrun & Hanswered).
    rewrite Hrun. now exists w1. }
  destruct (String.eqb (routeKey request) "POST /api/embeddings").
  { destruct (post_api_embeddings_outcome E (Request.body request) w Hfresh)
      as (w1 & status & data & -> & Hsink & _).
    exists w1. split; [reflexivity|].
    now apply (answered_with_json _ _ status data). }
  rewrite sendJSON_run. eexists. split; [reflexivity|].
  now apply (answered_with_json _ _ 404 (error_body "Not found")).
Qed.

Lemma every_request_is_answered_once_witness :
  exists w1,
    ollamaProxyServer Demo.plain
      {| Listing.chat := [("gpt-4o-mini", Demo.gpt_4o_mini)];
         Listing.embedding := [] |}
      {| Request.method := "POST"; Request.url := "/api/chat";
         Request.body :=
           Sample.chat_request "gpt-4o-mini" "Why is the sky blue?" true |}
      initial = (Ok tt, w1)
    /\ answered initial w1.
Proof.
  apply every_request_is_answered_once. reflexivity.
Defined.

Lemma enumerates_map_to_list (registry : gmap string ModelConfig.t) :
  enumerates registry (map_to_list registry).
Proof.
  split.
  - exact (NoDup_fst_map_to_list registry).
  - intros name config. rewrite <- list_elem_of_In.
    apply elem_of_map_to_list.
Qed.

Lemma imap_tag_names (stamp : nat -> string)
    (size family parameter_size : string)
    (entries : list (string * ModelConfig.t)) :
  map (fun listing => get listing "name")
      (imap (fun i entry =>
               tag (fst entry) (stamp i) size family parameter_size) entries) =
  map (fun entry => Ok (VStr (fst entry))) entries.
Proof.
  revert stamp. induction entries as [|entry entries IH]; intros stamp;
    [reflexivity|].
  cbn [imap map]. f_equal. exact (IH (fun i => stamp (S i))).
Qed.

(** X18. [GET /api/tags] lists the models the endpoints serve, the chat
    models first: the answer is 200 with one object per entry of
    [chatModels], in the order of enumeration, with family 'chat',
    followed by one object per entry of [embeddingModels] with family
    'embedding', each stamped with the clock reading of its turn. In a
    process whose registries were loaded from the configuration, a name
    is so listed with family 'chat' exactly when the chat and generate
    endpoints accept it as [model], and with family 'embedding' exactly
    when the embeddings endpoint does. No upstream call is made. *)
Theorem tags_list_the_models_served
    (E : Env) (L : Listing.t) (models : list (string * RawConfig.t))
    (w : World) :
  object_entries models ->
  loaded_in E models ->
  enumerates (chatModels E) (Listing.chat L) ->
  enumerates (embeddingModels E) (Listing.embedding L) ->
  let chat :=
    imap (fun i entry =>
            tag (fst entry) (clock E (ticks w + i)) "1000000000" "chat" "7B")
         (Listing.chat L) in
  let embedding :=
    imap (fun i entry =>
            tag (fst entry)
                (clock E (ticks w + length (Listing.chat L) + i))
                "500000000" "embedding" "4B")
         (Listing.embedding L) in
  get_api_tags E L w =
    (Ok tt,
     {| ticks := ticks w + length (Listing.chat L)
                 + length (Listing.embedding L);
        calls := calls w;
        sink := sink w ++
                answer 200 (VObj [("models", VArr (chat ++ embedding))]) |})
  /\ map (fun listing => get listing "name") (chat ++ embedding) =
     map (fun entry => Ok (VStr (fst entry)))
         (Listing.chat L ++ Listing.embedding L)
  /\ forall name,
       (is_ok (validateChatModel E (VStr name)) = true
        <-> exists listing,
              In listing (chat ++ embedding)
              /\ get listing "name" = Ok (VStr name)
              /\ family_of listing = Ok (VStr "chat"))
       /\ (is_ok (validateEmbeddingModel E (VStr name)) = true
           <-> exists listing,
                 In listing (chat ++ embedding)
                 /\ get listing "name" = Ok (VStr name)
                 /\ family_of listing = Ok (VStr "embedding")).
Proof.
  intros Hentries Hloaded [_ Hchat] [_ Hembedding] chat embedding.
  split; [apply get_api_tags_run|].
  assert (Hin_chat : forall listing,
            In listing chat <->
            exists i entry, Listing.chat L !! i = Some entry
              /\ listing = tag (fst entry) (clock E (ticks w + i))
                               "1000000000" "chat" "7B").
  { intros listing. unfold chat.
    rewrite <- list_elem_of_In, elem_of_lookup_imap.
    split; intros (i & entry & H1 & H2); exists i, entry; now split. }
  assert (Hin_embedding : forall listing,
            In listing embedding <->
            exists i entry, Listing.embedding L !! i = Some entry
              /\ listing = tag (fst entry)
                               (clock E (ticks w + length (Listing.chat L)
                                         + i))
                               "500000000" "embedding" "4B").
  { intros listing. unfold embedding.
    rewrite <- list_elem_of_In, elem_of_lookup_imap.
    split; intros (i & entry & H1 & H2); exists i, entry; now split. }
  split.
  { rewrite !map_app. f_equal.
    - exact (imap_tag_names (fun i => clock E (ticks w + i)) _ _ _ _).
    - exact (imap_tag_names
               (fun i => clock E (ticks w + length (Listing.chat L) + i))
               _ _ _ _). }
  intros name. split; split.
  - destruct (validateChatModel E (VStr name)) as [config|] eqn:Hvalid;
      [intros _|discriminate].
    apply validateChatModel_own, Hchat in Hvalid.
    apply list_elem_of_In, list_elem_of_lookup_1 in Hvalid as (i & Hi).
    exists (tag name (clock E (ticks w + i)) "1000000000" "chat" "7B").
    split; [|now split].
    apply in_or_app. left. apply Hin_chat. now exists i, (name, config).
  - intros (listing & Hin & Hname & Hfamily).
    apply in_app_or in Hin as [Hin|Hin].
    + apply Hin_chat in Hin as (i & [name' config] & Hi & ->).
      cbn in Hname. injection Hname as ->.
      apply list_elem_of_lookup_2, list_elem_of_In, Hchat in Hi.
      now rewrite (loaded_chat_valid E models name config Hentries Hloaded
                     Hi).
    + apply Hin_embedding in Hin as (i & entry & _ & ->). discriminate.
  - destruct (validateEmbeddingModel E (VStr name)) as [config|] eqn:Hvalid;
      [intros _|discriminate].
    apply validateEmbeddingModel_own, Hembedding in Hvalid.
    apply list_elem_of_In, list_elem_of_lookup_1 in Hvalid as (i & Hi).
    exists (tag name (clock E (ticks w + length (Listing.chat L) + i))
                "500000000" "embedding" "4B").
    split; [|now split].
    apply in_or_app. right. apply Hin_embedding. now exists i, (name, config).
  - intros (listing & Hin & Hname & Hfamily).
    apply in_app_or in Hin as [Hin|Hin].
    + apply Hin_chat in Hin as (i & entry & _ & ->). discriminate.
    + apply Hin_embedding in Hin as (i & [name' config] & Hi & ->).
      cbn in Hname. injection Hname as ->.
      apply list_elem_of_lookup_2, list_elem_of_In, Hembedding in Hi.
      now rewrite (loaded_embedding_valid E models name config Hentries
                     Hloaded Hi).
Qed.

Lemma tags_list_the_models_served_witness :
  let L := {| Listing.chat := map_to_list (chatModels Sample.env);
              Listing.embedding := map_to_list (embeddingModels Sample.env) |} in
  exists listed,
    sink (snd (get_api_tags Sample.env L initial)) =
      answer 200 (VObj [("models", VArr listed)])
    /\ map (fun listing => get listing "name") listed =
       map (fun entry => Ok (VStr (fst entry)))
           (Listing.chat L ++ Listing.embedding L)
    /\ (is_ok (validateChatModel Sample.env (VStr "my-custom-gpt")) = true
        <-> exists listing,
              In listing listed
              /\ get listing "name" = Ok (VStr "my-custom-gpt")
              /\ family_of listing = Ok (VStr "chat")).
Proof.
  intros L.
  destruct (tags_list_the_models_served Sample.env L Sample.models_json
              initial models_json_entries
              (with_models_loaded Demo.plain Sample.models_json)
              (enumerates_map_to_list _) (enumerates_map_to_list _))
    as (Hrun & Hnames & Hserved).
  eexists. rewrite Hrun. split; [reflexivity|].
  split; [exact Hnames|]. apply (Hserved "my-custom-gpt").
Defined.

(* ===================================================================== *)
(** ** Bounds that hold for every request *)
(* ===================================================================== *)

(** X19. The embeddings endpoint answers every request with one JSON
    answer whose status is 200, 400, 401, 429, 500 or 503; an answer
    with another status than 200 is an object with the one field
    [error]. *)
Theorem embeddings_answers_have_six_statuses
    (E : Env) (body : value) (w : World) :
  fresh w ->
  exists w1 status data,
    post_api_embeddings E body w = (Ok tt, w1)
    /\ sink w1 = sink w ++ answer status data
    /\ In status [200; 400; 401; 429; 500; 503]
    /\ (status <> 200 -> exists message, data = error_body message).
Proof.
  intros Hfresh.
  destruct (post_api_embeddings_outcome E body w Hfresh)
    as (w1 & status & data & Hrun & Hsink & Hstatus).
  exists w1, status, data. split; [exact Hrun|]. split; [exact Hsink|].
  destruct Hstatus as [->|(e & -> & ->)].
  - split; [now left | congruence].
  - split; [|eauto].
    pose proof (categorize_status e) as Hin. cbn in Hin |- *. tauto.
Qed.

Lemma embeddings_answers_have_six_statuses_witness :
  exists w1 status data,
    post_api_embeddings Demo.plain (VObj [("prompt", VStr "Hello world")])
                        initial = (Ok tt, w1)
    /\ sink w1 = [] ++ answer status data
    /\ In status [200; 400; 401; 429; 500; 503]
    /\ (status <> 200 -> exists message, data = error_body message).
Proof.
  apply (embeddings_answers_have_six_statuses Demo.plain
           (VObj [("prompt", VStr "Hello world")]) initial).
  reflexivity.
Defined.

Lemma generateEmbeddings_calls E modelConfig inputTexts w :
  exists n,
    n <= length inputTexts
    /\ calls (snd (generateEmbeddings E modelConfig inputTexts w)) =
       calls w ++ map (EmbedContent (ModelConfig.model modelConfig))
                      (take n inputTexts).
Proof.
  unfold generateEmbeddings. rewrite rethrow.
  destruct (String.eqb (ModelConfig.provider modelConfig) "google"
            && negb (env_set (GEMINI_API_KEY E))).
  { exists 0. split; [lia|]. cbn. now rewrite app_nil_r. }
  destruct (negb (String.eqb (ModelConfig.provider modelConfig) "google")).
  { exists 0. split; [lia|]. cbn. now rewrite app_nil_r. }
  destruct (embed_loop_calls E modelConfig inputTexts 0 [] w)
    as (n & Hn & Hcalls & _).
  exists n. split; [exact Hn|].
  unfold bind.
  destruct (embed_loop E modelConfig 0 inputTexts [] w) as [[vs|e] w1];
    exact Hcalls.
Qed.

(** X20. No request to the embeddings endpoint makes more than 100
    upstream calls: a request that the validation turns down makes none,
    and an accepted request makes [embedContent] calls, with the upstream
    model of its configuration, for the first [n] of its texts in their
    order, each text once, [n] being at most 100. *)
Theorem embeddings_request_makes_at_most_100_calls
    (E : Env) (body : value) (w : World) :
  exists n,
    n <= 100
    /\ calls (snd (post_api_embeddings E body w)) =
       calls w ++
       match validateEmbeddingRequest E body with
       | Ok request =>
           map (EmbedContent
                  (ModelConfig.model (EmbeddingRequest.modelConfig request)))
               (take n (EmbeddingRequest.inputTexts request))
       | Throw _ => []
       end.
Proof.
  destruct (validateEmbeddingRequest E body) as [request|e] eqn:Hrequest.
  - destruct (generateEmbeddings_calls E
                (EmbeddingRequest.modelConfig request)
                (EmbeddingRequest.inputTexts request) w) as (n & Hn & Hcalls).
    exists n.
    rewrite (post_api_embeddings_calls E body request w Hrequest).
    split; [|exact Hcalls].
    destruct (validateEmbeddingRequest_ok E body request Hrequest)
      as (_ & _ & raw & _ & _ & _ & _ & _ & Htexts & _ & Hcount & _).
    rewrite Htexts, length_map in Hn. unfold maxTexts in Hcount. lia.
  - exists 0. split; [lia|].
    rewrite (post_api_embeddings_rejected E body e w Hrequest).
    rewrite app_nil_r. apply handleEmbeddingError_calls.
Qed.

Lemma generation_failed_calls E e w :
  calls (snd (generation_failed E e w)) = calls w.
Proof.
  unfold generation_failed, bind, headersSent.
  destruct (negb (existsb is_write_head (sink w))); reflexivity.
Qed.

Lemma generateResponse_calls E modelConfig messages options w :
  (exists e, generateResponse E modelConfig messages options w = (Throw e, w))
  \/ exists args outcome,
       generateResponse E modelConfig messages options w =
       (outcome, after_calls w [GenerateText args]).
Proof.
  destruct (provider_handle (providers E) modelConfig) as [model|e]
    eqn:Hhandle.
  2:{ left. exists e. now apply generateResponse_no_handle. }
  destruct (prepareMessages messages) as [validMessages|e] eqn:Hprepared.
  2:{ left. exists e. unfold generateResponse.
      now rewrite bind_lift, Hhandle, bind_lift, Hprepared. }
  destruct validMessages as [|m validMessages].
  { left. eexists. unfold generateResponse.
    rewrite bind_lift, Hhandle, bind_lift, Hprepared. reflexivity. }
  destruct (call_args model (m :: validMessages)
              (default_to (VObj []) options)
              (fun num_predict => or_else num_predict (VNum "32768")))
    as [args|e] eqn:Hargs.
  - right. eexists args, _.
    apply (generateResponse_run E modelConfig messages options model
             (m :: validMessages) args w Hhandle Hprepared);
      [discriminate|exact Hargs].
  - left. exists e. unfold generateResponse.
    rewrite bind_lift, Hhandle, bind_lift, Hprepared. cbn [length Nat.eqb].
    now rewrite bind_lift, Hargs.
Qed.

(** X21. A chat or generate request makes at most one upstream call:
    none when it is turned down, else one call of [generateText] or one
    of [streamText]. *)
Theorem generation_request_makes_at_most_one_call
    (E : Env) (messageExtractor : value -> Outcome value)
    (responseKey : string) (body : value) (w : World) :
  let after :=
    calls (snd (handleModelGenerationRequest E messageExtractor responseKey
                                             body w)) in
  after = calls w
  \/ exists args,
       after = calls w ++ [GenerateText args]
       \/ after = calls w ++ [StreamText args].
Proof.
  cbv zeta. unfold handleModelGenerationRequest, try_catch,
    generation_attempt.
  rewrite bind_lift.
  destruct (destructure body) as [[[name options] stream]|e];
    [|left; apply generation_failed_calls].
  rewrite bind_lift.
  destruct (validateChatModel E name) as [modelConfig|e];
    [|left; apply generation_failed_calls].
  rewrite bind_lift.
  destruct (messageExtractor body) as [extracted|e];
    [|left; apply generation_failed_calls].
  destruct (truthy stream).
  - destruct (provider_handle (providers E) modelConfig) as [model|e]
      eqn:Hhandle.
    2:{ rewrite (streamResponse_no_handle E modelConfig _ options
                   responseKey e w Hhandle).
        left. apply generation_failed_calls. }
    destruct (prepareMessages (or_else extracted (VArr [])))
      as [[|m validMessages]|e] eqn:Hprepared.
    + destruct (streamResponse_not_started E modelConfig
                  (or_else extracted (VArr [])) options responseKey w)
        as [e ->]; [congruence|]. left. apply generation_failed_calls.
    + pose proof (streamResponse_started E modelConfig
                    (or_else extracted (VArr [])) options responseKey model
                    (m :: validMessages) w Hhandle Hprepared) as Hrun.
      cbv zeta in Hrun. rewrite Hrun by discriminate.
      destruct (call_args _ _ _ _) as [args|e]; [|now left].
      destruct (streamText E (length (calls w)) args);
        right; exists args; now right.
    + destruct (streamResponse_not_started E modelConfig
                  (or_else extracted (VArr [])) options responseKey w)
        as [e' ->]; [congruence|]. left. apply generation_failed_calls.
  - destruct (generateResponse_calls E modelConfig
                (or_else extracted (VArr [])) options w)
      as [(e & Hgen)|(args & outcome & Hgen)].
    + erewrite bind_throw by exact Hgen. left. apply generation_failed_calls.
    + right. exists args. left. destruct outcome as [reply|e].
      * erewrite bind_ok by exact Hgen.
        unfold bind at 1, now. cbv beta iota zeta. rewrite sendJSON_run.
        reflexivity.
      * erewrite bind_throw by exact Hgen. apply generation_failed_calls.
Qed.

(** X22. The chat and generate endpoints know two statuses only: a
    request is answered with 200, as one JSON object or as a stream of
    NDJSON lines, or with 500 and an object with the one field [error],
    also when the fault is the client's. *)
Theorem generation_answers_are_200_or_500
    (E : Env) (messageExtractor : value -> Outcome value)
    (responseKey : string) (body : value) (w : World) :
  fresh w ->
  exists w1,
    handleModelGenerationRequest E messageExtractor responseKey body w =
      (Ok tt, w1)
    /\ ((exists data, sink w1 = sink w ++ answer 200 data)
        \/ (exists e, sink w1 = sink w ++ answer 500 (error_body e))
        \/ (exists chunks,
              sink w1 = sink w ++ WriteHead 200 "application/x-ndjson"
                               :: map Write chunks ++ [EndWith None])).
Proof.
  intros Hfresh. unfold handleModelGenerationRequest, try_catch.
  destruct (generation_attempt_cases E messageExtractor responseKey body w)
    as [(e & w1 & -> & Hsink)
       |[(data & w1 & -> & Hsink)
        |(modelConfig & model & messages & options & validMessages
          & Hhandle & Hprepared & Hvalid & ->)]].
  - rewrite generation_failed_fresh
      by (unfold fresh in *; now rewrite Hsink).
    eexists. split; [reflexivity|]. right. left. exists e.
    cbn [after_events sink]. now rewrite Hsink.
  - eexists. split; [reflexivity|]. left. now exists data.
  - pose proof (streamResponse_started E modelConfig messages options
                  responseKey model validMessages w Hhandle Hprepared Hvalid)
      as Hrun.
    cbv zeta in Hrun. rewrite Hrun.
    destruct (call_args _ _ _ _) as [args|e].
    + destruct (streamText E (length (calls w)) args) as [result|e].
      * eexists. split; [reflexivity|]. right. right.
        eexists (delta_chunks E (ModelConfig.model modelConfig) responseKey
                   (ticks w) (StreamResult.textStream result) ++ [_]).
        cbn [sink]. rewrite map_app, <- !app_assoc. reflexivity.
      * eexists. split; [reflexivity|]. right. right. eexists [_].
        cbn [sink map]. now rewrite <- !app_assoc.
    + eexists. split; [reflexivity|]. right. right. eexists [_].
      cbn [sink map]. now rewrite <- !app_assoc.
Qed.

Lemma generation_answers_are_200_or_500_witness :
  exists w1,
    post_api_chat Demo.plain
      (Sample.chat_request "no-such-model" "Hi" false) initial = (Ok tt, w1)
    /\ ((exists data, sink w1 = [] ++ answer 200 data)
        \/ (exists e, sink w1 = [] ++ answer 500 (error_body e))
        \/ (exists chunks,
              sink w1 = [] ++ WriteHead 200 "application/x-ndjson"
                            :: map Write chunks ++ [EndWith None])).
Proof.
  apply (generation_answers_are_200_or_500 Demo.plain
           (fun body => get body "messages") "message"
           (Sample.chat_request "no-such-model" "Hi" false) initial).
  reflexivity.
Defined.
